(** * OAuth2 credential lifecycle of the ReviewBoard and Jira MCP servers

    A shallow embedding of
    - the token manager and the authenticated client of the ReviewBoard
      server ([OAuth2TokenManager], [ReviewBoardClient], [getClient]),
    - the interactive authorization flow of [oauth-setup.ts]
      ([startCallbackServer], [exchangeCodeForToken], [main]),
    - the instance registry of the Jira server ([JiraClient]) and the
      tools built on it.

    JavaScript effects are made explicit: every function that touches the
    clock, the disk, the network or the console is a state transformer over
    a world that records what happened in a chronological trace.  An [async]
    function is cut at its [await]s into the segments the event loop runs
    without interruption. *)

From Stdlib Require Import ZArith List String Ascii Bool Lia DecimalString.
Import ListNotations.

Local Open Scope Z_scope.

Infix "+++" := String.append (at level 60, right associativity).

(** ** JavaScript values and coercions used by the sources *)

Module Js.

(** A value of a JSON field read as a string: the string, or [undefined]
    when the field is missing. *)
Definition str := option string.

(** A JavaScript number holding an integer, or [NaN].  Timestamps and
    lifetimes are integers far below 2^53, where double arithmetic is
    exact. *)
Inductive num := Num (z : Z) | NaN.

(** [if (s)] on a string: only the empty string is falsy. *)
Definition truthy_string (s : string) : bool := negb (s =? "")%string.

(** [if (v)] on a string-or-undefined value. *)
Definition truthy (v : str) : bool :=
  match v with
  | Some s => truthy_string s
  | None => false
  end.

(** [`${v}`]: string coercion inside a template literal. *)
Definition show (v : str) : string :=
  match v with
  | Some s => s
  | None => "undefined"
  end.

Definition show_Z (z : Z) : string := NilZero.string_of_int (Z.to_int z).

Definition show_num (n : num) : string :=
  match n with
  | Num z => show_Z z
  | NaN => "NaN"
  end.

(** [a || b] on string-or-undefined operands. *)
Definition or_else (a b : str) : str := if truthy a then a else b.

(** [n * 1000] where [n] was read from JSON: [undefined * 1000] is [NaN]. *)
Definition times_1000 (n : option Z) : num :=
  match n with
  | Some z => Num (z * 1000)
  | None => NaN
  end.

(** [a + b] with a proper number on the left. *)
Definition plus (a : Z) (b : num) : num :=
  match b with
  | Num z => Num (a + z)
  | NaN => NaN
  end.

(** [a >= (b - k)]: any comparison with [NaN] is false. *)
Definition geq_minus (a : Z) (b : num) (k : Z) : bool :=
  match b with
  | Num z => z - k <=? a
  | NaN => false
  end.

(** [a !== b] where [b] may be undefined. *)
Definition strict_neq (a : string) (b : str) : bool :=
  match b with
  | Some s => negb (a =? s)%string
  | None => true
  end.

(** [s.replace(/\/$/, "")]: drop one trailing slash. *)
Fixpoint strip_trailing_slash (s : string) : string :=
  match s with
  | EmptyString => EmptyString
  | String c EmptyString => if Ascii.eqb c "/" then EmptyString else s
  | String c rest => String c (strip_trailing_slash rest)
  end.

(** An exception value.  [has_response_data] tells whether
    [error.response?.data] is truthy: only an axios error built from an
    http response with a body can have it. *)
Record Error := mkError { message : string; has_response_data : bool }.

(** [new Error(msg)] *)
Definition new_Error (msg : string) : Error :=
  {| message := msg; has_response_data := false |}.

(** How a call ends: it returns a value or throws. *)
Inductive Completion (A : Type) :=
| Return (a : A)
| Throw (e : Error).
Arguments Return {A} a.
Arguments Throw {A} e.

(** Computations over a mutable state [S].  A thrown exception keeps the
    mutations made before it, as in JavaScript. *)
Definition M (S A : Type) := S -> Completion A * S.

Definition ret {S A} (a : A) : M S A := fun s => (Return a, s).

Definition throw {S A} (e : Error) : M S A := fun s => (Throw e, s).

Definition bind {S A B} (m : M S A) (k : A -> M S B) : M S B :=
  fun s =>
    match m s with
    | (Return a, s') => k a s'
    | (Throw e, s') => (Throw e, s')
    end.

(** [try { m } catch (error) { h error }] *)
Definition try_catch {S A} (m : M S A) (h : Error -> M S A) : M S A :=
  fun s =>
    match m s with
    | (Return a, s') => (Return a, s')
    | (Throw e, s') => h e s'
    end.

Definition get {S} : M S S := fun s => (Return s, s).

Definition modify {S} (f : S -> S) : M S unit := fun s => (Return tt, f s).

End Js.

Import Js.

Notation "x <- m ;; k" := (bind m (fun x => k))
  (at level 61, m at next level, right associativity).
Notation "m ;;; k" := (bind m (fun _ => k))
  (at level 61, right associativity).

(** ** The world shared by the ReviewBoard programs *)

(** The durable credential record ([interface OAuthConfig]).  The three
    token fields are copied unchecked from the token endpoint's JSON, so
    they hold whatever was there, [undefined] included; [expires_at] is
    computed from the response and can be [NaN]. *)
Record OAuthConfig := mkConfig {
  access_token : Js.str;
  refresh_token : Js.str;
  token_type : Js.str;
  expires_at : Js.num;
  client_id : string;
  client_secret : string;
  reviewboard_url : string
}.

(** The body of a token response ([response.data]): JSON [null], or a JSON
    object, of which the fields the sources read are kept. *)
Record TokenData := mkTokenData {
  td_access_token : Js.str;
  td_refresh_token : Js.str;
  td_token_type : Js.str;
  td_expires_in : option Z
}.

Inductive ResponseData :=
| DataNull
| DataObject (td : TokenData).

(** What the transport reports for one request. *)
Inductive HttpResult :=
| NetworkError (msg : string)
| HttpResponse (status : Z) (data : ResponseData).

Inductive Stream := Stdout | Stderr.

(** The credential file on disk. *)
Inductive FileState :=
| Absent
| Unparseable
| Stored (cfg : OAuthConfig).

(** What [console.error(text, error.response?.data || error.message)]
    prints after [text]. *)
Inductive Detail :=
| ResponseBody
| Message (msg : string).

(** Observable effects, in the order they happen. *)
Inductive Event :=
| Console (to : Stream) (text : string)
| ConsoleDetail (to : Stream) (text : string) (detail : Detail)
| HttpPost (url : string) (form : list (string * string))
| FileExists (path : string)
| FileRead (path : string)
| FileWrite (path : string) (content : OAuthConfig)
| Listen (port : Js.num)
| Respond (status : Z) (body : string)
| CloseServer
| Exit (code : Z).

Record World := mkWorld {
  clock : Z;                (* what Date.now() returns *)
  disk : FileState;         (* oauth-config.json *)
  disk_writable : bool;     (* whether fs.writeFileSync succeeds *)
  trace : list Event
}.

Definition emit (e : Event) (w : World) : World :=
  {| clock := clock w; disk := disk w; disk_writable := disk_writable w;
     trace := trace w ++ [e] |}.

(** Time passing while the process is suspended. *)
Definition elapse (d : Z) (w : World) : World :=
  {| clock := clock w + d; disk := disk w; disk_writable := disk_writable w;
     trace := trace w |}.

Definition store (cfg : OAuthConfig) (w : World) : World :=
  {| clock := clock w; disk := Stored cfg; disk_writable := disk_writable w;
     trace := trace w |}.

(** The settled promise of [axios.post]: fulfilled with the body on a 2xx
    status, rejected on a transport error and on every other status. *)
Definition axios_settle (r : HttpResult) : Completion ResponseData :=
  match r with
  | NetworkError msg => Throw {| message := msg; has_response_data := false |}
  | HttpResponse status data =>
      if (200 <=? status) && (status <? 300) then Return data
      else Throw {| message := "Request failed with status code " +++ show_Z status;
                    has_response_data :=
                      match data with DataNull => false | DataObject _ => true end |}
  end.

(** [error.response?.data || error.message] *)
Definition error_detail (e : Error) : Detail :=
  if has_response_data e then ResponseBody else Message (message e).

(** [tokenData.f]: reading a property of [null] throws a [TypeError]. *)
Definition read_data {S} (d : ResponseData) : M S TokenData :=
  match d with
  | DataObject td => ret td
  | DataNull => throw (new_Error "Cannot read properties of null")
  end.

Definition is_post (e : Event) : bool :=
  match e with HttpPost _ _ => true | _ => false end.

Definition is_write (e : Event) : bool :=
  match e with FileWrite _ _ => true | _ => false end.

Definition is_read (e : Event) : bool :=
  match e with FileRead _ => true | FileExists _ => true | _ => false end.

Definition posts (t : list Event) : list Event := filter is_post t.
Definition writes (t : list Event) : list Event := filter is_write t.
Definition reads (t : list Event) : list Event := filter is_read t.

(** ** The token manager ([class OAuth2TokenManager]) *)

Module TokenManager.

Record OAuth2TokenManager := mkManager {
  config : OAuthConfig;
  configPath : string
}.

(** The manager object together with the world it runs in. *)
Record State := mkState {
  self : OAuth2TokenManager;
  env : World
}.

Definition in_env (f : World -> World) (s : State) : State :=
  {| self := self s; env := f (env s) |}.

Definition log (text : string) : State -> State :=
  in_env (emit (Console Stderr text)).

Definition set_config (f : OAuthConfig -> OAuthConfig) (s : State) : State :=
  {| self := {| config := f (config (self s)); configPath := configPath (self s) |};
     env := env s |}.

Definition set_access_token (v : Js.str) (c : OAuthConfig) : OAuthConfig :=
  mkConfig v (refresh_token c) (token_type c) (expires_at c)
           (client_id c) (client_secret c) (reviewboard_url c).

Definition set_refresh_token (v : Js.str) (c : OAuthConfig) : OAuthConfig :=
  mkConfig (access_token c) v (token_type c) (expires_at c)
           (client_id c) (client_secret c) (reviewboard_url c).

Definition set_expires_at (v : Js.num) (c : OAuthConfig) : OAuthConfig :=
  mkConfig (access_token c) (refresh_token c) (token_type c) v
           (client_id c) (client_secret c) (reviewboard_url c).

Definition not_found_message (path : string) : string :=
  "OAuth configuration file not found at " +++ path +++ ". " +++
  "Please run the OAuth setup script first: npm run oauth-setup".

(** [loadConfig()]: [existsSync], [readFileSync], [JSON.parse]. *)
Definition loadConfig (path : string) : M World OAuthConfig :=
  modify (emit (Console Stderr ("[OAuth] Loading configuration from " +++ path))) ;;;
  modify (emit (FileExists path)) ;;;
  w <- get ;;
  match disk w with
  | Absent => throw (new_Error (not_found_message path))
  | Unparseable =>
      modify (emit (FileRead path)) ;;;
      throw (new_Error "Unexpected token in JSON")
  | Stored cfg =>
      modify (emit (FileRead path)) ;;;
      modify (emit (Console Stderr "[OAuth] Configuration loaded successfully")) ;;;
      ret cfg
  end.

(** [constructor(configPath)] *)
Definition new_OAuth2TokenManager (path : string) : M World OAuth2TokenManager :=
  cfg <- loadConfig path ;;
  ret {| config := cfg; configPath := path |}.

Definition writeFileSync (path : string) (content : OAuthConfig) : M State unit :=
  fun s =>
    if disk_writable (env s)
    then (Return tt, in_env (fun w => store content (emit (FileWrite path content) w)) s)
    else (Throw (new_Error ("EACCES: permission denied, open '" +++ path +++ "'")), s).

(** [saveConfig()] *)
Definition saveConfig : M State unit :=
  modify (log "[OAuth] Saving updated configuration") ;;;
  s <- get ;;
  writeFileSync (configPath (self s)) (config (self s)) ;;;
  modify (log "[OAuth] Configuration saved").

Definition refresh_request (c : OAuthConfig) : Event :=
  HttpPost (reviewboard_url c +++ "/oauth2/token/")
           [("grant_type", "refresh_token");
            ("refresh_token", show (refresh_token c));
            ("client_id", client_id c);
            ("client_secret", client_secret c)]%string.

Definition refresh_failed_message : string :=
  "Failed to refresh access token. You may need to run the OAuth setup again: npm run oauth-setup".

(** [refreshAccessToken()] up to its [await axios.post(...)]: the request
    is handed to the transport. *)
Definition refreshAccessToken_begin (s : State) : State :=
  let s := log "[OAuth] Refreshing access token..." s in
  in_env (emit (refresh_request (config (self s)))) s.

(** [refreshAccessToken()] from the moment the request settles with [r]. *)
Definition refreshAccessToken_resume (r : HttpResult) : M State unit :=
  try_catch
    (data <- (fun s => (axios_settle r, s)) ;;
     tokenData <- read_data data ;;
     (* Update configuration with new tokens *)
     modify (set_config (set_access_token (td_access_token tokenData))) ;;;
     (if truthy (td_refresh_token tokenData)
      then modify (set_config (set_refresh_token (td_refresh_token tokenData)))
      else ret tt) ;;;
     s <- get ;;
     modify (set_config (set_expires_at
               (plus (clock (env s)) (times_1000 (td_expires_in tokenData))))) ;;;
     saveConfig ;;;
     modify (log "[OAuth] Access token refreshed successfully"))
    (fun error =>
       modify (in_env (emit (ConsoleDetail Stderr "[Error] Failed to refresh access token:"
                                           (error_detail error)))) ;;;
       throw (new_Error refresh_failed_message)).

(** Where a segment of an [async] function stops: at its end, or at the
    [await] of the pending token request. *)
Inductive Step (A : Type) :=
| Finished (c : Completion A)
| Awaiting.
Arguments Finished {A} c.
Arguments Awaiting {A}.

Definition expiryBuffer : Z := 5 * 60 * 1000.

Definition isExpired (s : State) : bool :=
  geq_minus (clock (env s)) (expires_at (config (self s))) expiryBuffer.

(** [getValidAccessToken()] from the call to its first suspension. *)
Definition getValidAccessToken_begin (s : State) : Step Js.str * State :=
  if isExpired s then
    let s := log "[OAuth] Access token expired or expiring soon, refreshing..." s in
    (Awaiting, refreshAccessToken_begin s)
  else
    (Finished (Return (access_token (config (self s)))), s).

(** [getValidAccessToken()] after the token request settled with [r]: the
    rest of [refreshAccessToken()], then [return this.config.access_token]. *)
Definition getValidAccessToken_resume (r : HttpResult) : M State Js.str :=
  refreshAccessToken_resume r ;;;
  s <- get ;;
  ret (access_token (config (self s))).

(** One call awaited to its end with nothing else running in between: if
    it suspends, the request settles with [r] after [latency]
    milliseconds. *)
Definition getValidAccessToken (r : HttpResult) (latency : Z) : M State Js.str :=
  fun s =>
    match getValidAccessToken_begin s with
    | (Finished c, s1) => (c, s1)
    | (Awaiting, s1) => getValidAccessToken_resume r (in_env (elapse latency) s1)
    end.

(** [refreshAccessToken()] awaited to its end: the request settles with
    [r] after [latency] milliseconds. *)
Definition refreshAccessToken (r : HttpResult) (latency : Z) : M State unit :=
  fun s => refreshAccessToken_resume r (in_env (elapse latency) (refreshAccessToken_begin s)).

(** *** Several callers on the one event loop

    Calls are numbered in the order they are made.  A call is either
    suspended at its token request or settled. *)
Inductive Call :=
| Suspended
| Settled (c : Completion Js.str).

Record Loop := mkLoop {
  state : State;
  calls : list Call
}.

(** What can happen next: somebody calls [getValidAccessToken()], the
    request of call [id] settles, or time passes. *)
Inductive Action :=
| Invoke
| Settle (id : nat) (r : HttpResult)
| Elapse (d : Z).

Fixpoint set_call (id : nat) (c : Call) (l : list Call) : list Call :=
  match l, id with
  | [], _ => []
  | _ :: rest, O => c :: rest
  | x :: rest, S n => x :: set_call n c rest
  end.

Definition step (a : Action) (l : Loop) : Loop :=
  match a with
  | Invoke =>
      match getValidAccessToken_begin (state l) with
      | (Finished c, s) => {| state := s; calls := calls l ++ [Settled c] |}
      | (Awaiting, s) => {| state := s; calls := calls l ++ [Suspended] |}
      end
  | Settle id r =>
      match nth_error (calls l) id with
      | Some Suspended =>
          let '(c, s) := getValidAccessToken_resume r (state l) in
          {| state := s; calls := set_call id (Settled c) (calls l) |}
      | _ => l
      end
  | Elapse d => {| state := in_env (elapse d) (state l); calls := calls l |}
  end.

Definition run (acts : list Action) (l : Loop) : Loop :=
  fold_left (fun l a => step a l) acts l.

Definition start (s : State) : Loop := {| state := s; calls := [] |}.

(** A refresh is in progress: some call is suspended at its request. *)
Definition refresh_in_progress (l : Loop) : bool :=
  existsb (fun c => match c with Suspended => true | Settled _ => false end) (calls l).

Definition requests (l : Loop) : nat := List.length (posts (trace (env (state l)))).

(** Single-flight, as the specification words it: a call made while a
    refresh is in progress starts no token request of its own. *)
Definition single_flight : Prop :=
  forall l : Loop,
    refresh_in_progress l = true ->
    requests (step Invoke l) = requests l.


Definition transport_failure (r : HttpResult) : bool :=
  match r with
  | NetworkError _ => true
  | HttpResponse status _ => negb ((200 <=? status) && (status <? 300))
  end.




(** The refresh, as the specification words it: a call that finds the
    token expiring, and whose request the endpoint answers with a token,
    returns that token. *)
Definition refresh_returns_new_token : Prop :=
  forall (s : State) (status latency : Z) (td : TokenData),
    isExpired s = true ->
    200 <= status < 300 ->
    fst (getValidAccessToken (HttpResponse status (DataObject td)) latency s)
    = Return (td_access_token td).

(** The record a successful refresh leaves in memory and on disk. *)
Definition refreshed (td : TokenData) (now : Z) (c : OAuthConfig) : OAuthConfig :=
  {| access_token := td_access_token td;
     refresh_token := if truthy (td_refresh_token td)
                      then td_refresh_token td else refresh_token c;
     token_type := token_type c;
     expires_at := plus now (times_1000 (td_expires_in td));
     client_id := client_id c;
     client_secret := client_secret c;
     reviewboard_url := reviewboard_url c |}.

(** A manager whose token expired a second ago, and two answers of the
    token endpoint: the one of the specification's scenario, and an
    object without any of the expected fields. *)
Definition expired_config : OAuthConfig :=
  {| access_token := Some "AT1"%string;
     refresh_token := Some "RT1"%string;
     token_type := Some "Bearer"%string;
     expires_at := Num (1700000000000 - 1000);
     client_id := "client";
     client_secret := "secret";
     reviewboard_url := "https://reviews.example.com" |}.

Definition expired_state : State :=
  {| self := {| config := expired_config; configPath := "/srv/oauth-config.json" |};
     env := {| clock := 1700000000000; disk := Stored expired_config;
               disk_writable := true; trace := [] |} |}.

(** The same manager an hour before its token expires. *)
Definition valid_state : State :=
  {| self := self expired_state;
     env := {| clock := 1700000000000 - 1000 - 3600000; disk := Stored expired_config;
               disk_writable := true; trace := [] |} |}.

Definition scenario_answer : HttpResult :=
  HttpResponse 200 (DataObject {| td_access_token := Some "AT2"%string;
                                  td_refresh_token := None;
                                  td_token_type := None;
                                  td_expires_in := Some 3600 |}).


(** The expired manager on a disk that refuses writes, and a manager
    whose record has lost its expiry. *)
Definition unwritable_state : State :=
  {| self := self expired_state;
     env := {| clock := 1700000000000; disk := Stored expired_config;
               disk_writable := false; trace := [] |} |}.

Definition nan_state : State :=
  {| self := {| config := set_expires_at NaN expired_config;
                configPath := "/srv/oauth-config.json" |};
     env := env expired_state |}.


(** The state in which a call that found the token expired is suspended. *)
Definition requested_state (s : State) : State :=
  {| self := self s;
     env := emit (refresh_request (config (self s)))
              (emit (Console Stderr "[OAuth] Refreshing access token...")
                 (emit (Console Stderr
                          "[OAuth] Access token expired or expiring soon, refreshing...")
                       (env s))) |}.

(** No call is suspended at a token request. *)
Definition all_settled (l : Loop) : Prop :=
  Forall (fun c => c <> Suspended) (calls l).

End TokenManager.

(** ** The authenticated client ([class ReviewBoardClient], [getClient]) *)

Module Gateway.

Import TokenManager.

Definition Headers := list (string * string).

(** [headers[k] = v] *)
Fixpoint set_header (k v : string) (h : Headers) : Headers :=
  match h with
  | [] => [(k, v)]
  | (k', v') :: rest =>
      if (k' =? k)%string then (k, v) :: rest else (k', v') :: set_header k v rest
  end.

Fixpoint header (k : string) (h : Headers) : option string :=
  match h with
  | [] => None
  | (k', v) :: rest => if (k' =? k)%string then Some v else header k rest
  end.

(** The part of an axios instance the constructor configures.
    [bearer_interceptor] tells whether the request interceptor of the
    OAuth2 branch was installed. *)
Record AxiosInstance := mkAxios {
  baseURL : string;
  headers : Headers;
  rejectUnauthorized : bool;
  bearer_interceptor : bool
}.

Record ReviewBoardClient := mkClient {
  client : AxiosInstance;
  baseUrl : string;
  tokenManager : option OAuth2TokenManager;
  apiToken : option string
}.

(** First constructor argument: [string | OAuth2TokenManager]. *)
Inductive UrlOrManager :=
| AString (s : string)
| AnObject (m : OAuth2TokenManager).

Definition setup_log (text : string) : M World unit :=
  modify (emit (Console Stderr text)).

(** [constructor(baseUrlOrTokenManager, apiToken?)] *)
Definition new_ReviewBoardClient (baseUrlOrTokenManager : UrlOrManager)
           (apiToken : Js.str) : M World ReviewBoardClient :=
  setup_log "[Setup] Initializing ReviewBoard client" ;;;
  c <- match baseUrlOrTokenManager, apiToken with
       | AString u, Some t =>
           if truthy_string t then
             (* API Token authentication *)
             let base := strip_trailing_slash u in
             setup_log "[Setup] ReviewBoard client initialized with API token" ;;;
             ret {| client := {| baseURL := base +++ "/api";
                                 headers := [("Accept", "application/json");
                                             ("Authorization", "token " +++ t)]%string;
                                 rejectUnauthorized := false;
                                 bearer_interceptor := false |};
                    baseUrl := base;
                    tokenManager := None;
                    apiToken := Some t |}
           else throw (new_Error "Invalid ReviewBoardClient constructor arguments")
       | AString u, None =>
           throw (new_Error "Invalid ReviewBoardClient constructor arguments")
       | AnObject m, _ =>
           (* OAuth2 authentication *)
           let base := strip_trailing_slash (reviewboard_url (config m)) in
           setup_log "[Setup] ReviewBoard client initialized with OAuth2" ;;;
           ret {| client := {| baseURL := base +++ "/api";
                               headers := [("Accept", "application/json")]%string;
                               rejectUnauthorized := false;
                               bearer_interceptor := true |};
                  baseUrl := base;
                  tokenManager := Some m;
                  apiToken := None |}
       end ;;
  setup_log "[Setup] ReviewBoard client initialized successfully" ;;;
  ret c.

(** The module-level singleton [rbClient] and the world. *)
Record Process := mkProcess {
  rbClient : option ReviewBoardClient;
  world : World
}.

Definition in_world {A} (m : M World A) : M Process A :=
  fun p =>
    let '(c, w) := m (world p) in
    (c, {| rbClient := rbClient p; world := w |}).

Definition set_rbClient (c : ReviewBoardClient) : M Process unit :=
  modify (fun p => {| rbClient := Some c; world := world p |}).

(** [getClient()].  [getenv] is [process.env]; [configPath] is what
    [path.join(__dirname, '..', 'oauth-config.json')] evaluates to. *)
Definition getClient (getenv : string -> Js.str) (configPath : string)
  : M Process ReviewBoardClient :=
  p <- get ;;
  match rbClient p with
  | Some c => ret c
  | None =>
      (* Check for API token authentication first *)
      let apiToken := getenv "REVIEWBOARD_TOKEN"%string in
      let baseUrl := getenv "REVIEWBOARD_URL"%string in
      c <- (if truthy apiToken && truthy baseUrl then
              in_world (setup_log "[Setup] Using API token authentication") ;;;
              in_world (new_ReviewBoardClient (AString (show baseUrl)) apiToken)
            else
              (* Fall back to OAuth2 authentication *)
              in_world (setup_log "[Setup] Using OAuth2 authentication") ;;;
              tokenManager <- in_world (new_OAuth2TokenManager configPath) ;;
              in_world (new_ReviewBoardClient (AnObject tokenManager) None)) ;;
      set_rbClient c ;;;
      ret c
  end.

Definition with_manager (m : OAuth2TokenManager) (c : ReviewBoardClient)
  : ReviewBoardClient :=
  {| client := client c; baseUrl := baseUrl c;
     tokenManager := Some m; apiToken := apiToken c |}.

(** The headers of one outgoing request of the client: the instance
    defaults, overridden by the call's own headers [extra], then the
    request interceptor when there is one.  The interceptor awaits
    [getValidAccessToken()]; [r] and [latency] say how a token request
    made there settles.  The state is the client object, which owns the
    manager, and the world. *)
Definition prepare_request (extra : Headers) (r : HttpResult) (latency : Z)
  : M (ReviewBoardClient * World) Headers :=
  fun '(c, w) =>
    let h := fold_left (fun h kv => set_header (fst kv) (snd kv) h) extra
                       (headers (client c)) in
    if bearer_interceptor (client c) then
      match tokenManager c with
      | Some m =>
          match getValidAccessToken r latency {| self := m; env := w |} with
          | (Return accessToken, s) =>
              (Return (set_header "Authorization" ("Bearer " +++ show accessToken) h),
               (with_manager (self s) c, env s))
          | (Throw e, s) =>
              (Throw e, (with_manager (self s) c, env s))
          end
      | None => (Return h, (c, w))
      end
    else (Return h, (c, w)).

(** The two forms of the [Authorization] header. *)
Definition is_token_form (v : string) : bool := String.prefix "token " v.
Definition is_bearer_form (v : string) : bool := String.prefix "Bearer " v.

(** Two environments: one with the static token and the URL, one with
    neither. *)
Definition token_env (k : string) : Js.str :=
  if (k =? "REVIEWBOARD_TOKEN")%string then Some "s3cr3t"%string
  else if (k =? "REVIEWBOARD_URL")%string then Some "https://reviews.example.com/"%string
  else None.

Definition oauth_env (k : string) : Js.str := None.

Definition fresh_process (d : FileState) : Process :=
  {| rbClient := None;
     world := {| clock := 1700000000000; disk := d; disk_writable := true; trace := [] |} |}.

(** The setup script has run: the credential file now holds [cfg]. *)
Definition with_file (cfg : OAuthConfig) (p : Process) : Process :=
  {| rbClient := rbClient p; world := store cfg (world p) |}.

(** A client of the OAuth2 kind: it has the interceptor and a manager. *)
Definition oauth_client (c : ReviewBoardClient) (m : OAuth2TokenManager) : Prop :=
  bearer_interceptor (client c) = true /\ tokenManager c = Some m.

Definition example_oauth_client : ReviewBoardClient :=
  {| client := {| baseURL := "https://reviews.example.com/api";
                  headers := [("Accept", "application/json")]%string;
                  rejectUnauthorized := false;
                  bearer_interceptor := true |};
     baseUrl := "https://reviews.example.com";
     tokenManager := Some (self expired_state);
     apiToken := None |}.

End Gateway.

(** ** The authorization flow ([oauth-setup.ts]) *)

Module Setup.

Definition nl : string := String (ascii_of_nat 10) EmptyString.

(** *** The callback listener ([startCallbackServer]) *)

(** A value of [parsedUrl.query]: missing, given once, or given several
    times (an array). *)
Inductive QueryValue :=
| QUndefined
| QString (s : string)
| QArray (l : list string).

(** A request, as [url.parse(req.url || '', true)] presents it: the path
    ([null] when the request target is empty) and the decoded query
    pairs in the order of the query string. *)
Record ParsedUrl := mkUrl {
  pathname : option string;
  query : list (string * string)
}.

Definition param (k : string) (u : ParsedUrl) : QueryValue :=
  match map snd (filter (fun kv => (fst kv =? k)%string) (query u)) with
  | [] => QUndefined
  | [v] => QString v
  | l => QArray l
  end.

Definition truthy_query (v : QueryValue) : bool :=
  match v with
  | QUndefined => false
  | QString s => truthy_string s
  | QArray _ => true
  end.

(** String coercion; an array is joined with commas. *)
Definition show_query (v : QueryValue) : string :=
  match v with
  | QUndefined => "undefined"
  | QString s => s
  | QArray l => String.concat "," l
  end.

Record Callback := mkCallback {
  code : QueryValue;
  state : QueryValue
}.

Inductive Promise :=
| Pending
| Resolved (v : Callback)
| Rejected (e : Error).

Inductive Status := Binding | Listening | Closed | Failed.

Record Server := mkServer {
  port : Js.num;
  status : Status;
  promise : Promise
}.

(** [resolve] and [reject] act on a pending promise only. *)
Definition settle (p : Promise) (sv : Server) : Server :=
  match promise sv with
  | Pending => {| port := port sv; status := status sv; promise := p |}
  | _ => sv
  end.

(** [res.writeHead(status, ...); res.end(body)] *)
Definition respond (st : Z) (body : string) (w : World) : World :=
  emit (Respond st body) w.

(** [server.close()] *)
Definition close (x : Server * World) : Server * World :=
  ({| port := port (fst x); status := Closed; promise := promise (fst x) |},
   emit CloseServer (snd x)).

Definition denied_page (error : QueryValue) : string :=
  "<html><body><h1>Authorization Failed</h1><p>Error: " +++ show_query error +++
  "</p></body></html>".

Definition success_page : string :=
  "<html><body><h1>Authorization Successful!</h1><p>You can close this window and return to the terminal.</p></body></html>".

Definition invalid_page : string :=
  "<html><body><h1>Invalid Request</h1><p>Missing code or state parameter.</p></body></html>".

(** The request listener given to [http.createServer]. *)
Definition handler (req : ParsedUrl) (x : Server * World) : Server * World :=
  let '(sv, w) := x in
  match pathname req with
  | Some path =>
      if (path =? "/callback")%string then
        let code := param "code" req in
        let state := param "state" req in
        let error := param "error" req in
        if truthy_query error then
          let '(sv, w) := close (sv, respond 400 (denied_page error) w) in
          (settle (Rejected (new_Error ("Authorization failed: " +++ show_query error))) sv, w)
        else if truthy_query code && truthy_query state then
          let '(sv, w) := close (sv, respond 200 success_page w) in
          (settle (Resolved {| code := code; state := state |}) sv, w)
        else
          let '(sv, w) := close (sv, respond 400 invalid_page w) in
          (settle (Rejected (new_Error "Missing code or state parameter")) sv, w)
      else (sv, w)
  | None => (sv, w)
  end.

(** [startCallbackServer(port)] up to the return of the promise: the
    server is created and asked to listen. *)
Definition startCallbackServer (port : Js.num) (w : World) : Server * World :=
  ({| port := port; status := Binding; promise := Pending |}, emit (Listen port) w).

(** What the server object can be told afterwards: the port is bound, the
    bind failed, or a request came in on a connection the server has
    accepted. *)
Inductive ServerEvent :=
| Bound
| BindError (e : Error)
| Incoming (req : ParsedUrl).

Definition listening_line (port : Js.num) : string :=
  nl +++ "[OAuth] Callback server listening on http://localhost:" +++
  show_num port +++ "/callback".

(** One server event.  A server that is binding, or failed to bind, has
    accepted no connection, so no request reaches its listener.
    [close()] only stops the server from accepting new connections: a
    request that arrives later on a connection accepted before still runs
    the listener, which answers it and calls [close()] once more. *)
Definition deliver (ev : ServerEvent) (x : Server * World) : Server * World :=
  let '(sv, w) := x in
  match ev, status sv with
  | Bound, Binding =>
      ({| port := port sv; status := Listening; promise := promise sv |},
       emit (Console Stdout (listening_line (port sv))) w)
  | BindError e, Binding =>
      (settle (Rejected e) {| port := port sv; status := Failed; promise := promise sv |}, w)
  | Incoming req, Listening => handler req (sv, w)
  | Incoming req, Closed => handler req (sv, w)
  | _, _ => (sv, w)
  end.


(** The events delivered while [main] is suspended at
    [await callbackPromise]: delivery goes on as long as the promise is
    pending.  The event that settles it is the last one before [main]
    resumes. *)
Fixpoint pump (evs : list ServerEvent) (x : Server * World) : Server * World :=
  match evs with
  | [] => x
  | ev :: rest =>
      match promise (fst x) with
      | Pending => pump rest (deliver ev x)
      | _ => x
      end
  end.

(** While the server is binding or listening nobody has settled the
    promise yet. *)
Definition unsettled_while_open (sv : Server) : Prop :=
  status sv = Binding \/ status sv = Listening -> promise sv = Pending.


(** *** The flow ([main]) *)

Definition hex_digit (n : nat) : ascii :=
  match n with
  | 0 => "0" | 1 => "1" | 2 => "2" | 3 => "3" | 4 => "4" | 5 => "5" | 6 => "6"
  | 7 => "7" | 8 => "8" | 9 => "9" | 10 => "a" | 11 => "b" | 12 => "c"
  | 13 => "d" | 14 => "e" | _ => "f"
  end%char%nat.

(** [crypto.randomBytes(32).toString('hex')], given the random bytes. *)
Fixpoint generateState (randomBytes : list ascii) : string :=
  match randomBytes with
  | [] => EmptyString
  | b :: rest =>
      let n := nat_of_ascii b in
      String (hex_digit (Nat.div n 16))
             (String (hex_digit (Nat.modulo n 16)) (generateState rest))
  end.

(** [main]'s constants once the configuration is read. *)
Record Flow := mkFlow {
  reviewboardUrl : string;
  clientId : string;
  clientSecret : string;
  callbackPort : Js.num;
  redirectUri : string;
  session_state : string
}.

Inductive Outcome :=
| Exited (code : Z)               (* process.exit(code) *)
| Crashed (e : Error)             (* exception that escapes main *)
| Completed                       (* main ran to its end *)
| Waiting.                        (* still suspended on the callback *)

Inductive Stage (A : Type) :=
| Stopped (o : Outcome)
| Await (a : A).
Arguments Stopped {A} o.
Arguments Await {A} a.

Definition out (text : string) (w : World) : World := emit (Console Stdout text) w.
Definition err (text : string) (w : World) : World := emit (Console Stderr text) w.

Definition missing_configuration (callbackPort : Js.num) (w : World) : World :=
  fold_left (fun w line => err line w)
    [ "[Error] Missing required environment variables:";
      "  - REVIEWBOARD_URL: Your ReviewBoard server URL";
      "  - REVIEWBOARD_CLIENT_ID: OAuth2 client ID";
      "  - REVIEWBOARD_CLIENT_SECRET: OAuth2 client secret";
      nl +++ "Optional:";
      "  - OAUTH_CALLBACK_PORT: Port for OAuth callback (default: 3000)";
      nl +++ "To create an OAuth2 application in ReviewBoard:";
      "  1. Log in to ReviewBoard as an administrator";
      "  2. Go to Admin > Integrations > OAuth2 Applications";
      "  3. Create a new application with:";
      "     - Redirect URI: http://localhost:" +++ show_num callbackPort +++ "/callback";
      "     - Client type: Confidential";
      "     - Authorization grant type: Authorization code" ]%string
    w.

(** The [catch] of [main]. *)
Definition setup_failed (error : Error) (w : World) : Outcome * World :=
  (Exited 1,
   emit (Exit 1)
        (emit (ConsoleDetail Stderr (nl +++ "[Error] OAuth setup failed:")
                             (Message (message error))) w)).

Definition state_mismatch_message : string := "State mismatch - possible CSRF attack".

Definition exchange_request (f : Flow) (code : QueryValue) : Event :=
  HttpPost (reviewboardUrl f +++ "/oauth2/token/")
           [("grant_type", "authorization_code");
            ("code", show_query code);
            ("redirect_uri", redirectUri f);
            ("client_id", clientId f);
            ("client_secret", clientSecret f)]%string.

(** [exchangeCodeForToken(...)] up to its [await axios.post(...)] *)
Definition exchangeCodeForToken_begin (f : Flow) (code : QueryValue) (w : World) : World :=
  emit (exchange_request f code)
       (out "[OAuth] Exchanging authorization code for access token..." w).

(** [exchangeCodeForToken(...)] once the request settled with [r] *)
Definition exchangeCodeForToken_resume (r : HttpResult) : M World ResponseData :=
  try_catch
    (data <- (fun w => (axios_settle r, w)) ;;
     modify (out "[OAuth] Successfully obtained access token") ;;;
     ret data)
    (fun error =>
       modify (emit (ConsoleDetail Stderr "[Error] Failed to exchange code for token:"
                                   (error_detail error))) ;;;
       throw (new_Error ("Failed to exchange code for token: " +++ message error))).

(** [saveConfig(config)] *)
Definition saveConfig (path : string) (config : OAuthConfig) : M World unit :=
  modify (out ("[OAuth] Saving configuration to " +++ path)) ;;;
  (fun w =>
     if disk_writable w
     then (Return tt, store config (emit (FileWrite path config) w))
     else (Throw (new_Error ("EACCES: permission denied, open '" +++ path +++ "'")), w)) ;;;
  modify (out "[OAuth] Configuration saved successfully").

Section Platform.

(** Functions of the platform the flow calls.  [parseInt] is the
    global of that name.  [URL_with_params s ps] is the text of
    [new URL(s)] after [searchParams.set] of the pairs [ps], or [None]
    when the constructor throws because [s] is not a URL.
    [CONFIG_FILE] is the constant of that name. *)
Variable parseInt : string -> Js.num.
Variable URL_with_params : string -> list (string * string) -> option string.
Variable CONFIG_FILE : string.

(** [main] from its start to the [await] of the callback promise. *)
Definition main_begin (getenv : string -> Js.str) (randomBytes : list ascii)
           (w : World) : Stage (Flow * Server) * World :=
  let w := out ("=== ReviewBoard OAuth2 Setup ===" +++ nl) w in
  let reviewboardUrl := getenv "REVIEWBOARD_URL"%string in
  let clientId := getenv "REVIEWBOARD_CLIENT_ID"%string in
  let clientSecret := getenv "REVIEWBOARD_CLIENT_SECRET"%string in
  let callbackPort :=
    parseInt (show (or_else (getenv "OAUTH_CALLBACK_PORT"%string) (Some "3000"%string))) in
  if negb (truthy reviewboardUrl) || negb (truthy clientId) || negb (truthy clientSecret)
  then
    (Stopped (Exited 1), emit (Exit 1) (missing_configuration callbackPort w))
  else
    let redirectUri := ("http://localhost:" +++ show_num callbackPort +++ "/callback")%string in
    let state := generateState randomBytes in
    (* Build authorization URL *)
    match URL_with_params (show reviewboardUrl +++ "/oauth2/authorize/")
            [("client_id", show clientId);
             ("redirect_uri", redirectUri);
             ("response_type", "code");
             ("state", state);
             ("scope", "read write")]%string
    with
    | None => (Stopped (Crashed (new_Error "Invalid URL")), w)
    | Some authUrl =>
        let w := out (nl +++ "[OAuth] Please authorize the application by visiting this URL:" +++ nl) w in
        let w := out authUrl w in
        let w := out (nl +++ "[OAuth] Waiting for authorization..." +++ nl) w in
        (* Start callback server and wait for authorization *)
        let '(server, w) := startCallbackServer callbackPort w in
        (Await ({| reviewboardUrl := show reviewboardUrl;
                   clientId := show clientId;
                   clientSecret := show clientSecret;
                   callbackPort := callbackPort;
                   redirectUri := redirectUri;
                   session_state := state |}, server), w)
    end.

(** [returnedState] is a query value; [state !== returnedState] holds
    unless it is the very string that was generated. *)
Definition state_differs (state : string) (returnedState : QueryValue) : bool :=
  match returnedState with
  | QString s => negb (state =? s)%string
  | _ => true
  end.

(** [main] from the settled callback promise to the [await] of the
    token exchange. *)
Definition main_callback (f : Flow) (p : Promise) (w : World)
  : Stage QueryValue * World :=
  match p with
  | Pending => (Stopped Waiting, w)
  | Rejected e =>
      let '(o, w) := setup_failed e w in (Stopped o, w)
  | Resolved cb =>
      (* Verify state to prevent CSRF *)
      if state_differs (session_state f) (state cb) then
        let '(o, w) := setup_failed (new_Error state_mismatch_message) w in
        (Stopped o, w)
      else
        let w := out "[OAuth] Authorization code received" w in
        (Await (code cb), exchangeCodeForToken_begin f (code cb) w)
  end.

(** [main] from the settled token request to its end. *)
Definition main_exchange (f : Flow) (r : HttpResult) (w : World) : Outcome * World :=
  let body :=
    data <- exchangeCodeForToken_resume r ;;
    tokenData <- read_data data ;;
    (* Calculate token expiration time *)
    w <- get ;;
    let expiresAt := plus (clock w) (times_1000 (td_expires_in tokenData)) in
    saveConfig CONFIG_FILE
      {| access_token := td_access_token tokenData;
         refresh_token := td_refresh_token tokenData;
         token_type := td_token_type tokenData;
         expires_at := expiresAt;
         client_id := clientId f;
         client_secret := clientSecret f;
         reviewboard_url := reviewboardUrl f |} ;;;
    modify (out (nl +++ "✓ OAuth2 setup completed successfully!")) ;;;
    modify (out (nl +++ "You can now use the ReviewBoard MCP server with OAuth2 authentication.")) ;;;
    modify (out "The server will automatically refresh the access token when needed.")
  in
  match body w with
  | (Return _, w) => (Completed, w)
  | (Throw e, w) => setup_failed e w
  end.

(** The whole flow against an environment that sends the server
    events [evs] while the flow awaits the callback, and settles the
    token request, [latency] milliseconds after it was made, with [r]. *)
Definition main (getenv : string -> Js.str) (randomBytes : list ascii)
           (evs : list ServerEvent) (r : HttpResult) (latency : Z)
           (w : World) : Outcome * World :=
  match main_begin getenv randomBytes w with
  | (Stopped o, w) => (o, w)
  | (Await (f, server), w) =>
      let '(server, w) := pump evs (server, w) in
      match main_callback f (promise server) w with
      | (Stopped o, w) => (o, w)
      | (Await _, w) => main_exchange f r (elapse latency w)
      end
  end.

End Platform.

(** The first event of a trace that satisfies [a] is followed, later, by
    one that satisfies [b]. *)
Fixpoint occurs_before (a b : Event -> bool) (t : list Event) : bool :=
  match t with
  | [] => false
  | e :: rest => if a e then existsb b rest else occurs_before a b rest
  end.

Definition is_listen (e : Event) : bool :=
  match e with Listen _ => true | _ => false end.

Definition is_print_of (text : string) (e : Event) : bool :=
  match e with Console Stdout t => (t =? text)%string | _ => false end.

(** A setup run: stand-ins for the platform functions ([parseInt] of the
    default port, a URL printer that does not percent-encode), the three
    required variables, thirty-two random bytes, and two callbacks, one
    with the generated state and one with another. *)
Definition parseInt_3000 (s : string) : Js.num := Num 3000.

Definition plain_URL (s : string) (ps : list (string * string)) : option string :=
  Some (s +++ "?" +++ String.concat "&" (map (fun kv => fst kv +++ "=" +++ snd kv) ps)).

Definition setup_env (k : string) : Js.str :=
  if (k =? "REVIEWBOARD_URL")%string then Some "https://reviews.example.com"%string
  else if (k =? "REVIEWBOARD_CLIENT_ID")%string then Some "client"%string
  else if (k =? "REVIEWBOARD_CLIENT_SECRET")%string then Some "secret"%string
  else None.

Definition setup_bytes : list ascii := repeat "Z"%char 32.

Definition setup_world : World :=
  {| clock := 1700000000000; disk := Absent; disk_writable := true; trace := [] |}.

Definition honest_callback : ParsedUrl :=
  {| pathname := Some "/callback"%string;
     query := [("code", "c0de"); ("state", generateState setup_bytes)]%string |}.

Definition forged_callback : ParsedUrl :=
  {| pathname := Some "/callback"%string;
     query := [("code", "c0de"); ("state", "forged")]%string |}.

Definition favicon_request : ParsedUrl :=
  {| pathname := Some "/favicon.ico"%string; query := [] |}.

Definition setup_url : string :=
  match plain_URL "https://reviews.example.com/oauth2/authorize/"
          [("client_id", "client");
           ("redirect_uri", "http://localhost:3000/callback");
           ("response_type", "code");
           ("state", generateState setup_bytes);
           ("scope", "read write")]%string
  with
  | Some u => u
  | None => EmptyString
  end.

(** The value of a lower-case hexadecimal digit, and the bytes a state
    string was made from. *)
Definition hex_value (c : ascii) : nat :=
  match c with
  | "0" => 0 | "1" => 1 | "2" => 2 | "3" => 3 | "4" => 4 | "5" => 5 | "6" => 6
  | "7" => 7 | "8" => 8 | "9" => 9 | "a" => 10 | "b" => 11 | "c" => 12
  | "d" => 13 | "e" => 14 | "f" => 15 | _ => 0
  end%char%nat.

Definition is_hex (c : ascii) : bool :=
  existsb (Ascii.eqb c)
          ["0"; "1"; "2"; "3"; "4"; "5"; "6"; "7"; "8"; "9";
           "a"; "b"; "c"; "d"; "e"; "f"]%char.

Fixpoint all_hex (s : string) : bool :=
  match s with
  | EmptyString => true
  | String c rest => is_hex c && all_hex rest
  end.

Fixpoint bytes_of_state (s : string) : list ascii :=
  match s with
  | String a (String b rest) =>
      ascii_of_nat (16 * hex_value a + hex_value b) :: bytes_of_state rest
  | _ => []
  end.

Definition is_console (e : Event) : bool :=
  match e with
  | Console _ _ => true
  | ConsoleDetail _ _ _ => true
  | _ => false
  end.

(** A server event that cannot settle the promise: the bind succeeding, or
    a request for a path other than [/callback]. *)
Definition is_quiet (ev : ServerEvent) : bool :=
  match ev with
  | Bound => true
  | BindError _ => false
  | Incoming req =>
      match pathname req with
      | Some path => negb (path =? "/callback")%string
      | None => true
      end
  end.

(** The three variables the flow cannot do without. *)
Definition configured (getenv : string -> Js.str) : bool :=
  truthy (getenv "REVIEWBOARD_URL"%string)
  && truthy (getenv "REVIEWBOARD_CLIENT_ID"%string)
  && truthy (getenv "REVIEWBOARD_CLIENT_SECRET"%string).

(** The record the flow assembles from the token answer [td] at time
    [now]. *)
Definition record_of (f : Flow) (td : TokenData) (now : Z) : OAuthConfig :=
  {| access_token := td_access_token td;
     refresh_token := td_refresh_token td;
     token_type := td_token_type td;
     expires_at := plus now (times_1000 (td_expires_in td));
     client_id := clientId f;
     client_secret := clientSecret f;
     reviewboard_url := reviewboardUrl f |}.

Definition full_answer : HttpResult :=
  HttpResponse 200 (DataObject {| td_access_token := Some "AT1"%string;
                                  td_refresh_token := Some "RT1"%string;
                                  td_token_type := Some "Bearer"%string;
                                  td_expires_in := Some 3600 |}).

Definition denied_callback : ParsedUrl :=
  {| pathname := Some "/callback"%string;
     query := [("error", "access_denied");
               ("code", "c0de");
               ("state", generateState setup_bytes)]%string |}.

Definition setup_flow : Flow :=
  {| reviewboardUrl := "https://reviews.example.com";
     clientId := "client";
     clientSecret := "secret";
     callbackPort := Num 3000;
     redirectUri := "http://localhost:3000/callback";
     session_state := generateState setup_bytes |}.

Definition setup_server : Server :=
  {| port := Num 3000; status := Binding; promise := Pending |}.

End Setup.

(** ** The instance registry of the Jira server ([class JiraClient]) *)

Module Jira.

(** A JavaScript [Map] with string keys: the entries in insertion order,
    every key once. *)
Section JsMap.

Context {V : Type}.

Definition JsMap := list (string * V).

Fixpoint map_get (k : string) (m : JsMap) : option V :=
  match m with
  | [] => None
  | (k', v) :: rest => if (k' =? k)%string then Some v else map_get k rest
  end.

Definition map_has (k : string) (m : JsMap) : bool :=
  match map_get k m with
  | Some _ => true
  | None => false
  end.

(** [m.set(k, v)]: a known key keeps its place and takes the new value,
    a new key goes last. *)
Fixpoint map_set (k : string) (v : V) (m : JsMap) : JsMap :=
  match m with
  | [] => [(k, v)]
  | (k', v') :: rest =>
      if (k' =? k)%string then (k, v) :: rest else (k', v') :: map_set k v rest
  end.

(** [Array.from(m.keys())] *)
Definition map_keys (m : JsMap) : list string := map fst m.

End JsMap.
Arguments JsMap V : clear implicits.

(** [Set.add] on a set of strings kept in insertion order. *)
Definition set_add (x : string) (s : list string) : list string :=
  if existsb (String.eqb x) s then s else s ++ [x].

(** A stand-in for [String.prototype.toLowerCase], for the examples: the
    letters [A] to [Z] are lowered and every other character is kept.  On
    a string of ASCII characters that is what the real function does; on
    other strings it is not (the real one follows Unicode). *)
Definition lower (c : ascii) : ascii :=
  let n := nat_of_ascii c in
  if (Nat.leb 65 n && Nat.leb n 90)%bool then ascii_of_nat (n + 32) else c.

Fixpoint toLowerCase_ascii (s : string) : string :=
  match s with
  | EmptyString => EmptyString
  | String c rest => String (lower c) (toLowerCase_ascii rest)
  end.

(** [s.includes(t)] *)
Definition includes (t s : string) : bool :=
  match String.index 0 t s with
  | Some _ => true
  | None => false
  end.

Definition is_line_terminator (c : ascii) : bool :=
  (Ascii.eqb c (ascii_of_nat 10) || Ascii.eqb c (ascii_of_nat 13))%bool.

Fixpoint single_line (s : string) : bool :=
  match s with
  | EmptyString => true
  | String c rest => negb (is_line_terminator c) && single_line rest
  end.

(** [s.replace(/\/jira.*$/, '')]: cut at the first [/jira] that is
    followed by no line break up to the end. *)
Fixpoint cut_jira (s : string) : string :=
  match s with
  | EmptyString => EmptyString
  | String c rest =>
      if String.prefix "/jira" s && single_line s then EmptyString
      else String c (cut_jira rest)
  end.

Definition strip_prefix (p s : string) : option string :=
  if String.prefix p s
  then Some (String.substring (String.length p) (String.length s - String.length p) s)
  else None.

Definition strip_suffix (x s : string) : option string :=
  let n := (String.length s - String.length x)%nat in
  if (Nat.leb (String.length x) (String.length s)
      && (String.substring n (String.length x) s =? x)%string)%bool
  then Some (String.substring 0 n s)
  else None.

(** [key.match(/^JIRA_INSTANCE_(.+)_(URL|EMAIL|TOKEN)$/)]: the first
    group when the key matches.  The three endings exclude one another,
    so the greedy group is the text between prefix and ending. *)
Definition match_instance_key (key : string) : option string :=
  match strip_prefix "JIRA_INSTANCE_" key with
  | None => None
  | Some rest =>
      let name :=
        match strip_suffix "_URL" rest with
        | Some n => Some n
        | None =>
            match strip_suffix "_EMAIL" rest with
            | Some n => Some n
            | None => strip_suffix "_TOKEN" rest
            end
        end in
      match name with
      | Some n => if negb (n =? "")%string && single_line n then Some n else None
      | None => None
      end
  end.

Record InstanceConfig := mkInstance {
  url : string;
  email : string;
  token : string
}.

Record AxiosInstance := mkAxios {
  baseURL : string;
  headers : list (string * string);
  auth_username : string;
  auth_password : string
}.

Record JiraClient := mkJira {
  clients : JsMap AxiosInstance;
  instances : JsMap InstanceConfig
}.

(** The object and the lines written with [console.error]. *)
Definition State := (JiraClient * list string)%type.

Definition log (line : string) : M State unit :=
  modify (fun '(j, out) => (j, out ++ [line])).

(** [process.env] as its entries in key order. *)
Definition Env := list (string * string).

Definition getenv (env : Env) (k : string) : Js.str := map_get k env.

Definition instance_names (env : Env) : list string :=
  fold_left (fun names key =>
               match match_instance_key key with
               | Some name => set_add name names
               | None => names
               end)
            (map fst env) [].

Section Platform.

(** [toLowerCase s] is [s.toLowerCase()].  A string is kept as the bytes
    of its UTF-8 text, and the lower-casing of the platform follows
    Unicode (the Kelvin sign U+212A becomes [k]), so the function stays a
    parameter. *)
Variable toLowerCase : string -> string.

Definition register (env : Env) (name : string) : M State unit :=
  let url := getenv env ("JIRA_INSTANCE_" +++ name +++ "_URL") in
  let email := getenv env ("JIRA_INSTANCE_" +++ name +++ "_EMAIL") in
  let token := getenv env ("JIRA_INSTANCE_" +++ name +++ "_TOKEN") in
  if truthy url && truthy email && truthy token then
    modify (fun '(j, out) =>
              ({| clients := clients j;
                  instances := map_set (toLowerCase name)
                                       {| url := show url; email := show email;
                                          token := show token |}
                                       (instances j) |}, out)) ;;;
    log ("[Setup] Registered Jira instance: " +++ toLowerCase name +++
         " (" +++ show url +++ ")")
  else ret tt.

Definition show_nat (n : nat) : string := show_Z (Z.of_nat n).

(** [constructor()] *)
Definition new_JiraClient (env : Env) : State :=
  let body :=
    log "[Setup] Initializing Jira client manager" ;;;
    fold_left (fun m name => m ;;; register env name) (instance_names env) (ret tt) ;;;
    s <- get ;;
    (if Nat.eqb (List.length (instances (fst s))) 0
     then log "[Warning] No Jira instances configured. Set JIRA_INSTANCE_<NAME>_URL, JIRA_INSTANCE_<NAME>_EMAIL, and JIRA_INSTANCE_<NAME>_TOKEN environment variables."
     else ret tt) ;;;
    log ("[Setup] Jira client manager initialized with " +++
         show_nat (List.length (instances (fst s))) +++ " instance(s)")
  in
  snd (body ({| clients := []; instances := [] |}, [])).

Definition unknown_instance_message (instance : string) (names : list string) : string :=
  "Unknown Jira instance: " +++ instance +++ ". Available instances: " +++
  String.concat ", " names.

(** [getClient(instance)] *)
Definition getClient (instance : string) : M State AxiosInstance :=
  let instanceKey := toLowerCase instance in
  s <- get ;;
  if negb (map_has instanceKey (instances (fst s))) then
    throw (new_Error (unknown_instance_message instance (map_keys (instances (fst s)))))
  else
    (if negb (map_has instanceKey (clients (fst s))) then
       match map_get instanceKey (instances (fst s)) with
       | Some config =>
           let baseUrl := strip_trailing_slash (url config) in
           (* Handle Atlassian Cloud URLs that include /jira path *)
           let baseUrl :=
             if includes "atlassian.net" baseUrl then cut_jira baseUrl else baseUrl in
           (* v3 for Atlassian Cloud, v2 for self-hosted *)
           let apiVersion := (if includes "atlassian.net" baseUrl then "3" else "2")%string in
           modify (fun '(j, out) =>
                     ({| clients :=
                           map_set instanceKey
                             {| baseURL := baseUrl +++ "/rest/api/" +++ apiVersion;
                                headers := [("Accept", "application/json");
                                            ("Content-Type", "application/json")]%string;
                                auth_username := email config;
                                auth_password := token config |}
                             (clients j);
                         instances := instances j |}, out)) ;;;
           log ("[Setup] Created client for instance: " +++ instanceKey +++ " at " +++
                baseUrl +++ "/rest/api/" +++ apiVersion)
       | None => throw (new_Error "Cannot read properties of undefined (reading 'url')")
       end
     else ret tt) ;;;
    s <- get ;;
    match map_get instanceKey (clients (fst s)) with
    | Some c => ret c
    | None => throw (new_Error "client missing")
    end.

(** The registrations of the constructor's second loop, one after the
    other. *)
Definition register_all (env : Env) (names : list string) (s : State) : State :=
  fold_left (fun s name => snd (register env name s)) names s.

End Platform.

(** The environment of the two-instance deployment of the README. *)
Definition two_instances : Env :=
  [ ("JIRA_INSTANCE_AMD_URL", "https://amd.atlassian.net/jira");
    ("JIRA_INSTANCE_AMD_EMAIL", "me@amd.com");
    ("JIRA_INSTANCE_AMD_TOKEN", "t1");
    ("JIRA_INSTANCE_ONTRACK_URL", "https://ontrack-internal.amd.com");
    ("JIRA_INSTANCE_ONTRACK_EMAIL", "me@amd.com");
    ("JIRA_INSTANCE_ONTRACK_TOKEN", "t2") ]%string.

(** An environment that sets one instance twice, in two spellings, and
    another one only in part. *)
Definition mixed_case_instances : Env :=
  [ ("JIRA_INSTANCE_Amd_URL", "https://one.example.com");
    ("JIRA_INSTANCE_Amd_EMAIL", "one@example.com");
    ("JIRA_INSTANCE_Amd_TOKEN", "t1");
    ("JIRA_INSTANCE_AMD_URL", "https://two.example.com");
    ("JIRA_INSTANCE_AMD_EMAIL", "two@example.com");
    ("JIRA_INSTANCE_AMD_TOKEN", "t2");
    ("JIRA_INSTANCE_HALF_URL", "https://half.example.com");
    ("JIRA_INSTANCE_HALF_TOKEN", "t3") ]%string.

End Jira.

(** ** The tools of the Jira server ([getIssue], [searchIssues],
    [createIssue], the module-level [getClient], the tool handler) *)

Module JiraTools.

Import Jira.

Definition nl : string := String (ascii_of_nat 10) EmptyString.

(** The [fields] parameter of [getIssue]. *)
Definition issue_fields : string :=
  "summary,description,status,assignee,reporter,created,updated,priority,issuetype,labels,comment".

Definition search_fields : list string :=
  ["summary"; "status"; "assignee"; "reporter"; "created"; "updated"; "priority";
   "issuetype"]%string.

(** The [description] of a new issue: Atlassian Document Format with one
    paragraph of text, or the plain text. *)
Inductive Description :=
| Adf (text : Js.str)
| Plain (text : Js.str).

(** The body of the request that creates an issue. *)
Record IssueData := mkIssueData {
  project_key : Js.str;
  summary : Js.str;
  description : Description;
  issuetype_name : string;
  priority_name : option string;
  labels : option (list string)
}.

(** The requests the clients send, with the [baseURL] of the client. *)
Inductive Sent :=
| SentGetIssue (base : string) (path : string) (fields : string)
| SentSearch (base : string) (jql : Js.str) (maxResults : Z) (fields : list string)
| SentCreate (base : string) (body : IssueData).

(** A [JiraClient] at work: the object, the console, the requests sent. *)
Record Run := mkRun {
  this : JiraClient;
  console : list string;
  sent : list Sent
}.

Definition say (line : string) (s : Run) : Run :=
  {| this := this s; console := console s ++ [line]; sent := sent s |}.

Definition send (r : Sent) (s : Run) : Run :=
  {| this := this s; console := console s; sent := sent s ++ [r] |}.

(** The arguments of a tool call, every one of them possibly missing. *)
Record Args := mkArgs {
  a_instance : Js.str;
  a_issue_key : Js.str;
  a_jql : Js.str;
  a_max_results : option Z;
  a_project : Js.str;
  a_summary : Js.str;
  a_description : Js.str;
  a_issue_type : Js.str;
  a_priority : Js.str;
  a_labels : option (list string)
}.

(** What the handler returns: the text, and the [isError] flag. *)
Record ToolResult := mkResult {
  text : string;
  isError : bool
}.

(** The process: the singleton [jiraClient], the console, the requests. *)
Record Tools := mkTools {
  jiraClient : option JiraClient;
  tool_console : list string;
  tool_sent : list Sent
}.

Section Bodies.

(** [String.prototype.toLowerCase], as in the registry. *)
Variable toLowerCase : string -> string.

(** JSON values stay abstract.  [stringify v] is [JSON.stringify(v)],
    [stringify_pretty v] is [JSON.stringify(v, null, 2)], [json_truthy]
    the truth value of a body; [issues_length v] is [v.issues.length] and
    [issue_key v] is [v.key], [None] when the read throws a [TypeError]. *)
Variable Json : Type.
Variable stringify : Json -> string.
Variable stringify_pretty : Json -> string.
Variable json_truthy : Json -> bool.
Variable issues_length : Json -> option nat.
Variable issue_key : Json -> option Js.str.

(** What the transport reports for one request of a Jira client. *)
Inductive Reply :=
| Unreachable (msg : string)
| Replied (status : Z) (body : Json).

(** What a [catch] receives: the message, and [error.response.data] when
    the error came from a response. *)
Record Caught := mkCaught {
  caught_message : string;
  caught_data : option Json
}.

Definition plain (msg : string) : Caught :=
  {| caught_message := msg; caught_data := None |}.

Definition axios_reply (r : Reply) : Caught + Json :=
  match r with
  | Unreachable msg => inl (plain msg)
  | Replied status body =>
      if (200 <=? status) && (status <? 300) then inr body
      else inl {| caught_message := "Request failed with status code " +++ show_Z status;
                  caught_data := Some body |}
  end.

(** [error.response?.data], when it is truthy. *)
Definition details (c : Caught) : option Json :=
  match caught_data c with
  | Some d => if json_truthy d then Some d else None
  | None => None
  end.

(** [error.response?.data ? JSON.stringify(data, null, 2) : error.message] *)
Definition errorDetails (c : Caught) : string :=
  match details c with
  | Some d => stringify_pretty d
  | None => caught_message c
  end.

(** [`${error.message}${data ? '\nDetails: ' + JSON.stringify(data) : ''}`] *)
Definition message_with_details (c : Caught) : string :=
  caught_message c +++
  match details c with
  | Some d => nl +++ "Details: " +++ stringify d
  | None => EmptyString
  end.

Definition undefined_toLowerCase : string :=
  "Cannot read properties of undefined (reading 'toLowerCase')".

Definition undefined_property : string :=
  "Cannot read properties of undefined".

(** [this.getClient(instance)] inside a [try]. *)
Definition this_getClient (instance : Js.str) (s : Run) : (Caught + Jira.AxiosInstance) * Run :=
  match instance with
  | None => (inl (plain undefined_toLowerCase), s)
  | Some i =>
      match Jira.getClient toLowerCase i (this s, console s) with
      | (Return c, (j, out)) => (inr c, {| this := j; console := out; sent := sent s |})
      | (Throw e, (j, out)) =>
          (inl (plain (message e)), {| this := j; console := out; sent := sent s |})
      end
  end.

(** [getIssue(instance, issueKey)], the request answered by [reply]. *)
Definition getIssue (instance issueKey : Js.str) (reply : Reply) (s : Run)
  : Completion Json * Run :=
  let s := say ("[API] Fetching issue " +++ show issueKey +++ " from " +++ show instance) s in
  let attempt : (Caught + Json) * Run :=
    match this_getClient instance s with
    | (inl c, s) => (inl c, s)
    | (inr client, s) =>
        let s := send (SentGetIssue (baseURL client) ("/issue/" +++ show issueKey)
                                    issue_fields) s in
        match axios_reply reply with
        | inl c => (inl c, s)
        | inr data =>
            (inr data, say ("[API] Successfully fetched issue " +++ show issueKey) s)
        end
    end in
  match attempt with
  | (inr data, s) => (Return data, s)
  | (inl error, s) =>
      let s := say ("[Error] Failed to fetch issue " +++ show issueKey +++ ": " +++
                    errorDetails error) s in
      (Throw (new_Error ("Failed to fetch issue " +++ show issueKey +++ ": " +++
                         message_with_details error)), s)
  end.

(** [searchIssues(instance, jql, maxResults = 50)] *)
Definition searchIssues (instance jql : Js.str) (maxResults : option Z) (reply : Reply)
           (s : Run) : Completion Json * Run :=
  let maxResults := match maxResults with Some n => n | None => 50 end in
  let s := say ("[API] Searching issues on " +++ show instance +++ " with JQL: " +++
                show jql) s in
  let attempt : (Caught + Json) * Run :=
    match this_getClient instance s with
    | (inl c, s) => (inl c, s)
    | (inr client, s) =>
        let s := send (SentSearch (baseURL client) jql maxResults search_fields) s in
        match axios_reply reply with
        | inl c => (inl c, s)
        | inr data =>
            match issues_length data with
            | Some n =>
                (inr data, say ("[API] Search returned " +++ show_nat n +++ " issues") s)
            | None => (inl (plain undefined_property), s)
            end
        end
    end in
  match attempt with
  | (inr data, s) => (Return data, s)
  | (inl error, s) =>
      let s := say ("[Error] Failed to search issues: " +++ errorDetails error) s in
      (Throw (new_Error ("Failed to search issues: " +++ message_with_details error)), s)
  end.

(** [createIssue(instance, project, summary, description, issueType = "Task",
    priority?, labels?)]; [created] answers the request that creates the
    issue, [fetched] the one that reads it back. *)
Definition createIssue (instance project summary description issueType priority : Js.str)
           (labels : option (list string)) (created fetched : Reply) (s : Run)
  : Completion Json * Run :=
  let issueType := match issueType with Some t => t | None => "Task"%string end in
  let s := say ("[API] Creating issue in project " +++ show project +++ " on " +++
                show instance) s in
  let attempt : (Caught + Json) * Run :=
    match this_getClient instance s with
    | (inl c, s) => (inl c, s)
    | (inr client, s) =>
        match map_get (toLowerCase (show instance)) (instances (this s)) with
        | None => (inl (plain undefined_property), s)
        | Some config =>
            let isAtlassianCloud := includes "atlassian.net" (url config) in
            let descriptionField :=
              if isAtlassianCloud then Adf description else Plain description in
            let issueData :=
              {| project_key := project;
                 summary := summary;
                 description := descriptionField;
                 issuetype_name := issueType;
                 priority_name := if truthy priority then priority else None;
                 labels := match labels with
                           | Some (l :: ls) => Some (l :: ls)
                           | _ => None
                           end |} in
            let s := send (SentCreate (baseURL client) issueData) s in
            match axios_reply created with
            | inl c => (inl c, s)
            | inr data =>
                match issue_key data with
                | None => (inl (plain undefined_property), s)
                | Some key =>
                    let s := say ("[API] Successfully created issue " +++ show key) s in
                    (* Fetch the full issue details to return *)
                    match getIssue instance key fetched s with
                    | (Return issue, s) => (inr issue, s)
                    | (Throw e, s) => (inl (plain (message e)), s)
                    end
                end
            end
        end
    end in
  match attempt with
  | (inr data, s) => (Return data, s)
  | (inl error, s) =>
      let s := say ("[Error] Failed to create issue: " +++ errorDetails error) s in
      (Throw (new_Error ("Failed to create issue: " +++ message_with_details error)), s)
  end.

(** The module-level [getClient()]: the [JiraClient] is made from the
    environment at the first call and kept. *)
Definition getClient (env : Env) (t : Tools) : JiraClient * Tools :=
  match jiraClient t with
  | Some j => (j, t)
  | None =>
      let '(j, lines) := new_JiraClient toLowerCase env in
      (j, {| jiraClient := Some j;
             tool_console := tool_console t ++ lines;
             tool_sent := tool_sent t |})
  end.

Definition ok (v : Json) : ToolResult :=
  {| text := stringify_pretty v; isError := false |}.

(** The handler of [CallToolRequestSchema].  [arguments] is
    [request.params.arguments], which may be missing altogether. *)
Definition call_tool (env : Env) (name : string) (arguments : option Args)
           (first second : Reply) (t : Tools) : ToolResult * Tools :=
  let t := {| jiraClient := jiraClient t;
              tool_console := tool_console t ++ ["[Handler] Executing tool: " +++ name];
              tool_sent := tool_sent t |} in
  let '(client, t) := getClient env t in
  let s := {| this := client; console := tool_console t; sent := tool_sent t |} in
  let back (s : Run) : Tools :=
    {| jiraClient := Some (this s); tool_console := console s; tool_sent := sent s |} in
  let outcome : Completion Json * Run :=
    if (name =? "get_issue")%string then
      match arguments with
      | None => (Throw (new_Error undefined_property), s)
      | Some args => getIssue (a_instance args) (a_issue_key args) first s
      end
    else if (name =? "search_issues")%string then
      match arguments with
      | None => (Throw (new_Error undefined_property), s)
      | Some args => searchIssues (a_instance args) (a_jql args) (a_max_results args) first s
      end
    else if (name =? "create_issue")%string then
      match arguments with
      | None => (Throw (new_Error undefined_property), s)
      | Some args =>
          createIssue (a_instance args) (a_project args) (a_summary args)
                      (a_description args) (a_issue_type args) (a_priority args)
                      (a_labels args) first second s
      end
    else (Throw (new_Error ("Unknown tool: " +++ name)), s) in
  match outcome with
  | (Return result, s) => (ok result, back s)
  | (Throw error, s) =>
      ({| text := "Error: " +++ message error; isError := true |},
       back (say ("[Error] Tool execution failed: " +++ message error) s))
  end.

End Bodies.

Arguments Unreachable {Json} msg.
Arguments Replied {Json} status body.

(** A registered instance being asked for, by name. *)
Definition asks_registered (toLowerCase : string -> string)
           (arguments : option Args) (j : JiraClient) : bool :=
  match arguments with
  | Some args =>
      match a_instance args with
      | Some i => map_has (toLowerCase i) (instances j)
      | None => false
      end
  | None => false
  end.

Definition no_args : Args :=
  {| a_instance := None; a_issue_key := None; a_jql := None; a_max_results := None;
     a_project := None; a_summary := None; a_description := None; a_issue_type := None;
     a_priority := None; a_labels := None |}.

Definition fresh_tools : Tools :=
  {| jiraClient := None; tool_console := []; tool_sent := [] |}.

(** Stand-ins for the JSON functions, with bodies given as their text:
    a body is truthy unless empty, has no issues, and is the key of the
    issue it describes. *)
Definition text_truthy (body : string) : bool := negb (body =? "")%string.
Definition text_issues (body : string) : option nat := Some 0%nat.
Definition text_key (body : string) : option Js.str := Some (Some body).
Definition text_itself (body : string) : string := body.

Definition foo_args : Args :=
  {| a_instance := Some "foo"%string; a_issue_key := Some "PRJ-1"%string;
     a_jql := Some "project = PRJ"%string; a_max_results := None;
     a_project := Some "PRJ"%string; a_summary := Some "s"%string;
     a_description := Some "d"%string; a_issue_type := None;
     a_priority := None; a_labels := None |}.

Definition amd_args : Args :=
  {| a_instance := Some "AMD"%string; a_issue_key := None;
     a_jql := None; a_max_results := None;
     a_project := Some "PRJ"%string; a_summary := Some "s"%string;
     a_description := Some "d"%string; a_issue_type := None;
     a_priority := None; a_labels := None |}.

End JiraTools.

(** * Properties *)

(** ** Token manager *)

Section TokenManagerFacts.

Import TokenManager.

Lemma expiryBuffer_is_five_minutes : expiryBuffer = 300000.
Proof. reflexivity. Qed.

Lemma isExpired_iff (s : State) (e : Z) :
  expires_at (config (self s)) = Num e ->
  isExpired s = true <-> e <= clock (env s) + 5 * 60 * 1000.
Proof.
  intros He. unfold isExpired, geq_minus, expiryBuffer. rewrite He.
  rewrite Z.leb_le. lia.
Qed.

Lemma isExpired_elapse (s : State) (d : Z) :
  0 <= d -> isExpired s = true -> isExpired (in_env (elapse d) s) = true.
Proof.
  unfold isExpired, geq_minus. simpl.
  destruct (expires_at (config (self s))); [|discriminate].
  rewrite !Z.leb_le. lia.
Qed.

Lemma posts_app (t u : list Event) : posts (t ++ u) = posts t ++ posts u.
Proof. apply filter_app. Qed.

Lemma writes_app (t u : list Event) : writes (t ++ u) = writes t ++ writes u.
Proof. apply filter_app. Qed.

(** The first segment of a call that finds the token expired: two log
    lines and the token request, nothing else. *)
Lemma begin_when_expired (s : State) :
  isExpired s = true ->
  getValidAccessToken_begin s =
    (Awaiting,
     {| self := self s;
        env := emit (refresh_request (config (self s)))
                 (emit (Console Stderr "[OAuth] Refreshing access token...")
                    (emit (Console Stderr
                             "[OAuth] Access token expired or expiring soon, refreshing...")
                          (env s))) |}).
Proof.
  intros H. unfold getValidAccessToken_begin. rewrite H. reflexivity.
Qed.

Lemma begin_when_valid (s : State) :
  isExpired s = false ->
  getValidAccessToken_begin s = (Finished (Return (access_token (config (self s)))), s).
Proof.
  intros H. unfold getValidAccessToken_begin. rewrite H. reflexivity.
Qed.

Lemma axios_settle_2xx (status : Z) (d : ResponseData) :
  200 <= status < 300 -> axios_settle (HttpResponse status d) = Return d.
Proof.
  intros [H1 H2]. unfold axios_settle.
  apply Z.leb_le in H1. apply Z.ltb_lt in H2. rewrite H1, H2. reflexivity.
Qed.

Lemma axios_settle_failure (r : HttpResult) :
  transport_failure r = true -> exists e, axios_settle r = Throw e.
Proof.
  destruct r as [msg|status d]; simpl.
  - eexists; reflexivity.
  - intros H. apply negb_true_iff in H. rewrite H. eexists; reflexivity.
Qed.

Lemma resume_success (s : State) (status : Z) (td : TokenData) :
  200 <= status < 300 ->
  disk_writable (env s) = true ->
  let cfg := refreshed td (clock (env s)) (config (self s)) in
  refreshAccessToken_resume (HttpResponse status (DataObject td)) s =
    (Return tt,
     {| self := {| config := cfg; configPath := configPath (self s) |};
        env := {| clock := clock (env s);
                  disk := Stored cfg;
                  disk_writable := true;
                  trace := trace (env s) ++
                           [Console Stderr "[OAuth] Saving updated configuration";
                            FileWrite (configPath (self s)) cfg;
                            Console Stderr "[OAuth] Configuration saved";
                            Console Stderr "[OAuth] Access token refreshed successfully"] |} |}).
Proof.
  intros Hs Hw. unfold refreshAccessToken_resume, try_catch, bind.
  rewrite (axios_settle_2xx _ _ Hs). cbn.
  destruct s as [[c path] [now d wr t]]; cbn in *. subst wr.
  unfold refreshed.
  destruct (truthy (td_refresh_token td)); cbn;
    unfold log, in_env, set_config, store, emit, set_expires_at, set_refresh_token,
      set_access_token; cbn;
    rewrite <- !app_assoc; reflexivity.
Qed.

Lemma resume_failure (s : State) (r : HttpResult) :
  transport_failure r = true ->
  exists detail,
    refreshAccessToken_resume r s =
      (Throw (new_Error refresh_failed_message),
       in_env (emit (ConsoleDetail Stderr "[Error] Failed to refresh access token:" detail)) s).
Proof.
  intros H. destruct (axios_settle_failure r H) as [e He].
  unfold refreshAccessToken_resume, try_catch, bind. rewrite He. cbn.
  eexists. reflexivity.
Qed.


(** A good answer that cannot be saved: the [catch] runs after the new
    values are in memory. *)
Lemma resume_unwritable (s : State) (status : Z) (td : TokenData) :
  200 <= status < 300 ->
  disk_writable (env s) = false ->
  exists detail : Detail,
    refreshAccessToken_resume (HttpResponse status (DataObject td)) s =
      (Throw (new_Error refresh_failed_message),
       {| self := {| config := refreshed td (clock (env s)) (config (self s));
                     configPath := configPath (self s) |};
          env := {| clock := clock (env s);
                    disk := disk (env s);
                    disk_writable := false;
                    trace := trace (env s) ++
                             [Console Stderr "[OAuth] Saving updated configuration";
                              ConsoleDetail Stderr "[Error] Failed to refresh access token:"
                                            detail] |} |}).
Proof.
  intros Hs Hw. unfold refreshAccessToken_resume, try_catch, bind.
  rewrite (axios_settle_2xx _ _ Hs). cbn.
  destruct s as [[c path] [now d wr t]]; cbn in *. subst wr.
  unfold refreshed. eexists.
  destruct (truthy (td_refresh_token td)); cbn;
    unfold log, in_env, set_config, store, emit, set_expires_at, set_refresh_token,
      set_access_token; cbn;
    rewrite <- !app_assoc; reflexivity.
Qed.

(** C4: while the held token expires strictly after now + 5 minutes,
    [getValidAccessToken()] returns it and changes nothing: the state
    after the call is the state before it, so no request was sent, no
    file written, no line logged.  A second call, made [d] milliseconds
    later while the token is still valid, returns the same token, again
    without any effect. *)
Theorem valid_token_is_returned_without_io
        (s : State) (e d : Z) (r1 r2 : HttpResult) (l1 l2 : Z) :
  expires_at (config (self s)) = Num e ->
  clock (env s) + 5 * 60 * 1000 < e ->
  0 <= d ->
  clock (env s) + d + 5 * 60 * 1000 < e ->
  getValidAccessToken r1 l1 s = (Return (access_token (config (self s))), s) /\
  getValidAccessToken r2 l2 (in_env (elapse d) s)
  = (Return (access_token (config (self s))), in_env (elapse d) s) /\
  posts (trace (env (in_env (elapse d) s))) = posts (trace (env s)) /\
  writes (trace (env (in_env (elapse d) s))) = writes (trace (env s)).
Proof.
  intros He H1 Hd H2.
  assert (V1 : isExpired s = false).
  { destruct (isExpired s) eqn:E; [|reflexivity].
    apply (isExpired_iff s e He) in E. lia. }
  assert (V2 : isExpired (in_env (elapse d) s) = false).
  { destruct (isExpired (in_env (elapse d) s)) eqn:E; [|reflexivity].
    apply (isExpired_iff _ e) in E; [simpl in E; lia | exact He]. }
  unfold getValidAccessToken.
  rewrite (begin_when_valid s V1), (begin_when_valid _ V2).
  repeat split.
Qed.

Lemma valid_token_is_returned_without_io_witness :
  getValidAccessToken scenario_answer 0 valid_state = (Return (Some "AT1"%string), valid_state) /\
  getValidAccessToken scenario_answer 0 (in_env (elapse 60000) valid_state)
  = (Return (Some "AT1"%string), in_env (elapse 60000) valid_state) /\
  posts (trace (env (in_env (elapse 60000) valid_state))) = posts (trace (env valid_state)) /\
  writes (trace (env (in_env (elapse 60000) valid_state))) = writes (trace (env valid_state)).
Proof.
  apply (valid_token_is_returned_without_io
           valid_state (1700000000000 - 1000) 60000 scenario_answer scenario_answer 0 0).
  - reflexivity.
  - vm_compute. reflexivity.
  - lia.
  - vm_compute. reflexivity.
Defined.

(** C1, as stated, fails: the endpoint answers the refresh request of
    the scenario with the new token, yet the call does not return it when
    the credential file cannot be written.  The exchange was made, the
    call throws the refresh error, and the persisted record is the old
    one. *)
Lemma unsaved_token_is_not_returned :
  isExpired unwritable_state = true /\
  posts (trace (env (snd (getValidAccessToken scenario_answer 250 unwritable_state))))
  = [HttpPost "https://reviews.example.com/oauth2/token/"
              [("grant_type", "refresh_token"); ("refresh_token", "RT1");
               ("client_id", "client"); ("client_secret", "secret")]%string] /\
  fst (getValidAccessToken scenario_answer 250 unwritable_state)
  = Throw (new_Error refresh_failed_message) /\
  disk (env (snd (getValidAccessToken scenario_answer 250 unwritable_state)))
  = Stored expired_config /\
  expires_at expired_config = Num (1700000000000 - 1000) /\
  ~ refresh_returns_new_token.
Proof.
  repeat split; try reflexivity.
  intros H. specialize (H unwritable_state 200 250
                          {| td_access_token := Some "AT2"%string; td_refresh_token := None;
                             td_token_type := None; td_expires_in := Some 3600 |}
                          eq_refl).
  assert (R : 200 <= 200 < 300) by lia. specialize (H R).
  vm_compute in H. discriminate.
Qed.

(** C1, amended: when the held token expires at or before now + 5
    minutes, [getValidAccessToken()] performs the refresh-token exchange:
    it posts, once, to [<reviewboard_url>/oauth2/token/] the form with
    [grant_type=refresh_token], the held refresh token and the client
    identity.  When the endpoint answers with a 2xx response, the manager
    holds the answer's [access_token] and an [expires_at] of the time of
    the answer plus [expires_in * 1000].  If the credential file can be
    written, the call returns that token and the file holds the same
    record; for [expires_at = now - 1000] and the answer
    [{access_token: "AT2", expires_in: 3600}] it returns ["AT2"] and the
    persisted [expires_at] is [now + 3600000] up to the time the request
    took.  If the file cannot be written, the call throws the refresh
    error and the file is as it was. *)
Theorem expired_token_is_refreshed
        (s : State) (e status latency : Z) (td : TokenData) :
  expires_at (config (self s)) = Num e ->
  e <= clock (env s) + 5 * 60 * 1000 ->
  200 <= status < 300 ->
  exists (c : Completion Js.str) (s' : State),
    getValidAccessToken (HttpResponse status (DataObject td)) latency s = (c, s') /\
    posts (trace (env s'))
    = posts (trace (env s)) ++
      [HttpPost (reviewboard_url (config (self s)) +++ "/oauth2/token/")
                [("grant_type", "refresh_token");
                 ("refresh_token", show (refresh_token (config (self s))));
                 ("client_id", client_id (config (self s)));
                 ("client_secret", client_secret (config (self s)))]%string] /\
    access_token (config (self s')) = td_access_token td /\
    expires_at (config (self s'))
    = plus (clock (env s) + latency) (times_1000 (td_expires_in td)) /\
    (disk_writable (env s) = true ->
     c = Return (td_access_token td) /\
     disk (env s') = Stored (config (self s')) /\
     (e = clock (env s) - 1000 ->
      td_access_token td = Some "AT2"%string ->
      td_expires_in td = Some 3600 ->
      c = Return (Some "AT2"%string) /\
      exists persisted : OAuthConfig,
        disk (env s') = Stored persisted /\
        expires_at persisted = Num (clock (env s) + latency + 3600000))) /\
    (disk_writable (env s) = false ->
     c = Throw (new_Error "Failed to refresh access token. You may need to run the OAuth setup again: npm run oauth-setup") /\
     disk (env s') = disk (env s) /\
     writes (trace (env s')) = writes (trace (env s))).
Proof.
  intros He Hexp Hs.
  assert (X : isExpired s = true) by (apply (isExpired_iff s e He); exact Hexp).
  unfold getValidAccessToken. rewrite (begin_when_expired s X).
  unfold getValidAccessToken_resume, bind.
  destruct (disk_writable (env s)) eqn:Hw.
  - rewrite resume_success by (simpl; assumption). cbn.
    do 2 eexists. split; [reflexivity|]. cbn.
    split; [rewrite <- !app_assoc, !posts_app; reflexivity|].
    split; [reflexivity|]. split; [reflexivity|].
    split; [|intros H; discriminate].
    intros _. split; [reflexivity|]. split; [reflexivity|].
    intros _ Hat Hin. split; [rewrite Hat; reflexivity|].
    eexists. split; [reflexivity|]. cbn. rewrite Hin. cbn. f_equal; lia.
  - match goal with
    | |- context [refreshAccessToken_resume _ ?st] =>
        destruct (resume_unwritable st status td Hs) as [detail Hr];
          [cbn; exact Hw | rewrite Hr]
    end.
    do 2 eexists. split; [reflexivity|]. cbn.
    split; [rewrite <- ?app_assoc, ?posts_app; cbn; rewrite <- ?app_assoc, ?app_nil_r; reflexivity|].
    split; [reflexivity|]. split; [reflexivity|].
    split; [intros H; discriminate|].
    intros _. split; [reflexivity|]. split; [reflexivity|].
    rewrite <- !app_assoc, !writes_app. cbn. apply app_nil_r.
Qed.

Lemma expired_token_is_refreshed_witness :
  exists s' : State,
    getValidAccessToken scenario_answer 250 expired_state = (Return (Some "AT2"%string), s') /\
    posts (trace (env s'))
    = [HttpPost "https://reviews.example.com/oauth2/token/"
                [("grant_type", "refresh_token"); ("refresh_token", "RT1");
                 ("client_id", "client"); ("client_secret", "secret")]%string] /\
    exists persisted : OAuthConfig,
      disk (env s') = Stored persisted /\
      expires_at persisted = Num (1700000000000 + 250 + 3600000).
Proof.
  destruct (expired_token_is_refreshed
              expired_state (1700000000000 - 1000) 200 250
              {| td_access_token := Some "AT2"%string; td_refresh_token := None;
                 td_token_type := None; td_expires_in := Some 3600 |})
    as [c [s' [H1 [H2 [_ [_ [H3 _]]]]]]].
  - reflexivity.
  - vm_compute. discriminate.
  - lia.
  - destruct (H3 eq_refl) as [_ [_ H4]].
    destruct (H4 eq_refl eq_refl eq_refl) as [Hc Hp].
    exists s'. split; [rewrite <- Hc; exact H1|]. split; [exact H2|exact Hp].
Defined.

(** C6: a refresh that succeeds (2xx answer, writable file) leaves the
    same record in memory and on disk, and in it
    - the held [refresh_token] when the answer has none;
    - the answer's [refresh_token] when it supplies one (a non-empty
      string: the code tests it for truthiness, so an empty string counts
      as none);
    - [token_type], [client_id], [client_secret] and [reviewboard_url] as
      they were. *)
Theorem refresh_token_is_kept_or_rotated
        (s : State) (status latency : Z) (td : TokenData) :
  200 <= status < 300 ->
  disk_writable (env s) = true ->
  exists s' : State,
    refreshAccessToken (HttpResponse status (DataObject td)) latency s = (Return tt, s') /\
    disk (env s') = Stored (config (self s')) /\
    (td_refresh_token td = None ->
     refresh_token (config (self s')) = refresh_token (config (self s))) /\
    (forall rt : string,
        td_refresh_token td = Some rt -> rt <> EmptyString ->
        refresh_token (config (self s')) = Some rt) /\
    (td_refresh_token td = Some EmptyString ->
     refresh_token (config (self s')) = refresh_token (config (self s))) /\
    token_type (config (self s')) = token_type (config (self s)) /\
    client_id (config (self s')) = client_id (config (self s)) /\
    client_secret (config (self s')) = client_secret (config (self s)) /\
    reviewboard_url (config (self s')) = reviewboard_url (config (self s)).
Proof.
  intros Hs Hw. unfold refreshAccessToken.
  rewrite resume_success by (simpl; assumption).
  eexists. split; [reflexivity|]. cbn.
  split; [reflexivity|].
  split; [intros H; rewrite H; reflexivity|].
  split.
  { intros rt H Hne. rewrite H. cbn. unfold truthy_string.
    destruct (String.eqb_spec rt ""); [contradiction|reflexivity]. }
  split; [intros H; rewrite H; reflexivity|].
  repeat split.
Qed.

Lemma refresh_token_is_kept_or_rotated_witness :
  exists s' : State,
    refreshAccessToken
      (HttpResponse 200 (DataObject {| td_access_token := Some "AT2"%string;
                                       td_refresh_token := Some "RT2"%string;
                                       td_token_type := Some "Bearer"%string;
                                       td_expires_in := Some 3600 |}))
      250 expired_state = (Return tt, s') /\
    disk (env s') = Stored (config (self s')) /\
    refresh_token (config (self s')) = Some "RT2"%string.
Proof.
  destruct (refresh_token_is_kept_or_rotated
              expired_state 200 250
              {| td_access_token := Some "AT2"%string;
                 td_refresh_token := Some "RT2"%string;
                 td_token_type := Some "Bearer"%string;
                 td_expires_in := Some 3600 |})
    as [s' [H1 [H2 [_ [H3 _]]]]].
  - lia.
  - reflexivity.
  - exists s'. split; [exact H1|]. split; [exact H2|].
    apply H3; [reflexivity|discriminate].
Defined.




(** C2, as stated, fails: with the token expired, a first call is
    suspended at its refresh request; a second call made at that moment
    sends a second refresh request. *)
Lemma second_caller_starts_second_refresh :
  refresh_in_progress (step Invoke (start expired_state)) = true /\
  requests (step Invoke (start expired_state)) = 1%nat /\
  requests (step Invoke (step Invoke (start expired_state))) = 2%nat /\
  calls (run [Invoke; Invoke; Settle 0 scenario_answer; Settle 1 scenario_answer]
             (start expired_state))
  = [Settled (Return (Some "AT2"%string)); Settled (Return (Some "AT2"%string))] /\
  ~ single_flight.
Proof.
  repeat split; try reflexivity.
  intros H. specialize (H (step Invoke (start expired_state)) eq_refl).
  vm_compute in H. discriminate.
Qed.

(** C2, amended: every call that finds the token expired sends one
    refresh request of its own, whether or not a refresh is in progress.
    Calls made one after the other share a refresh: after a call that
    completed a successful refresh whose new expiry lies more than five
    minutes ahead, the next call returns the new token and sends
    nothing. *)
Theorem one_request_per_expired_call
        (l : Loop) (status latency d lifetime l2 : Z) (td : TokenData) (r2 : HttpResult) :
  isExpired (state l) = true ->
  200 <= status < 300 ->
  disk_writable (env (state l)) = true ->
  td_expires_in td = Some lifetime ->
  d + 5 * 60 * 1000 < lifetime * 1000 ->
  requests (step Invoke l) = S (requests l) /\
  exists s1 : State,
    getValidAccessToken (HttpResponse status (DataObject td)) latency (state l)
    = (Return (td_access_token td), s1) /\
    getValidAccessToken r2 l2 (in_env (elapse d) s1)
    = (Return (td_access_token td), in_env (elapse d) s1) /\
    posts (trace (env (in_env (elapse d) s1)))
    = posts (trace (env (state l))) ++ [refresh_request (config (self (state l)))].
Proof.
  intros X Hs Hw Hin Hd. split.
  - unfold requests, step. rewrite (begin_when_expired _ X). cbn.
    rewrite <- !app_assoc, !posts_app. cbn. rewrite length_app. cbn. lia.
  - unfold getValidAccessToken at 1. rewrite (begin_when_expired _ X).
    unfold getValidAccessToken_resume, bind.
    rewrite resume_success by (simpl; assumption). cbn.
    eexists. split; [reflexivity|].
    split.
    + unfold getValidAccessToken. rewrite begin_when_valid; [reflexivity|].
      unfold isExpired. cbn. rewrite Hin. cbn. apply Z.leb_gt.
      unfold expiryBuffer. lia.
    + cbn. rewrite <- !app_assoc, !posts_app. reflexivity.
Qed.

Lemma one_request_per_expired_call_witness :
  requests (step Invoke (step Invoke (start expired_state)))
  = S (requests (step Invoke (start expired_state))) /\
  exists s1 : State,
    getValidAccessToken scenario_answer 250 (state (step Invoke (start expired_state)))
    = (Return (Some "AT2"%string), s1) /\
    getValidAccessToken scenario_answer 250 (in_env (elapse 1000) s1)
    = (Return (Some "AT2"%string), in_env (elapse 1000) s1).
Proof.
  destruct (one_request_per_expired_call
              (step Invoke (start expired_state)) 200 250 1000 3600 250
              {| td_access_token := Some "AT2"%string; td_refresh_token := None;
                 td_token_type := None; td_expires_in := Some 3600 |}
              scenario_answer)
    as [H1 [s1 [H2 [H3 _]]]].
  - reflexivity.
  - lia.
  - reflexivity.
  - reflexivity.
  - lia.
  - split; [exact H1|]. exists s1. split; [exact H2|exact H3].
Defined.

End TokenManagerFacts.

(** ** Authenticated client *)

Section GatewayFacts.

Import TokenManager Gateway.

Lemma header_set_same (k v : string) (h : Headers) :
  header k (set_header k v h) = Some v.
Proof.
  induction h as [|[k' v'] h IH]; cbn.
  - rewrite String.eqb_refl. reflexivity.
  - destruct (String.eqb_spec k' k) as [->|Hne]; cbn.
    + rewrite String.eqb_refl. reflexivity.
    + destruct (String.eqb_spec k' k); [contradiction|exact IH].
Qed.

Lemma header_set_other (k k' v : string) (h : Headers) :
  k' <> k -> header k (set_header k' v h) = header k h.
Proof.
  intros Hne. induction h as [|[k0 v0] h IH]; cbn.
  - destruct (String.eqb_spec k' k); [contradiction|reflexivity].
  - destruct (String.eqb_spec k0 k') as [->|H0]; cbn.
    + destruct (String.eqb_spec k' k); [contradiction|reflexivity].
    + destruct (String.eqb_spec k0 k); [reflexivity|exact IH].
Qed.

Lemma header_merge (k : string) (extra h : Headers) :
  header k extra = None ->
  header k (fold_left (fun h kv => set_header (fst kv) (snd kv) h) extra h) = header k h.
Proof.
  revert h. induction extra as [|[k' v'] extra IH]; intros h Hx; cbn in *.
  - reflexivity.
  - destruct (String.eqb_spec k' k) as [->|Hne]; [discriminate|].
    rewrite IH by exact Hx. apply header_set_other. exact Hne.
Qed.

Lemma bearer_is_not_token_form (v : string) :
  is_token_form ("Bearer " +++ v) = false /\ is_bearer_form ("Bearer " +++ v) = true.
Proof. split; [reflexivity | destruct v; reflexivity]. Qed.

Lemma getClient_oauth (getenv : string -> Js.str) (configPath : string) (p : Process) :
  rbClient p = None ->
  truthy (getenv "REVIEWBOARD_TOKEN"%string) && truthy (getenv "REVIEWBOARD_URL"%string) = false ->
  In (FileExists configPath) (trace (world (snd (getClient getenv configPath p)))) /\
  forall c : ReviewBoardClient,
    fst (getClient getenv configPath p) = Return c ->
    rbClient (snd (getClient getenv configPath p)) = Some c /\
    bearer_interceptor (client c) = true /\
    (exists m, tokenManager c = Some m) /\
    apiToken c = None /\
    headers (client c) = [("Accept", "application/json")]%string.
Proof.
  intros Hnone Hmode.
  unfold getClient, bind, get. rewrite Hnone. cbn. rewrite Hmode.
  unfold in_world, setup_log, new_OAuth2TokenManager, loadConfig, bind, modify, get.
  cbn.
  destruct (disk (world p)) eqn:Ed; cbn.
  - split; [rewrite !in_app_iff; cbn; tauto | intros c H; discriminate].
  - split; [rewrite !in_app_iff; cbn; tauto | intros c H; discriminate].
  - split; [rewrite !in_app_iff; cbn; tauto |].
    intros c H. injection H as <-. cbn. repeat split. eexists. reflexivity.
Qed.

Lemma prepare_request_bearer (c : ReviewBoardClient) (extra : Headers) (r : HttpResult)
      (latency : Z) (w : World) (h : Headers) (st : ReviewBoardClient * World) :
  bearer_interceptor (client c) = true ->
  tokenManager c <> None ->
  prepare_request extra r latency (c, w) = (Return h, st) ->
  exists accessToken : Js.str,
    header "Authorization" h = Some ("Bearer " +++ show accessToken).
Proof.
  intros Hb Hm. unfold prepare_request. rewrite Hb.
  destruct (tokenManager c) as [m|]; [|contradiction].
  destruct (getValidAccessToken r latency {| self := m; env := w |}) as [[tok|e] s'];
    intros H; [|discriminate].
  injection H as <- _. exists tok. apply header_set_same.
Qed.

Lemma getClient_cached (getenv : string -> Js.str) (configPath : string)
      (p : Process) (c : ReviewBoardClient) :
  rbClient p = Some c -> getClient getenv configPath p = (Return c, p).
Proof.
  intros H. unfold getClient, bind, get. rewrite H. reflexivity.
Qed.

(** C9: the first [getClient()] of a process chooses the authentication
    mode from the environment.  With [REVIEWBOARD_TOKEN] and
    [REVIEWBOARD_URL] both set (to a non-empty value, which is what the
    code tests) the client is built in static-token mode: it has no token
    manager and no request interceptor, the credential file is neither
    probed nor read, and every request carries
    [Authorization: token <value>].  Otherwise the OAuth2 path is taken:
    the credential file is consulted, and a client that comes out of it
    has a token manager, no static [Authorization] header, and puts
    [Authorization: Bearer <token>] on every request it prepares.  The two
    forms never occur on the same client, and every later [getClient()]
    returns that same client whatever the environment has become. *)
Theorem authentication_mode_is_fixed_by_environment
        (getenv : string -> Js.str) (configPath : string) (p : Process) :
  rbClient p = None ->
  (truthy (getenv "REVIEWBOARD_TOKEN"%string) && truthy (getenv "REVIEWBOARD_URL"%string) = true ->
   exists (c : ReviewBoardClient) (p' : Process),
     getClient getenv configPath p = (Return c, p') /\
     rbClient p' = Some c /\
     (forall (getenv' : string -> Js.str) (configPath' : string),
         getClient getenv' configPath' p' = (Return c, p')) /\
     reads (trace (world p')) = reads (trace (world p)) /\
     tokenManager c = None /\
     bearer_interceptor (client c) = false /\
     forall (extra : Headers) (r : HttpResult) (latency : Z) (w : World),
       header "Authorization" extra = None ->
       exists h : Headers,
         prepare_request extra r latency (c, w) = (Return h, (c, w)) /\
         header "Authorization" h
         = Some ("token " +++ show (getenv "REVIEWBOARD_TOKEN"%string)) /\
         is_bearer_form ("token " +++ show (getenv "REVIEWBOARD_TOKEN"%string)) = false) /\
  (truthy (getenv "REVIEWBOARD_TOKEN"%string) && truthy (getenv "REVIEWBOARD_URL"%string) = false ->
   In (FileExists configPath) (trace (world (snd (getClient getenv configPath p)))) /\
   forall c : ReviewBoardClient,
     fst (getClient getenv configPath p) = Return c ->
     rbClient (snd (getClient getenv configPath p)) = Some c /\
     (forall (getenv' : string -> Js.str) (configPath' : string),
         getClient getenv' configPath' (snd (getClient getenv configPath p))
         = (Return c, snd (getClient getenv configPath p))) /\
     tokenManager c <> None /\
     apiToken c = None /\
     header "Authorization" (headers (client c)) = None /\
     forall (extra : Headers) (r : HttpResult) (latency : Z) (w : World)
            (h : Headers) (st : ReviewBoardClient * World),
       prepare_request extra r latency (c, w) = (Return h, st) ->
       exists accessToken : Js.str,
         header "Authorization" h = Some ("Bearer " +++ show accessToken) /\
         is_token_form ("Bearer " +++ show accessToken) = false).
Proof.
  intros Hnone. split; intros Hmode.
  - apply andb_true_iff in Hmode. destruct Hmode as [Ht Hu].
    destruct (getenv "REVIEWBOARD_TOKEN"%string) as [t|] eqn:Et; [|discriminate].
    destruct (getenv "REVIEWBOARD_URL"%string) as [u|] eqn:Eu; [|discriminate].
    cbn in Ht, Hu.
    unfold getClient, bind, get. rewrite Hnone, Et, Eu. cbn. rewrite Ht, Hu. cbn.
    unfold in_world, setup_log, new_ReviewBoardClient, bind, modify. cbn.
    rewrite Ht. cbn.
    eexists. eexists. split; [reflexivity|]. cbn.
    split; [reflexivity|].
    split; [intros getenv' configPath'; reflexivity|].
    split.
    { unfold reads. rewrite <- !app_assoc, filter_app. cbn. apply app_nil_r. }
    split; [reflexivity|]. split; [reflexivity|].
    intros extra r latency w Hx. eexists. split; [reflexivity|].
    split; [|reflexivity].
    rewrite header_merge by exact Hx. cbn. reflexivity.
  - destruct (getClient_oauth getenv configPath p Hnone Hmode) as [Hin Hc].
    split; [exact Hin|].
    intros c Hret. destruct (Hc c Hret) as [H1 [H2 [[m H3] [H4 H5]]]].
    split; [exact H1|].
    split; [intros getenv' configPath'; apply getClient_cached; exact H1|].
    split; [rewrite H3; discriminate|].
    split; [exact H4|].
    split; [rewrite H5; reflexivity|].
    intros extra r latency w h st Hp.
    destruct (prepare_request_bearer c extra r latency w h st H2) as [tok Htok];
      [rewrite H3; discriminate | exact Hp |].
    exists tok. split; [exact Htok | apply bearer_is_not_token_form].
Qed.

Lemma authentication_mode_is_fixed_by_environment_witness :
  (exists (c : ReviewBoardClient) (p' : Process),
      getClient token_env "/srv/oauth-config.json" (fresh_process Absent) = (Return c, p') /\
      reads (trace (world p')) = [] /\
      tokenManager c = None) /\
  In (FileExists "/srv/oauth-config.json")
     (trace (world (snd (getClient oauth_env "/srv/oauth-config.json"
                                   (fresh_process (Stored TokenManager.expired_config)))))).
Proof.
  destruct (authentication_mode_is_fixed_by_environment
              token_env "/srv/oauth-config.json" (fresh_process Absent) eq_refl)
    as [[c [p' [H1 [_ [_ [H2 [H3 _]]]]]]] _]; [reflexivity|].
  destruct (authentication_mode_is_fixed_by_environment
              oauth_env "/srv/oauth-config.json"
              (fresh_process (Stored TokenManager.expired_config)) eq_refl)
    as [_ [H4 _]]; [reflexivity|].
  split; [|exact H4].
  exists c, p'. split; [exact H1|]. split; [exact H2|exact H3].
Defined.

End GatewayFacts.

(** ** Authorization flow *)

Section SetupFacts.

Import Setup.


Lemma pump_cons (ev : ServerEvent) (evs : list ServerEvent) (x : Server * World) :
  promise (fst x) = Pending -> pump (ev :: evs) x = pump evs (deliver ev x).
Proof. intros H. cbn. rewrite H. reflexivity. Qed.

Lemma pump_cases (ev : ServerEvent) (evs : list ServerEvent) (x : Server * World) :
  pump (ev :: evs) x = pump evs (deliver ev x) \/ pump (ev :: evs) x = x.
Proof. cbn. destruct (promise (fst x)); [left|right|right]; reflexivity. Qed.

Lemma handler_on_callback (req : ParsedUrl) (sv : Server) (w : World) :
  pathname req = Some "/callback"%string ->
  promise sv = Pending ->
  exists (st : Z) (body : string) (p : Promise),
    p <> Pending /\
    handler req (sv, w)
    = ({| port := port sv; status := Closed; promise := p |},
       emit CloseServer (emit (Respond st body) w)).
Proof.
  intros Hp Hs. unfold handler. rewrite Hp. cbn.
  destruct (truthy_query (param "error" req)).
  - do 3 eexists. split; [|unfold close, settle, respond; cbn; rewrite Hs; reflexivity].
    discriminate.
  - destruct (truthy_query (param "code" req) && truthy_query (param "state" req)).
    + do 3 eexists. split; [|unfold close, settle, respond; cbn; rewrite Hs; reflexivity].
      discriminate.
    + do 3 eexists. split; [|unfold close, settle, respond; cbn; rewrite Hs; reflexivity].
      discriminate.
Qed.

Lemma handler_off_callback (req : ParsedUrl) (x : Server * World) :
  pathname req <> Some "/callback"%string -> handler req x = x.
Proof.
  intros Hp. destruct x as [sv w]. unfold handler.
  destruct (pathname req) as [path|]; [|reflexivity].
  destruct (String.eqb_spec path "/callback"); [subst; contradiction|reflexivity].
Qed.

Lemma handler_keeps_closed (req : ParsedUrl) (sv : Server) (w : World) :
  status sv = Closed -> status (fst (handler req (sv, w))) = Closed.
Proof.
  intros H. unfold handler.
  destruct (pathname req) as [path|]; [|exact H].
  destruct (path =? "/callback")%string; [|exact H].
  destruct (truthy_query (param "error" req));
    [|destruct (truthy_query (param "code" req) && truthy_query (param "state" req))];
    cbn; unfold settle; cbn; destruct (promise sv); reflexivity.
Qed.

Lemma deliver_keeps_unsettled (ev : ServerEvent) (sv : Server) (w : World) :
  unsettled_while_open sv -> unsettled_while_open (fst (deliver ev (sv, w))).
Proof.
  intros Inv. unfold deliver.
  destruct ev as [| e | req]; destruct (status sv) eqn:Es; try exact Inv.
  - intros _. cbn. apply Inv. left. exact Es.
  - cbn. unfold unsettled_while_open, settle. cbn.
    destruct (promise sv); cbn; intros [H|H]; discriminate.
  - destruct (pathname req) as [path|] eqn:Ep.
    + destruct (String.eqb_spec path "/callback") as [->|Hne].
      * destruct (handler_on_callback req sv w Ep) as [st [body [p [_ H]]]].
        { apply Inv. right. exact Es. }
        rewrite H. cbn. intros [X|X]; discriminate.
      * rewrite handler_off_callback; [exact Inv|].
        rewrite Ep. intros H. injection H as H. contradiction.
    + rewrite handler_off_callback; [exact Inv|]. rewrite Ep. discriminate.
  - pose proof (handler_keeps_closed req sv w Es) as Hc.
    intros [H|H]; rewrite Hc in H; discriminate.
Qed.

Lemma pump_keeps_unsettled (evs : list ServerEvent) (x : Server * World) :
  unsettled_while_open (fst x) -> unsettled_while_open (fst (pump evs x)).
Proof.
  revert x. induction evs as [|ev evs IH]; intros [sv w] Inv; [exact Inv|].
  destruct (pump_cases ev evs (sv, w)) as [E|E]; rewrite E; [|exact Inv].
  apply IH. apply deliver_keeps_unsettled. exact Inv.
Qed.








(** What [main] has done when it first suspends. *)
Lemma main_begin_await
      (parseInt : string -> Js.num)
      (URL_with_params : string -> list (string * string) -> option string)
      (getenv : string -> Js.str) (randomBytes : list ascii)
      (w w1 : World) (f : Flow) (server : Server) :
  main_begin parseInt URL_with_params getenv randomBytes w = (Await (f, server), w1) ->
  exists authUrl : string,
    URL_with_params (reviewboardUrl f +++ "/oauth2/authorize/")
                    [("client_id", clientId f);
                     ("redirect_uri", redirectUri f);
                     ("response_type", "code");
                     ("state", session_state f);
                     ("scope", "read write")]%string = Some authUrl /\
    session_state f = generateState randomBytes /\
    server = {| port := callbackPort f; status := Binding; promise := Pending |} /\
    clock w1 = clock w /\ disk w1 = disk w /\ disk_writable w1 = disk_writable w /\
    trace w1 = trace w ++
               [Console Stdout ("=== ReviewBoard OAuth2 Setup ===" +++ nl);
                Console Stdout (nl +++ "[OAuth] Please authorize the application by visiting this URL:" +++ nl);
                Console Stdout authUrl;
                Console Stdout (nl +++ "[OAuth] Waiting for authorization..." +++ nl);
                Listen (callbackPort f)].
Proof.
  unfold main_begin.
  destruct (negb (truthy (getenv "REVIEWBOARD_URL"%string))
            || negb (truthy (getenv "REVIEWBOARD_CLIENT_ID"%string))
            || negb (truthy (getenv "REVIEWBOARD_CLIENT_SECRET"%string)));
    [discriminate|].
  match goal with
  | |- context [match URL_with_params ?a ?b with _ => _ end] =>
      destruct (URL_with_params a b) as [authUrl|] eqn:EU; [|discriminate]
  end.
  unfold startCallbackServer. intros H. injection H as <- <- <-.
  exists authUrl. cbn.
  split; [exact EU|].
  repeat (split; [reflexivity|]).
  unfold out, emit. cbn. rewrite <- !app_assoc. reflexivity.
Qed.

Lemma handler_frame (req : ParsedUrl) (x : Server * World) :
  posts (trace (snd (handler req x))) = posts (trace (snd x)) /\
  writes (trace (snd (handler req x))) = writes (trace (snd x)) /\
  disk (snd (handler req x)) = disk (snd x) /\
  disk_writable (snd (handler req x)) = disk_writable (snd x).
Proof.
  destruct x as [sv w]. unfold handler.
  destruct (pathname req) as [path|]; [|repeat split].
  destruct (path =? "/callback")%string; [|repeat split].
  destruct (truthy_query (param "error" req));
    [|destruct (truthy_query (param "code" req) && truthy_query (param "state" req))];
    cbn; rewrite <- !app_assoc, posts_app, writes_app; cbn; rewrite !app_nil_r;
    repeat split.
Qed.

Lemma deliver_frame (ev : ServerEvent) (x : Server * World) :
  posts (trace (snd (deliver ev x))) = posts (trace (snd x)) /\
  writes (trace (snd (deliver ev x))) = writes (trace (snd x)) /\
  disk (snd (deliver ev x)) = disk (snd x) /\
  disk_writable (snd (deliver ev x)) = disk_writable (snd x).
Proof.
  destruct x as [sv w]. unfold deliver.
  destruct ev as [| e | req]; destruct (status sv); try (repeat split; fail).
  - cbn. rewrite posts_app, writes_app. cbn. rewrite !app_nil_r. repeat split.
  - apply handler_frame.
  - apply handler_frame.
Qed.

Lemma pump_frame (evs : list ServerEvent) (x : Server * World) :
  posts (trace (snd (pump evs x))) = posts (trace (snd x)) /\
  writes (trace (snd (pump evs x))) = writes (trace (snd x)) /\
  disk (snd (pump evs x)) = disk (snd x) /\
  disk_writable (snd (pump evs x)) = disk_writable (snd x).
Proof.
  revert x. induction evs as [|ev evs IH]; intros x; [repeat split|].
  destruct (pump_cases ev evs x) as [E|E]; rewrite E; [|repeat split].
  destruct (IH (deliver ev x)) as [A [B [C D]]].
  destruct (deliver_frame ev x) as [A' [B' [C' D']]].
  rewrite A, B, C, D. repeat split; assumption.
Qed.

Lemma state_differs_iff (s : string) (v : QueryValue) :
  state_differs s v = true <-> v <> QString s.
Proof.
  destruct v as [|t|l]; cbn; try (split; [discriminate|reflexivity]).
  destruct (String.eqb_spec s t) as [->|Hne]; cbn; split; congruence.
Qed.

(** C5: when the callback resolves with a [state] that is not the string
    generated at the start of the session, [main] ends with
    [process.exit(1)] after reporting the state mismatch: no request is
    posted (the token exchange is never called), and no file is
    written. *)
Theorem state_mismatch_aborts_before_exchange
        (parseInt : string -> Js.num)
        (URL_with_params : string -> list (string * string) -> option string)
        (CONFIG_FILE : string)
        (getenv : string -> Js.str) (randomBytes : list ascii)
        (evs : list ServerEvent) (r : HttpResult) (latency : Z)
        (w w0 : World) (f : Flow) (server : Server) (cb : Callback) :
  main_begin parseInt URL_with_params getenv randomBytes w = (Await (f, server), w0) ->
  promise (fst (pump evs (server, w0))) = Resolved cb ->
  state cb <> QString (generateState randomBytes) ->
  exists w' : World,
    main parseInt URL_with_params CONFIG_FILE getenv randomBytes evs r latency w
    = (Exited 1, w') /\
    posts (trace w') = posts (trace w) /\
    writes (trace w') = writes (trace w) /\
    disk w' = disk w /\
    In (ConsoleDetail Stderr (nl +++ "[Error] OAuth setup failed:")
                      (Message "State mismatch - possible CSRF attack"))
       (trace w').
Proof.
  intros Hb Hp Hne.
  destruct (main_begin_await _ _ _ _ _ _ _ _ Hb)
    as [authUrl [_ [Hst [_ [_ [Hd [_ Ht]]]]]]].
  unfold main. rewrite Hb.
  destruct (pump_frame evs (server, w0)) as [A [B [C _]]].
  destruct (pump evs (server, w0)) as [sv w2]. cbn in *.
  unfold main_callback. rewrite Hp.
  assert (D : state_differs (session_state f) (state cb) = true).
  { apply state_differs_iff. rewrite Hst. exact Hne. }
  rewrite D. cbn.
  eexists. split; [reflexivity|]. cbn.
  rewrite <- !app_assoc, posts_app, writes_app. cbn. rewrite !app_nil_r.
  rewrite A, B, C, Hd, Ht, posts_app, writes_app. cbn. rewrite !app_nil_r.
  repeat split.
  rewrite !in_app_iff. cbn. tauto.
Qed.

Lemma state_mismatch_aborts_before_exchange_witness :
  exists w' : World,
    main parseInt_3000 plain_URL "/srv/oauth-config.json" setup_env setup_bytes
         [Bound; Incoming forged_callback] TokenManager.scenario_answer 250 setup_world
    = (Exited 1, w') /\
    posts (trace w') = [] /\
    disk w' = Absent.
Proof.
  destruct (state_mismatch_aborts_before_exchange
              parseInt_3000 plain_URL "/srv/oauth-config.json" setup_env setup_bytes
              [Bound; Incoming forged_callback] TokenManager.scenario_answer 250
              setup_world
              (snd (main_begin parseInt_3000 plain_URL setup_env setup_bytes setup_world))
              {| reviewboardUrl := "https://reviews.example.com";
                 clientId := "client";
                 clientSecret := "secret";
                 callbackPort := Num 3000;
                 redirectUri := "http://localhost:3000/callback";
                 session_state := generateState setup_bytes |}
              {| port := Num 3000; status := Binding; promise := Pending |}
              {| code := QString "c0de"; state := QString "forged" |})
    as [w' [H1 [H2 [_ [H3 _]]]]].
  - reflexivity.
  - reflexivity.
  - vm_compute. discriminate.
  - exists w'. split; [exact H1|]. split; [exact H2|exact H3].
Defined.

(** C7: the listener is not started first.  In a run of the flow with
    the three variables set, the authorization URL is on the console
    before the listener is even asked to listen: the line with the URL
    comes before the [Listen], and no [Listen] comes before that line.
    The README and the setup guide describe the opposite order. *)
Lemma url_is_shown_before_listener_starts :
  existsb (is_print_of setup_url)
          (trace (snd (main_begin parseInt_3000 plain_URL setup_env setup_bytes setup_world)))
  = true /\
  existsb is_listen
          (trace (snd (main_begin parseInt_3000 plain_URL setup_env setup_bytes setup_world)))
  = true /\
  occurs_before is_listen (is_print_of setup_url)
                (trace (snd (main_begin parseInt_3000 plain_URL setup_env setup_bytes setup_world)))
  = false /\
  occurs_before (is_print_of setup_url) is_listen
                (trace (snd (main_begin parseInt_3000 plain_URL setup_env setup_bytes setup_world)))
  = true.
Proof. repeat split; vm_compute; reflexivity. Qed.

(** The same order in every run that reaches the callback: the URL is
    printed, then, with no [await] in between, the listener is started,
    which is the last thing [main] does before it first suspends.  At
    that point the server is still binding. *)
Theorem url_is_shown_then_listener_started
        (parseInt : string -> Js.num)
        (URL_with_params : string -> list (string * string) -> option string)
        (getenv : string -> Js.str) (randomBytes : list ascii)
        (w w1 : World) (f : Flow) (server : Server) :
  main_begin parseInt URL_with_params getenv randomBytes w = (Await (f, server), w1) ->
  exists (authUrl : string) (before : list Event),
    URL_with_params (reviewboardUrl f +++ "/oauth2/authorize/")
                    [("client_id", clientId f);
                     ("redirect_uri", redirectUri f);
                     ("response_type", "code");
                     ("state", session_state f);
                     ("scope", "read write")]%string = Some authUrl /\
    trace w1 = before ++
               [Console Stdout authUrl;
                Console Stdout (nl +++ "[OAuth] Waiting for authorization..." +++ nl);
                Listen (callbackPort f)] /\
    existsb is_listen before = existsb is_listen (trace w) /\
    status server = Binding /\
    promise server = Pending.
Proof.
  intros Hb.
  destruct (main_begin_await _ _ _ _ _ _ _ _ Hb)
    as [authUrl [HU [_ [Hsv [_ [_ [_ Ht]]]]]]].
  exists authUrl.
  exists (trace w ++
          [Console Stdout ("=== ReviewBoard OAuth2 Setup ===" +++ nl);
           Console Stdout (nl +++ "[OAuth] Please authorize the application by visiting this URL:" +++ nl)]).
  split; [exact HU|].
  split; [rewrite Ht, <- app_assoc; reflexivity|].
  split; [rewrite existsb_app; cbn; apply orb_false_r|].
  rewrite Hsv. split; reflexivity.
Qed.

Lemma url_is_shown_then_listener_started_witness :
  exists before : list Event,
    trace (snd (main_begin parseInt_3000 plain_URL setup_env setup_bytes setup_world))
    = before ++
      [Console Stdout setup_url;
       Console Stdout (nl +++ "[OAuth] Waiting for authorization..." +++ nl);
       Listen (Num 3000)] /\
    existsb is_listen before = false.
Proof.
  destruct (url_is_shown_then_listener_started
              parseInt_3000 plain_URL setup_env setup_bytes setup_world
              (snd (main_begin parseInt_3000 plain_URL setup_env setup_bytes setup_world))
              {| reviewboardUrl := "https://reviews.example.com";
                 clientId := "client";
                 clientSecret := "secret";
                 callbackPort := Num 3000;
                 redirectUri := "http://localhost:3000/callback";
                 session_state := generateState setup_bytes |}
              {| port := Num 3000; status := Binding; promise := Pending |})
    as [authUrl [before [HU [Ht [Hl _]]]]].
  - reflexivity.
  - exists before. cbn in HU. injection HU as <-. split; [exact Ht|exact Hl].
Defined.

End SetupFacts.

(** ** Jira instance registry *)

Section JiraFacts.

Import Jira.

Variable toLowerCase : string -> string.

Lemma getClient_unknown (s : State) (instance : string) :
  map_has (toLowerCase instance) (instances (fst s)) = false ->
  getClient toLowerCase instance s
  = (Throw (new_Error (unknown_instance_message instance (map_keys (instances (fst s))))), s).
Proof.
  intros H. unfold getClient, bind, get. cbn. rewrite H. reflexivity.
Qed.

(** C8: asking for an instance whose lower-cased name is not a key of
    the registry throws the error
    [Unknown Jira instance: <name>. Available instances: <keys>], where
    the keys are all the registered names, in registration order and
    separated by [", "]; registry, client cache and console are left as
    they were.  Only the lower-cased name matters: any other spelling of
    the name fails the same way.  This holds whatever the platform's
    [toLowerCase] does to the name. *)
Theorem unknown_instance_is_reported (s : State) (instance : string) :
  map_has (toLowerCase instance) (instances (fst s)) = false ->
  getClient toLowerCase instance s
  = (Throw (new_Error ("Unknown Jira instance: " +++ instance +++
                       ". Available instances: " +++
                       String.concat ", " (map_keys (instances (fst s))))),
     s) /\
  forall other : string,
    toLowerCase other = toLowerCase instance ->
    getClient toLowerCase other s
    = (Throw (new_Error ("Unknown Jira instance: " +++ other +++
                         ". Available instances: " +++
                         String.concat ", " (map_keys (instances (fst s))))),
       s).
Proof.
  intros H. split.
  - apply getClient_unknown. exact H.
  - intros other Ho. apply getClient_unknown. rewrite Ho. exact H.
Qed.

End JiraFacts.

Section JiraExamples.

Import Jira.

Lemma unknown_instance_is_reported_witness :
  map_keys (instances (fst (new_JiraClient toLowerCase_ascii two_instances)))
  = ["amd"; "ontrack"]%string /\
  getClient toLowerCase_ascii "foo" (new_JiraClient toLowerCase_ascii two_instances)
  = (Throw (new_Error "Unknown Jira instance: foo. Available instances: amd, ontrack"),
     new_JiraClient toLowerCase_ascii two_instances) /\
  getClient toLowerCase_ascii "FOO" (new_JiraClient toLowerCase_ascii two_instances)
  = (Throw (new_Error "Unknown Jira instance: FOO. Available instances: amd, ontrack"),
     new_JiraClient toLowerCase_ascii two_instances).
Proof.
  split; [reflexivity|].
  destruct (unknown_instance_is_reported
              toLowerCase_ascii (new_JiraClient toLowerCase_ascii two_instances) "foo" eq_refl)
    as [H1 H2].
  split; [exact H1|]. exact (H2 "FOO"%string eq_refl).
Defined.

End JiraExamples.


(** * Further properties of the code *)

(** ** Token manager: loading, failed saves, lost expiry, many callers *)

Section TokenManagerMore.

Import TokenManager.

(** The constructor only looks: it never writes and never posts.  It
    succeeds exactly when the file holds a record, and then holds that
    record; a missing file is reported, without an attempt to read it, by
    the message that names the path and the setup script. *)
Theorem constructor_loads_or_explains (path : string) (w : World) :
  disk (snd (new_OAuth2TokenManager path w)) = disk w /\
  clock (snd (new_OAuth2TokenManager path w)) = clock w /\
  writes (trace (snd (new_OAuth2TokenManager path w))) = writes (trace w) /\
  posts (trace (snd (new_OAuth2TokenManager path w))) = posts (trace w) /\
  match disk w with
  | Absent =>
      fst (new_OAuth2TokenManager path w)
      = Throw (new_Error ("OAuth configuration file not found at " +++ path +++
                          ". Please run the OAuth setup script first: npm run oauth-setup")) /\
      trace (snd (new_OAuth2TokenManager path w))
      = trace w ++ [Console Stderr ("[OAuth] Loading configuration from " +++ path);
                    FileExists path]
  | Unparseable =>
      (exists e, fst (new_OAuth2TokenManager path w) = Throw e) /\
      In (FileRead path) (trace (snd (new_OAuth2TokenManager path w)))
  | Stored cfg =>
      fst (new_OAuth2TokenManager path w) = Return {| config := cfg; configPath := path |} /\
      In (FileRead path) (trace (snd (new_OAuth2TokenManager path w)))
  end.
Proof.
  unfold new_OAuth2TokenManager, loadConfig, bind, modify, get. cbn.
  destruct (disk w) eqn:Ed; cbn; rewrite <- ?app_assoc, ?posts_app, ?writes_app; cbn;
    rewrite ?app_nil_r.
  - repeat split; assumption.
  - repeat split; try assumption; [eexists; reflexivity | rewrite !in_app_iff; cbn; tauto].
  - repeat split; try assumption. rewrite !in_app_iff; cbn; tauto.
Qed.

(** When the answer is good but the file cannot be written, the call
    fails with the refresh error although the new token is already held:
    memory has the new record, the file the old one.  A later call hands
    out the new token without asking again, as long as it is valid. *)
Theorem failed_save_keeps_new_token_in_memory
        (s : State) (e status latency lifetime d l2 : Z) (td : TokenData) (r2 : HttpResult) :
  expires_at (config (self s)) = Num e ->
  e <= clock (env s) + 5 * 60 * 1000 ->
  200 <= status < 300 ->
  disk_writable (env s) = false ->
  td_expires_in td = Some lifetime ->
  d + 5 * 60 * 1000 < lifetime * 1000 ->
  exists s' : State,
    getValidAccessToken (HttpResponse status (DataObject td)) latency s
    = (Throw (new_Error refresh_failed_message), s') /\
    access_token (config (self s')) = td_access_token td /\
    expires_at (config (self s')) = Num (clock (env s) + latency + lifetime * 1000) /\
    disk (env s') = disk (env s) /\
    writes (trace (env s')) = writes (trace (env s)) /\
    getValidAccessToken r2 l2 (in_env (elapse d) s')
    = (Return (td_access_token td), in_env (elapse d) s').
Proof.
  intros He Hexp Hs Hw Hin Hd.
  assert (X : isExpired s = true) by (apply (isExpired_iff s e He); exact Hexp).
  unfold getValidAccessToken at 1. rewrite (begin_when_expired s X).
  unfold getValidAccessToken_resume, bind.
  match goal with
  | |- context [refreshAccessToken_resume _ ?st] =>
      destruct (resume_unwritable st status td Hs) as [detail Hr];
        [cbn; exact Hw | rewrite Hr]
  end.
  eexists. split; [reflexivity|]. cbn.
  split; [reflexivity|].
  split; [rewrite Hin; reflexivity|].
  split; [reflexivity|].
  split.
  { rewrite <- !app_assoc, !writes_app. cbn. apply app_nil_r. }
  unfold getValidAccessToken. rewrite begin_when_valid; [reflexivity|].
  unfold isExpired. cbn. rewrite Hin. cbn. apply Z.leb_gt. unfold expiryBuffer. lia.
Qed.

Lemma failed_save_keeps_new_token_in_memory_witness :
  exists s' : State,
    getValidAccessToken scenario_answer 250 unwritable_state
    = (Throw (new_Error refresh_failed_message), s') /\
    access_token (config (self s')) = Some "AT2"%string /\
    disk (env s') = Stored expired_config.
Proof.
  destruct (failed_save_keeps_new_token_in_memory
              unwritable_state (1700000000000 - 1000) 200 250 3600 1000 0
              {| td_access_token := Some "AT2"%string; td_refresh_token := None;
                 td_token_type := None; td_expires_in := Some 3600 |}
              scenario_answer)
    as [s' [H1 [H2 [_ [H3 _]]]]].
  - reflexivity.
  - vm_compute. discriminate.
  - lia.
  - reflexivity.
  - reflexivity.
  - lia.
  - exists s'. repeat split; assumption.
Defined.

(** A 2xx answer whose body is JSON [null] is a failure like a transport
    error: reading the token from it throws, the refresh error is raised,
    and manager and file are as before. *)
Theorem null_body_fails_the_refresh (s : State) (e status latency : Z) :
  expires_at (config (self s)) = Num e ->
  e <= clock (env s) + 5 * 60 * 1000 ->
  200 <= status < 300 ->
  exists s' : State,
    getValidAccessToken (HttpResponse status DataNull) latency s
    = (Throw (new_Error refresh_failed_message), s') /\
    self s' = self s /\
    disk (env s') = disk (env s) /\
    writes (trace (env s')) = writes (trace (env s)) /\
    posts (trace (env s')) = posts (trace (env s)) ++ [refresh_request (config (self s))].
Proof.
  intros He Hexp Hs.
  assert (X : isExpired s = true) by (apply (isExpired_iff s e He); exact Hexp).
  unfold getValidAccessToken. rewrite (begin_when_expired s X).
  unfold getValidAccessToken_resume, refreshAccessToken_resume, try_catch, bind.
  rewrite (axios_settle_2xx _ _ Hs). cbn.
  eexists. split; [reflexivity|]. cbn.
  rewrite <- !app_assoc, !writes_app, !posts_app. cbn. rewrite !app_nil_r.
  repeat split.
Qed.

Lemma null_body_fails_the_refresh_witness :
  exists s' : State,
    getValidAccessToken (HttpResponse 200 DataNull) 250 expired_state
    = (Throw (new_Error refresh_failed_message), s') /\
    self s' = self expired_state.
Proof.
  destruct (null_body_fails_the_refresh expired_state (1700000000000 - 1000) 200 250)
    as [s' [H1 [H2 _]]].
  - reflexivity.
  - vm_compute. discriminate.
  - lia.
  - exists s'. split; assumption.
Defined.

Lemma run_cons (a : Action) (acts : list Action) (l : Loop) :
  run (a :: acts) l = run acts (step a l).
Proof. reflexivity. Qed.

Lemma step_invoke_expired (l : Loop) :
  isExpired (state l) = true ->
  step Invoke l = {| state := requested_state (state l); calls := calls l ++ [Suspended] |}.
Proof.
  intros X. unfold step. rewrite (begin_when_expired _ X). reflexivity.
Qed.

Lemma step_invoke_valid (l : Loop) :
  isExpired (state l) = false ->
  step Invoke l
  = {| state := state l;
       calls := calls l ++ [Settled (Return (access_token (config (self (state l)))))] |}.
Proof.
  intros X. unfold step. rewrite (begin_when_valid _ X). reflexivity.
Qed.


Lemma isExpired_requested (s : State) : isExpired (requested_state s) = isExpired s.
Proof. reflexivity. Qed.

(** A record whose [expires_at] is [NaN] is never refreshed: whatever
    calls are made and however much time passes, no request is sent, the
    manager and the file stay as they are, and every call returns the
    held token. *)
Theorem lost_expiry_is_never_refreshed (acts : list Action) (s : State) :
  expires_at (config (self s)) = NaN ->
  self (state (run acts (start s))) = self s /\
  trace (env (state (run acts (start s)))) = trace (env s) /\
  disk (env (state (run acts (start s)))) = disk (env s) /\
  Forall (fun c => c = Settled (Return (access_token (config (self s)))))
         (calls (run acts (start s))).
Proof.
  intros Hnan.
  assert (G : forall l : Loop,
             self (state l) = self s ->
             trace (env (state l)) = trace (env s) ->
             disk (env (state l)) = disk (env s) ->
             Forall (fun c => c = Settled (Return (access_token (config (self s))))) (calls l) ->
             self (state (run acts l)) = self s /\
             trace (env (state (run acts l))) = trace (env s) /\
             disk (env (state (run acts l))) = disk (env s) /\
             Forall (fun c => c = Settled (Return (access_token (config (self s)))))
                    (calls (run acts l))).
  { induction acts as [|a acts IH]; intros l H1 H2 H3 H4; [repeat split; assumption|].
    rewrite run_cons. destruct a as [|id r|d].
    - assert (V : isExpired (state l) = false).
      { unfold isExpired. rewrite H1, Hnan. reflexivity. }
      rewrite (step_invoke_valid l V). apply IH; cbn; try assumption.
      apply Forall_app. split; [exact H4|]. constructor; [|constructor].
      rewrite H1. reflexivity.
    - assert (E : step (Settle id r) l = l).
      { unfold step. destruct (nth_error (calls l) id) as [c|] eqn:En; [|reflexivity].
        apply nth_error_In in En. rewrite Forall_forall in H4.
        rewrite (H4 c En). reflexivity. }
      rewrite E. apply IH; assumption.
    - apply IH; cbn; assumption. }
  apply G; try reflexivity. constructor.
Qed.

Lemma lost_expiry_is_never_refreshed_witness :
  trace (env (state (run [Invoke; Elapse 86400000; Invoke; Settle 0 scenario_answer]
                         (start nan_state)))) = [] /\
  calls (run [Invoke; Elapse 86400000; Invoke; Settle 0 scenario_answer] (start nan_state))
  = [Settled (Return (Some "AT1"%string)); Settled (Return (Some "AT1"%string))].
Proof.
  destruct (lost_expiry_is_never_refreshed
              [Invoke; Elapse 86400000; Invoke; Settle 0 scenario_answer] nan_state eq_refl)
    as [_ [H _]].
  split; [exact H | reflexivity].
Defined.

(** However many callers find the token expired before the first answer
    is back, each of them sends a request, and all the requests are the
    same one: the refresh-token form with the refresh token and the client
    identity held when the first of them called. *)
Theorem every_concurrent_caller_posts (n : nat) (l : Loop) :
  isExpired (state l) = true ->
  posts (trace (env (state (run (repeat Invoke n) l))))
  = posts (trace (env (state l))) ++
    repeat (HttpPost (reviewboard_url (config (self (state l))) +++ "/oauth2/token/")
                     [("grant_type", "refresh_token");
                      ("refresh_token", show (refresh_token (config (self (state l)))));
                      ("client_id", client_id (config (self (state l))));
                      ("client_secret", client_secret (config (self (state l))))]%string)
           n /\
  calls (run (repeat Invoke n) l) = calls l ++ repeat Suspended n /\
  self (state (run (repeat Invoke n) l)) = self (state l) /\
  disk (env (state (run (repeat Invoke n) l))) = disk (env (state l)).
Proof.
  revert l. induction n as [|n IH]; intros l X.
  - cbn. rewrite !app_nil_r. repeat split.
  - cbn [repeat]. rewrite run_cons, (step_invoke_expired l X).
    destruct (IH {| state := requested_state (state l); calls := calls l ++ [Suspended] |})
      as [A [B [C D]]]; [exact X|].
    rewrite A, B, C, D. cbn.
    rewrite <- !app_assoc, !posts_app. cbn. rewrite <- !app_assoc. repeat split.
Qed.

Lemma every_concurrent_caller_posts_witness :
  posts (trace (env (state (run (repeat Invoke 3) (start expired_state)))))
  = repeat (HttpPost "https://reviews.example.com/oauth2/token/"
                     [("grant_type", "refresh_token"); ("refresh_token", "RT1");
                      ("client_id", "client"); ("client_secret", "secret")]%string)
           3.
Proof.
  destruct (every_concurrent_caller_posts 3 (start expired_state) eq_refl) as [H _].
  rewrite H. reflexivity.
Defined.



(** A token that lives five minutes or less is never good enough: right
    after a successful refresh the manager considers it expired again, so
    the next call, whenever it comes, sends another refresh request. *)
Theorem short_lived_token_is_refreshed_every_time
        (s : State) (e status latency lifetime d : Z) (td : TokenData) :
  expires_at (config (self s)) = Num e ->
  e <= clock (env s) + 5 * 60 * 1000 ->
  200 <= status < 300 ->
  disk_writable (env s) = true ->
  td_expires_in td = Some lifetime ->
  lifetime * 1000 <= 5 * 60 * 1000 ->
  0 <= d ->
  exists s' : State,
    getValidAccessToken (HttpResponse status (DataObject td)) latency s
    = (Return (td_access_token td), s') /\
    fst (getValidAccessToken_begin (in_env (elapse d) s')) = Awaiting /\
    posts (trace (env (snd (getValidAccessToken_begin (in_env (elapse d) s')))))
    = posts (trace (env s')) ++ [refresh_request (config (self s'))].
Proof.
  intros He Hexp Hs Hw Hin Hl Hd.
  assert (X : isExpired s = true) by (apply (isExpired_iff s e He); exact Hexp).
  unfold getValidAccessToken. rewrite (begin_when_expired s X).
  unfold getValidAccessToken_resume, bind.
  rewrite resume_success by (simpl; assumption). cbn.
  eexists. split; [reflexivity|].
  match goal with
  | |- context [getValidAccessToken_begin ?st] =>
      assert (X' : isExpired st = true)
  end.
  { unfold isExpired. cbn. rewrite Hin. cbn. apply Z.leb_le. unfold expiryBuffer. lia. }
  rewrite (begin_when_expired _ X'). cbn.
  split; [reflexivity|].
  rewrite <- !app_assoc, !posts_app. cbn. rewrite <- !app_assoc. reflexivity.
Qed.

Lemma short_lived_token_is_refreshed_every_time_witness :
  exists s' : State,
    getValidAccessToken
      (HttpResponse 200 (DataObject (mkTokenData (Some "AT2"%string) None None (Some 300))))
      250 expired_state
    = (Return (Some "AT2"%string), s') /\
    fst (getValidAccessToken_begin (in_env (elapse 0) s')) = Awaiting.
Proof.
  destruct (short_lived_token_is_refreshed_every_time
              expired_state (1700000000000 - 1000) 200 250 300 0
              (mkTokenData (Some "AT2"%string) None None (Some 300)))
    as [s' [H1 [H2 _]]].
  - reflexivity.
  - vm_compute. discriminate.
  - lia.
  - reflexivity.
  - reflexivity.
  - lia.
  - lia.
  - exists s'. split; assumption.
Defined.

End TokenManagerMore.

(** ** Authenticated client: base URL, failed construction, interceptor *)

Section GatewayMore.

Import TokenManager Gateway.

Lemma strip_trailing_slash_app (s : string) : strip_trailing_slash (s +++ "/") = s.
Proof.
  induction s as [|c rest IH]; [reflexivity|].
  destruct rest as [|c' r]; [reflexivity|].
  simpl append in *.
  change (strip_trailing_slash (String c (String c' (r +++ "/"))))
    with (String c (strip_trailing_slash (String c' (r +++ "/")))).
  rewrite IH. reflexivity.
Qed.

(** [replace(/\/$/, "")] takes away exactly one trailing slash: a string
    that ends in a slash loses that slash and nothing else (a second
    slash before it stays), and any other string is returned as it is. *)
Theorem one_trailing_slash_is_dropped (s : string) :
  strip_trailing_slash (s +++ "/") = s /\
  ((forall t : string, s <> t +++ "/") -> strip_trailing_slash s = s).
Proof.
  split; [apply strip_trailing_slash_app|].
  induction s as [|c rest IH]; intros Hno; [reflexivity|].
  destruct rest as [|c' r].
  - cbn. destruct (Ascii.eqb_spec c "/"%char) as [->|Hne]; [|reflexivity].
    exfalso. apply (Hno EmptyString). reflexivity.
  - change (strip_trailing_slash (String c (String c' r)))
      with (String c (strip_trailing_slash (String c' r))).
    rewrite IH; [reflexivity|].
    intros t Ht. apply (Hno (String c t)). cbn. rewrite Ht. reflexivity.
Qed.

Lemma one_trailing_slash_is_dropped_witness :
  strip_trailing_slash "https://reviews.example.com" = "https://reviews.example.com"%string.
Proof.
  apply (one_trailing_slash_is_dropped "https://reviews.example.com").
  intros t Ht.
  assert (L : String.length ("https://reviews.example.com")%string
              = String.length (t +++ "/")) by (rewrite <- Ht; reflexivity).
  do 28 (destruct t as [|? t]; [cbn in Ht; discriminate|]; cbn in L).
  destruct t; cbn in L; discriminate.
Defined.

Lemma getClient_oauth_absent
      (getenv : string -> Js.str) (configPath : string) (p : Process) :
  rbClient p = None ->
  truthy (getenv "REVIEWBOARD_TOKEN"%string) && truthy (getenv "REVIEWBOARD_URL"%string) = false ->
  disk (world p) = Absent ->
  getClient getenv configPath p
  = (Throw (new_Error (not_found_message configPath)),
     {| rbClient := None;
        world := emit (FileExists configPath)
                   (emit (Console Stderr ("[OAuth] Loading configuration from " +++ configPath))
                      (emit (Console Stderr "[Setup] Using OAuth2 authentication")
                            (world p))) |}).
Proof.
  intros Hnone Hmode Hd.
  unfold getClient, bind, get. rewrite Hnone. cbn. rewrite Hmode.
  unfold in_world, setup_log, new_OAuth2TokenManager, loadConfig, bind, modify, get.
  cbn. rewrite Hd, Hnone. reflexivity.
Qed.

Lemma getClient_oauth_stored
      (getenv : string -> Js.str) (configPath : string) (p : Process) (cfg : OAuthConfig) :
  rbClient p = None ->
  truthy (getenv "REVIEWBOARD_TOKEN"%string) && truthy (getenv "REVIEWBOARD_URL"%string) = false ->
  disk (world p) = Stored cfg ->
  exists (c : ReviewBoardClient) (p2 : Process),
    getClient getenv configPath p = (Return c, p2) /\
    rbClient p2 = Some c /\
    tokenManager c = Some {| config := cfg; configPath := configPath |} /\
    baseUrl c = strip_trailing_slash (reviewboard_url cfg).
Proof.
  intros Hnone Hmode Hd.
  unfold getClient, bind, get. rewrite Hnone. cbn. rewrite Hmode.
  unfold in_world, setup_log, new_OAuth2TokenManager, loadConfig, new_ReviewBoardClient,
    bind, modify, get.
  cbn. rewrite Hd. cbn.
  do 2 eexists. split; [reflexivity|]. repeat split.
Qed.

(** A [getClient()] that fails is not remembered.  In the OAuth2 mode
    with the credential file missing it throws the error that names the
    file and the setup script, and leaves the singleton empty; once the
    file is there, the next [getClient()] builds the client from it. *)
Theorem failed_construction_is_retried
        (getenv : string -> Js.str) (configPath : string) (p : Process) (cfg : OAuthConfig) :
  rbClient p = None ->
  truthy (getenv "REVIEWBOARD_TOKEN"%string) && truthy (getenv "REVIEWBOARD_URL"%string) = false ->
  disk (world p) = Absent ->
  exists p1 : Process,
    getClient getenv configPath p
    = (Throw (new_Error ("OAuth configuration file not found at " +++ configPath +++
                         ". Please run the OAuth setup script first: npm run oauth-setup")),
       p1) /\
    rbClient p1 = None /\
    reads (trace (world p1)) = reads (trace (world p)) ++ [FileExists configPath] /\
    exists (c : ReviewBoardClient) (p2 : Process),
      getClient getenv configPath (with_file cfg p1) = (Return c, p2) /\
      rbClient p2 = Some c /\
      tokenManager c = Some {| config := cfg; configPath := configPath |} /\
      baseUrl c = strip_trailing_slash (reviewboard_url cfg).
Proof.
  intros Hnone Hmode Hd.
  rewrite (getClient_oauth_absent getenv configPath p Hnone Hmode Hd).
  eexists. split; [reflexivity|].
  split; [reflexivity|].
  split.
  { cbn. unfold reads. rewrite <- !app_assoc, filter_app. reflexivity. }
  apply getClient_oauth_stored; [reflexivity | exact Hmode | reflexivity].
Qed.

Lemma failed_construction_is_retried_witness :
  exists p1 : Process,
    fst (getClient oauth_env "/srv/oauth-config.json" (fresh_process Absent))
    = Throw (new_Error "OAuth configuration file not found at /srv/oauth-config.json. Please run the OAuth setup script first: npm run oauth-setup") /\
    snd (getClient oauth_env "/srv/oauth-config.json" (fresh_process Absent)) = p1 /\
    rbClient p1 = None.
Proof.
  destruct (failed_construction_is_retried
              oauth_env "/srv/oauth-config.json" (fresh_process Absent) expired_config
              eq_refl eq_refl eq_refl)
    as [p1 [H1 [H2 _]]].
  exists p1. rewrite H1. repeat split. exact H2.
Defined.

(** When the token cannot be refreshed the request is not prepared: the
    interceptor fails with the very error of the token manager, the
    manager inside the client is as it was, and the file is untouched. *)
Theorem request_is_not_prepared_when_refresh_fails
        (c : ReviewBoardClient) (m : OAuth2TokenManager) (extra : Headers)
        (r : HttpResult) (latency e : Z) (w : World) :
  oauth_client c m ->
  expires_at (config m) = Num e ->
  e <= clock w + 5 * 60 * 1000 ->
  transport_failure r = true ->
  exists (c' : ReviewBoardClient) (w' : World),
    prepare_request extra r latency (c, w)
    = (Throw (new_Error "Failed to refresh access token. You may need to run the OAuth setup again: npm run oauth-setup"),
       (c', w')) /\
    tokenManager c' = Some m /\
    client c' = client c /\
    disk w' = disk w /\
    posts (trace w') = posts (trace w) ++ [refresh_request (config m)].
Proof.
  intros [Hb Hm] He Hexp Hf.
  unfold prepare_request. rewrite Hb, Hm.
  assert (X : isExpired {| self := m; env := w |} = true).
  { apply (isExpired_iff _ e); [exact He | exact Hexp]. }
  unfold getValidAccessToken. rewrite (begin_when_expired _ X).
  unfold getValidAccessToken_resume, bind.
  match goal with
  | |- context [refreshAccessToken_resume r ?st] =>
      destruct (resume_failure st r Hf) as [detail Hr]; rewrite Hr
  end.
  do 2 eexists. split; [reflexivity|]. cbn.
  repeat split.
  rewrite <- ?app_assoc, !posts_app. cbn. rewrite <- ?app_assoc. reflexivity.
Qed.

Lemma request_is_not_prepared_when_refresh_fails_witness :
  exists (c' : ReviewBoardClient) (w' : World),
    prepare_request [] (NetworkError "ECONNREFUSED") 250
                    (example_oauth_client, env expired_state)
    = (Throw (new_Error refresh_failed_message), (c', w')) /\
    tokenManager c' = Some (self expired_state).
Proof.
  destruct (request_is_not_prepared_when_refresh_fails
              example_oauth_client (self expired_state) []
              (NetworkError "ECONNREFUSED") 250 (1700000000000 - 1000) (env expired_state))
    as [c' [w' [H1 [H2 _]]]].
  - split; reflexivity.
  - reflexivity.
  - vm_compute. discriminate.
  - reflexivity.
  - exists c', w'. split; assumption.
Defined.

(** A request made after the token expired carries the token just
    issued, not the stale one, whatever [Authorization] the call itself
    asked for; the client's manager then holds the refreshed record, and
    the next request, made while that token is valid, carries the same
    token without any further effect. *)
Theorem request_carries_the_fresh_token
        (c : ReviewBoardClient) (m : OAuth2TokenManager) (extra extra2 : Headers)
        (status latency e lifetime d l2 : Z) (td : TokenData) (r2 : HttpResult) (w : World) :
  oauth_client c m ->
  expires_at (config m) = Num e ->
  e <= clock w + 5 * 60 * 1000 ->
  200 <= status < 300 ->
  disk_writable w = true ->
  td_expires_in td = Some lifetime ->
  d + 5 * 60 * 1000 < lifetime * 1000 ->
  exists (h h2 : Headers) (c' : ReviewBoardClient) (w' : World),
    prepare_request extra (HttpResponse status (DataObject td)) latency (c, w)
    = (Return h, (c', w')) /\
    header "Authorization" h = Some ("Bearer " +++ show (td_access_token td)) /\
    tokenManager c'
    = Some {| config := refreshed td (clock w + latency) (config m);
              configPath := configPath m |} /\
    disk w' = Stored (refreshed td (clock w + latency) (config m)) /\
    prepare_request extra2 r2 l2 (c', elapse d w') = (Return h2, (c', elapse d w')) /\
    header "Authorization" h2 = Some ("Bearer " +++ show (td_access_token td)).
Proof.
  intros [Hb Hm] He Hexp Hs Hw Hin Hd.
  unfold prepare_request at 1. rewrite Hb, Hm.
  assert (X : isExpired {| self := m; env := w |} = true).
  { apply (isExpired_iff _ e); [exact He | exact Hexp]. }
  unfold getValidAccessToken. rewrite (begin_when_expired _ X).
  unfold getValidAccessToken_resume, bind.
  rewrite resume_success by (simpl; assumption). cbn.
  do 4 eexists. split; [reflexivity|].
  split; [apply header_set_same|].
  split; [reflexivity|]. split; [reflexivity|].
  unfold prepare_request, with_manager. cbn. rewrite Hb.
  unfold getValidAccessToken. rewrite begin_when_valid.
  - cbn. split; [reflexivity|]. apply header_set_same.
  - unfold isExpired. cbn. rewrite Hin. cbn. apply Z.leb_gt. unfold expiryBuffer. lia.
Qed.

Lemma request_carries_the_fresh_token_witness :
  exists (h : Headers) (st : ReviewBoardClient * World),
    prepare_request [("Authorization", "token stale")]%string scenario_answer 250
                    (example_oauth_client, env expired_state)
    = (Return h, st) /\
    header "Authorization" h = Some "Bearer AT2"%string.
Proof.
  destruct (request_carries_the_fresh_token
              example_oauth_client (self expired_state)
              [("Authorization", "token stale")]%string []
              200 250 (1700000000000 - 1000) 3600 1000 0
              (mkTokenData (Some "AT2"%string) None None (Some 3600))
              scenario_answer (env expired_state))
    as [h [h2 [c' [w' [H1 [H2 _]]]]]].
  - split; reflexivity.
  - reflexivity.
  - vm_compute. discriminate.
  - lia.
  - reflexivity.
  - reflexivity.
  - lia.
  - exists h, (c', w'). split; [exact H1 | exact H2].
Defined.

End GatewayMore.

(** ** Authorization flow: state token, configuration, callback, outcome *)

Section SetupMore.

Import Setup.

Lemma hex_digit_is_hex (n : nat) : is_hex (hex_digit n) = true.
Proof.
  do 16 (destruct n as [|n]; [reflexivity|]). reflexivity.
Qed.

Lemma byte_survives_hex (b : ascii) :
  ascii_of_nat (16 * hex_value (hex_digit (Nat.div (nat_of_ascii b) 16))
                + hex_value (hex_digit (Nat.modulo (nat_of_ascii b) 16))) = b.
Proof.
  destruct b as [[] [] [] [] [] [] [] []]; vm_compute; reflexivity.
Qed.

Lemma bytes_of_generateState (bs : list ascii) : bytes_of_state (generateState bs) = bs.
Proof.
  induction bs as [|b bs IH]; [reflexivity|].
  cbn [generateState bytes_of_state]. rewrite IH, byte_survives_hex. reflexivity.
Qed.

(** The state token has two lower-case hexadecimal digits per random
    byte (sixty-four for the thirty-two bytes the flow draws) and loses
    nothing: different bytes give different tokens. *)
Theorem state_token_is_faithful_hex (bs bs' : list ascii) :
  String.length (generateState bs) = (2 * List.length bs)%nat /\
  all_hex (generateState bs) = true /\
  (generateState bs = generateState bs' -> bs = bs').
Proof.
  split; [|split].
  - induction bs as [|b bs IH]; [reflexivity|].
    cbn [generateState String.length List.length]. rewrite IH. lia.
  - induction bs as [|b bs IH]; [reflexivity|].
    cbn [generateState all_hex]. rewrite !hex_digit_is_hex, IH. reflexivity.
  - intros H. rewrite <- (bytes_of_generateState bs), <- (bytes_of_generateState bs'), H.
    reflexivity.
Qed.

Lemma state_token_is_faithful_hex_witness :
  String.length (generateState setup_bytes) = 64%nat /\
  bytes_of_state (generateState setup_bytes) = setup_bytes.
Proof.
  destruct (state_token_is_faithful_hex setup_bytes (bytes_of_state (generateState setup_bytes)))
    as [H1 [_ H3]].
  split; [exact H1|]. symmetry. apply H3. reflexivity.
Defined.

(** With any of the three required variables unset or empty the flow
    ends with [process.exit(1)] at once: it prints to the console and does
    nothing else.  No listener is started, no request is sent, no file is
    written, whatever would have arrived on the callback port. *)
Theorem missing_configuration_stops_the_flow
        (parseInt : string -> Js.num)
        (URL_with_params : string -> list (string * string) -> option string)
        (CONFIG_FILE : string)
        (getenv : string -> Js.str) (randomBytes : list ascii)
        (evs : list ServerEvent) (r : HttpResult) (latency : Z) (w : World) :
  configured getenv = false ->
  exists w' : World,
    main parseInt URL_with_params CONFIG_FILE getenv randomBytes evs r latency w
    = (Exited 1, w') /\
    existsb is_listen (trace w') = existsb is_listen (trace w) /\
    posts (trace w') = posts (trace w) /\
    writes (trace w') = writes (trace w) /\
    disk w' = disk w.
Proof.
  intros Hc. unfold configured in Hc.
  unfold main, main_begin.
  assert (G : negb (truthy (getenv "REVIEWBOARD_URL"%string))
              || negb (truthy (getenv "REVIEWBOARD_CLIENT_ID"%string))
              || negb (truthy (getenv "REVIEWBOARD_CLIENT_SECRET"%string)) = true).
  { destruct (truthy (getenv "REVIEWBOARD_URL"%string));
      destruct (truthy (getenv "REVIEWBOARD_CLIENT_ID"%string));
      destruct (truthy (getenv "REVIEWBOARD_CLIENT_SECRET"%string));
      try reflexivity; discriminate. }
  rewrite G.
  eexists. split; [reflexivity|].
  unfold missing_configuration, err, out, emit. cbn [fold_left trace disk].
  rewrite <- !app_assoc, existsb_app, posts_app, writes_app.
  cbn [app existsb filter is_listen is_post is_write posts writes].
  rewrite orb_false_r, !app_nil_r. repeat split.
Qed.

Lemma missing_configuration_stops_the_flow_witness :
  exists w' : World,
    main parseInt_3000 plain_URL "/srv/oauth-config.json" (fun _ => None) setup_bytes
         [Bound; Incoming honest_callback] TokenManager.scenario_answer 250 setup_world
    = (Exited 1, w') /\
    disk w' = Absent.
Proof.
  destruct (missing_configuration_stops_the_flow
              parseInt_3000 plain_URL "/srv/oauth-config.json" (fun _ => None) setup_bytes
              [Bound; Incoming honest_callback] TokenManager.scenario_answer 250 setup_world
              eq_refl)
    as [w' [H1 [_ [_ [_ H2]]]]].
  exists w'. split; assumption.
Defined.

(** However the callback promise comes to be rejected (the user denied
    the grant, the callback lacked its parameters, the port could not be
    bound), the flow reports the reason on the error stream and ends with
    [process.exit(1)]; no token request is sent and no file is written. *)
Theorem rejected_callback_aborts_the_flow
        (parseInt : string -> Js.num)
        (URL_with_params : string -> list (string * string) -> option string)
        (CONFIG_FILE : string)
        (getenv : string -> Js.str) (randomBytes : list ascii)
        (evs : list ServerEvent) (r : HttpResult) (latency : Z)
        (w w0 : World) (f : Flow) (server : Server) (e : Error) :
  main_begin parseInt URL_with_params getenv randomBytes w = (Await (f, server), w0) ->
  promise (fst (pump evs (server, w0))) = Rejected e ->
  exists w' : World,
    main parseInt URL_with_params CONFIG_FILE getenv randomBytes evs r latency w
    = (Exited 1, w') /\
    posts (trace w') = posts (trace w) /\
    writes (trace w') = writes (trace w) /\
    disk w' = disk w /\
    trace w'
    = trace (snd (pump evs (server, w0))) ++
      [ConsoleDetail Stderr (nl +++ "[Error] OAuth setup failed:") (Message (message e));
       Exit 1].
Proof.
  intros Hb Hp.
  destruct (main_begin_await _ _ _ _ _ _ _ _ Hb)
    as [authUrl [_ [_ [_ [_ [Hd [_ Ht]]]]]]].
  unfold main. rewrite Hb.
  destruct (pump_frame evs (server, w0)) as [A [B [C _]]].
  destruct (pump evs (server, w0)) as [sv w2]. cbn in *.
  unfold main_callback. rewrite Hp. cbn.
  eexists. split; [reflexivity|]. cbn.
  rewrite <- !app_assoc, posts_app, writes_app. cbn. rewrite !app_nil_r.
  rewrite A, B, C, Hd, Ht, posts_app, writes_app. cbn. rewrite !app_nil_r.
  repeat split.
Qed.

Lemma rejected_callback_aborts_the_flow_witness :
  exists w' : World,
    main parseInt_3000 plain_URL "/srv/oauth-config.json" setup_env setup_bytes
         [Bound; Incoming denied_callback] TokenManager.scenario_answer 250 setup_world
    = (Exited 1, w') /\
    posts (trace w') = [] /\
    disk w' = Absent.
Proof.
  destruct (rejected_callback_aborts_the_flow
              parseInt_3000 plain_URL "/srv/oauth-config.json" setup_env setup_bytes
              [Bound; Incoming denied_callback] TokenManager.scenario_answer 250
              setup_world
              (snd (main_begin parseInt_3000 plain_URL setup_env setup_bytes setup_world))
              setup_flow setup_server
              (new_Error "Authorization failed: access_denied"))
    as [w' [H1 [H2 [_ [H3 _]]]]].
  - reflexivity.
  - reflexivity.
  - exists w'. split; [exact H1|]. split; [exact H2|exact H3].
Defined.

(** How a listening server answers a [/callback] request.  An [error]
    parameter decides the matter whatever else is there: status 400 and a
    promise rejected with [Authorization failed: <error>].  Without it, a
    request with both [code] and [state] non-empty gets status 200 and
    resolves the promise with the two values; any other request (a
    parameter missing or empty) gets status 400 and rejects the promise
    with [Missing code or state parameter]. *)
Theorem callback_request_is_classified
        (port : Js.num) (w : World) (evs : list ServerEvent) (req : ParsedUrl) :
  status (fst (pump evs (startCallbackServer port w))) = Listening ->
  pathname req = Some "/callback"%string ->
  (truthy_query (param "error" req) = true ->
   promise (fst (deliver (Incoming req) (pump evs (startCallbackServer port w))))
   = Rejected (new_Error ("Authorization failed: " +++ show_query (param "error" req))) /\
   trace (snd (deliver (Incoming req) (pump evs (startCallbackServer port w))))
   = trace (snd (pump evs (startCallbackServer port w))) ++
     [Respond 400 (denied_page (param "error" req)); CloseServer]) /\
  (truthy_query (param "error" req) = false ->
   truthy_query (param "code" req) && truthy_query (param "state" req) = true ->
   promise (fst (deliver (Incoming req) (pump evs (startCallbackServer port w))))
   = Resolved {| code := param "code" req; state := param "state" req |} /\
   trace (snd (deliver (Incoming req) (pump evs (startCallbackServer port w))))
   = trace (snd (pump evs (startCallbackServer port w))) ++
     [Respond 200 success_page; CloseServer]) /\
  (truthy_query (param "error" req) = false ->
   truthy_query (param "code" req) && truthy_query (param "state" req) = false ->
   promise (fst (deliver (Incoming req) (pump evs (startCallbackServer port w))))
   = Rejected (new_Error "Missing code or state parameter") /\
   trace (snd (deliver (Incoming req) (pump evs (startCallbackServer port w))))
   = trace (snd (pump evs (startCallbackServer port w))) ++
     [Respond 400 invalid_page; CloseServer]).
Proof.
  intros Hl Hp.
  assert (Inv : unsettled_while_open (fst (pump evs (startCallbackServer port w)))).
  { apply pump_keeps_unsettled. intros _. reflexivity. }
  destruct (pump evs (startCallbackServer port w)) as [sv w1]. cbn in Hl, Inv.
  assert (Hpend : promise sv = Pending) by (apply Inv; right; exact Hl).
  unfold deliver. rewrite Hl. unfold handler. rewrite Hp. cbn [String.eqb].
  replace ("/callback" =? "/callback")%string with true by reflexivity.
  split; [|split].
  - intros He. rewrite He. unfold close, settle, respond, emit. cbn. rewrite Hpend.
    cbn. rewrite <- app_assoc. split; reflexivity.
  - intros He Hc. rewrite He, Hc. unfold close, settle, respond, emit. cbn. rewrite Hpend.
    cbn. rewrite <- app_assoc. split; reflexivity.
  - intros He Hc. rewrite He, Hc. unfold close, settle, respond, emit. cbn. rewrite Hpend.
    cbn. rewrite <- app_assoc. split; reflexivity.
Qed.

Lemma callback_request_is_classified_witness :
  promise (fst (deliver (Incoming denied_callback)
                        (pump [Bound] (startCallbackServer (Num 3000) setup_world))))
  = Rejected (new_Error "Authorization failed: access_denied").
Proof.
  destruct (callback_request_is_classified (Num 3000) setup_world [Bound] denied_callback)
    as [H _].
  - reflexivity.
  - reflexivity.
  - apply H. reflexivity.
Defined.

Lemma main_begin_flow
      (parseInt : string -> Js.num)
      (URL_with_params : string -> list (string * string) -> option string)
      (getenv : string -> Js.str) (randomBytes : list ascii)
      (w w1 : World) (f : Flow) (server : Server) :
  main_begin parseInt URL_with_params getenv randomBytes w = (Await (f, server), w1) ->
  configured getenv = true /\
  reviewboardUrl f = show (getenv "REVIEWBOARD_URL"%string) /\
  clientId f = show (getenv "REVIEWBOARD_CLIENT_ID"%string) /\
  clientSecret f = show (getenv "REVIEWBOARD_CLIENT_SECRET"%string) /\
  redirectUri f = "http://localhost:" +++ show_num (callbackPort f) +++ "/callback".
Proof.
  unfold main_begin, configured.
  destruct (truthy (getenv "REVIEWBOARD_URL"%string));
    destruct (truthy (getenv "REVIEWBOARD_CLIENT_ID"%string));
    destruct (truthy (getenv "REVIEWBOARD_CLIENT_SECRET"%string));
    cbn [negb orb andb]; try discriminate.
  match goal with
  | |- context [match URL_with_params ?a ?b with _ => _ end] =>
      destruct (URL_with_params a b) as [authUrl|]; [|discriminate]
  end.
  unfold startCallbackServer. intros H. injection H as <- _ _.
  repeat split.
Qed.

Lemma pump_clock (evs : list ServerEvent) (x : Server * World) :
  clock (snd (pump evs x)) = clock (snd x).
Proof.
  revert x. induction evs as [|ev evs IH]; intros x; [reflexivity|].
  destruct (pump_cases ev evs x) as [E|E]; rewrite E; [|reflexivity].
  rewrite IH. destruct x as [sv w]. unfold deliver.
  destruct ev as [| e | req]; destruct (status sv); try reflexivity;
    unfold handler;
    (destruct (pathname req) as [path|]; [|reflexivity]);
    (destruct (path =? "/callback")%string; [|reflexivity]);
    (destruct (truthy_query (param "error" req));
     [|destruct (truthy_query (param "code" req) && truthy_query (param "state" req))]);
    reflexivity.
Qed.

Lemma main_exchange_success
      (CONFIG_FILE : string) (f : Flow) (status : Z) (td : TokenData) (w : World) :
  200 <= status < 300 ->
  disk_writable w = true ->
  main_exchange CONFIG_FILE f (HttpResponse status (DataObject td)) w
  = (Completed,
     {| clock := clock w;
        disk := Stored (record_of f td (clock w));
        disk_writable := true;
        trace := trace w ++
                 [Console Stdout "[OAuth] Successfully obtained access token";
                  Console Stdout ("[OAuth] Saving configuration to " +++ CONFIG_FILE);
                  FileWrite CONFIG_FILE (record_of f td (clock w));
                  Console Stdout "[OAuth] Configuration saved successfully";
                  Console Stdout (nl +++ "✓ OAuth2 setup completed successfully!");
                  Console Stdout (nl +++ "You can now use the ReviewBoard MCP server with OAuth2 authentication.");
                  Console Stdout "The server will automatically refresh the access token when needed."] |}).
Proof.
  intros Hs Hw.
  unfold main_exchange, exchangeCodeForToken_resume, saveConfig, try_catch, bind, modify, get.
  rewrite (axios_settle_2xx _ _ Hs). cbn.
  destruct w as [now d wr t]. cbn in *. subst wr. cbn.
  unfold out, store, emit, record_of. cbn. rewrite <- !app_assoc. reflexivity.
Qed.

(** What [main] does after the token request settled, in every case: it
    sends nothing more; either it completes, having written one record,
    or it exits with code 1, having written none. *)
Lemma main_exchange_cases (CONFIG_FILE : string) (f : Flow) (r : HttpResult) (w : World) :
  posts (trace (snd (main_exchange CONFIG_FILE f r w))) = posts (trace w) /\
  ((fst (main_exchange CONFIG_FILE f r w) = Completed /\
    exists cfg : OAuthConfig,
      disk (snd (main_exchange CONFIG_FILE f r w)) = Stored cfg /\
      writes (trace (snd (main_exchange CONFIG_FILE f r w)))
      = writes (trace w) ++ [FileWrite CONFIG_FILE cfg]) \/
   (fst (main_exchange CONFIG_FILE f r w) = Exited 1 /\
    disk (snd (main_exchange CONFIG_FILE f r w)) = disk w /\
    writes (trace (snd (main_exchange CONFIG_FILE f r w))) = writes (trace w))).
Proof.
  unfold main_exchange, exchangeCodeForToken_resume, saveConfig, try_catch, bind, modify, get.
  destruct w as [now d wr t].
  destruct (axios_settle r) as [[|td]|e]; [| destruct wr |]; cbn;
    rewrite <- ?app_assoc, ?posts_app, ?writes_app; cbn; rewrite ?app_nil_r;
    (split; [reflexivity|]).
  - right. repeat split.
  - left. split; [reflexivity|]. eexists. split; reflexivity.
  - right. repeat split.
  - right. repeat split.
Qed.

Lemma main_after_matching_callback
      (parseInt : string -> Js.num)
      (URL_with_params : string -> list (string * string) -> option string)
      (CONFIG_FILE : string)
      (getenv : string -> Js.str) (randomBytes : list ascii)
      (evs : list ServerEvent) (r : HttpResult) (latency : Z)
      (w w0 : World) (f : Flow) (server : Server) (cb : Callback) :
  main_begin parseInt URL_with_params getenv randomBytes w = (Await (f, server), w0) ->
  promise (fst (pump evs (server, w0))) = Resolved cb ->
  state cb = QString (generateState randomBytes) ->
  main parseInt URL_with_params CONFIG_FILE getenv randomBytes evs r latency w
  = main_exchange CONFIG_FILE f r
      (elapse latency
         (exchangeCodeForToken_begin f (code cb)
            (out "[OAuth] Authorization code received" (snd (pump evs (server, w0)))))).
Proof.
  intros Hb Hp Hst.
  destruct (main_begin_await _ _ _ _ _ _ _ _ Hb) as [_ [_ [Hs _]]].
  unfold main. rewrite Hb.
  destruct (pump evs (server, w0)) as [sv w2]. cbn in Hp |- *.
  unfold main_callback. rewrite Hp.
  assert (D : state_differs (session_state f) (state cb) = false).
  { rewrite Hs, Hst. cbn. rewrite String.eqb_refl. reflexivity. }
  rewrite D. reflexivity.
Qed.

(** The good case from end to end: when the callback brings the
    generated state, the token endpoint answers with a 2xx response and
    the file can be written, the flow sends exactly one request (the
    exchange of the code it was given), completes, and leaves on disk the
    record made of the answer's tokens, the configured client identity and
    URL, and an expiry of the answer's arrival time plus
    [expires_in * 1000]. *)
Theorem matching_callback_completes_the_setup
        (parseInt : string -> Js.num)
        (URL_with_params : string -> list (string * string) -> option string)
        (CONFIG_FILE : string)
        (getenv : string -> Js.str) (randomBytes : list ascii)
        (evs : list ServerEvent) (status latency : Z) (td : TokenData)
        (w w0 : World) (f : Flow) (server : Server) (cb : Callback) :
  main_begin parseInt URL_with_params getenv randomBytes w = (Await (f, server), w0) ->
  promise (fst (pump evs (server, w0))) = Resolved cb ->
  state cb = QString (generateState randomBytes) ->
  200 <= status < 300 ->
  disk_writable w = true ->
  exists w' : World,
    main parseInt URL_with_params CONFIG_FILE getenv randomBytes evs
         (HttpResponse status (DataObject td)) latency w
    = (Completed, w') /\
    posts (trace w') = posts (trace w) ++ [exchange_request f (code cb)] /\
    writes (trace w')
    = writes (trace w) ++ [FileWrite CONFIG_FILE (record_of f td (clock w + latency))] /\
    disk w' = Stored (record_of f td (clock w + latency)) /\
    client_id (record_of f td (clock w + latency))
    = show (getenv "REVIEWBOARD_CLIENT_ID"%string) /\
    client_secret (record_of f td (clock w + latency))
    = show (getenv "REVIEWBOARD_CLIENT_SECRET"%string) /\
    reviewboard_url (record_of f td (clock w + latency))
    = show (getenv "REVIEWBOARD_URL"%string).
Proof.
  intros Hb Hp Hst Hs Hw.
  rewrite (main_after_matching_callback _ _ _ _ _ _ _ _ _ _ _ _ _ Hb Hp Hst).
  destruct (main_begin_await _ _ _ _ _ _ _ _ Hb)
    as [authUrl [_ [_ [_ [Hc [_ [Hdw Ht]]]]]]].
  destruct (main_begin_flow _ _ _ _ _ _ _ _ Hb) as [_ [F1 [F2 [F3 _]]]].
  destruct (pump_frame evs (server, w0)) as [A [B [_ D]]].
  pose proof (pump_clock evs (server, w0)) as K.
  destruct (pump evs (server, w0)) as [sv w2]. cbn in A, B, D, K |- *.
  rewrite main_exchange_success; [|exact Hs|cbn; rewrite D, Hdw; exact Hw].
  eexists. split; [reflexivity|]. cbn.
  rewrite K, Hc.
  rewrite <- !app_assoc, !posts_app, !writes_app. cbn. rewrite ?app_nil_r.
  rewrite A, B, Ht, posts_app, writes_app. cbn. rewrite ?app_nil_r.
  repeat split; assumption.
Qed.

Lemma matching_callback_completes_the_setup_witness :
  exists w' : World,
    main parseInt_3000 plain_URL "/srv/oauth-config.json" setup_env setup_bytes
         [Bound; Incoming favicon_request; Incoming honest_callback] full_answer 250 setup_world
    = (Completed, w') /\
    disk w'
    = Stored {| access_token := Some "AT1"%string;
                refresh_token := Some "RT1"%string;
                token_type := Some "Bearer"%string;
                expires_at := Num (1700000000000 + 250 + 3600000);
                client_id := "client";
                client_secret := "secret";
                reviewboard_url := "https://reviews.example.com" |}.
Proof.
  destruct (matching_callback_completes_the_setup
              parseInt_3000 plain_URL "/srv/oauth-config.json" setup_env setup_bytes
              [Bound; Incoming favicon_request; Incoming honest_callback] 200 250
              {| td_access_token := Some "AT1"%string;
                 td_refresh_token := Some "RT1"%string;
                 td_token_type := Some "Bearer"%string;
                 td_expires_in := Some 3600 |}
              setup_world
              (snd (main_begin parseInt_3000 plain_URL setup_env setup_bytes setup_world))
              setup_flow setup_server
              {| code := QString "c0de"; state := QString (generateState setup_bytes) |})
    as [w' [H1 [_ [_ [H2 _]]]]].
  - reflexivity.
  - reflexivity.
  - reflexivity.
  - lia.
  - reflexivity.
  - exists w'. split; [exact H1 | exact H2].
Defined.

(** The credential file is all or nothing.  Whatever the environment,
    the callback traffic and the token endpoint do, a run either
    completes, having written the file exactly once, or does not
    complete, and then the file is as it was and nothing was written. *)
Theorem credential_file_is_all_or_nothing
        (parseInt : string -> Js.num)
        (URL_with_params : string -> list (string * string) -> option string)
        (CONFIG_FILE : string)
        (getenv : string -> Js.str) (randomBytes : list ascii)
        (evs : list ServerEvent) (r : HttpResult) (latency : Z) (w : World) :
  (fst (main parseInt URL_with_params CONFIG_FILE getenv randomBytes evs r latency w)
   = Completed /\
   exists cfg : OAuthConfig,
     disk (snd (main parseInt URL_with_params CONFIG_FILE getenv randomBytes evs r latency w))
     = Stored cfg /\
     writes (trace (snd (main parseInt URL_with_params CONFIG_FILE getenv randomBytes
                              evs r latency w)))
     = writes (trace w) ++ [FileWrite CONFIG_FILE cfg]) \/
  (fst (main parseInt URL_with_params CONFIG_FILE getenv randomBytes evs r latency w)
   <> Completed /\
   disk (snd (main parseInt URL_with_params CONFIG_FILE getenv randomBytes evs r latency w))
   = disk w /\
   writes (trace (snd (main parseInt URL_with_params CONFIG_FILE getenv randomBytes
                            evs r latency w)))
   = writes (trace w)).
Proof.
  unfold main.
  destruct (main_begin parseInt URL_with_params getenv randomBytes w)
    as [[o|[f server]] w0] eqn:Hb.
  - (* stopped before listening *)
    right. unfold main_begin in Hb.
    destruct (negb (truthy (getenv "REVIEWBOARD_URL"%string))
              || negb (truthy (getenv "REVIEWBOARD_CLIENT_ID"%string))
              || negb (truthy (getenv "REVIEWBOARD_CLIENT_SECRET"%string))).
    + injection Hb as <- <-. cbn [fst snd].
      unfold missing_configuration, err, out, emit. cbn [fold_left trace disk].
      rewrite <- !app_assoc, writes_app.
      cbn [app filter is_write writes]. rewrite app_nil_r.
      repeat split. discriminate.
    + match type of Hb with
      | context [match URL_with_params ?a ?b with _ => _ end] =>
          destruct (URL_with_params a b) as [authUrl|]
      end.
      * unfold startCallbackServer in Hb. discriminate.
      * injection Hb as <- <-. cbn. rewrite writes_app. cbn. rewrite app_nil_r.
        repeat split. discriminate.
  - destruct (main_begin_await _ _ _ _ _ _ _ _ Hb)
      as [authUrl [_ [_ [_ [_ [Hd [_ Ht]]]]]]].
    assert (W0 : writes (trace w0) = writes (trace w)).
    { rewrite Ht, writes_app. cbn. apply app_nil_r. }
    destruct (pump_frame evs (server, w0)) as [_ [B [C _]]].
    destruct (pump evs (server, w0)) as [sv w2]. cbn in B, C.
    unfold main_callback.
    destruct (promise sv) as [|cb|e].
    + right. cbn. rewrite B, C, W0, Hd. repeat split. discriminate.
    + destruct (state_differs (session_state f) (state cb)).
      * right. cbn. rewrite <- !app_assoc, writes_app. cbn. rewrite app_nil_r.
        rewrite B, C, W0, Hd. repeat split. discriminate.
      * match goal with
        | |- context [main_exchange CONFIG_FILE f r ?wx] =>
            assert (Wx : writes (trace wx) = writes (trace w))
              by (cbn; rewrite <- ?app_assoc, !writes_app; cbn; rewrite ?app_nil_r;
                  rewrite B; exact W0);
            destruct (main_exchange_cases CONFIG_FILE f r wx)
              as [_ [[Ho [cfg [Hdk Hwr]]] | [Ho [Hdk Hwr]]]]
        end.
        -- left. split; [exact Ho|]. exists cfg. split; [exact Hdk|].
           rewrite Hwr, Wx. reflexivity.
        -- cbn in Hdk. right. rewrite Ho. split; [discriminate|].
           split; [rewrite Hdk, C; exact Hd | rewrite Hwr; exact Wx].
    + right. cbn. rewrite <- !app_assoc, writes_app. cbn. rewrite app_nil_r.
      rewrite B, C, W0, Hd. repeat split. discriminate.
Qed.

(** The flow sends at most one request: nothing at all, or the exchange
    of the code that arrived together with the generated state. *)
Theorem only_request_is_the_authorized_exchange
        (parseInt : string -> Js.num)
        (URL_with_params : string -> list (string * string) -> option string)
        (CONFIG_FILE : string)
        (getenv : string -> Js.str) (randomBytes : list ascii)
        (evs : list ServerEvent) (r : HttpResult) (latency : Z) (w : World) :
  posts (trace (snd (main parseInt URL_with_params CONFIG_FILE getenv randomBytes
                          evs r latency w)))
  = posts (trace w) \/
  exists (f : Flow) (server : Server) (w0 : World) (cb : Callback),
    main_begin parseInt URL_with_params getenv randomBytes w = (Await (f, server), w0) /\
    promise (fst (pump evs (server, w0))) = Resolved cb /\
    state cb = QString (generateState randomBytes) /\
    posts (trace (snd (main parseInt URL_with_params CONFIG_FILE getenv randomBytes
                            evs r latency w)))
    = posts (trace w) ++
      [HttpPost (show (getenv "REVIEWBOARD_URL"%string) +++ "/oauth2/token/")
                [("grant_type", "authorization_code");
                 ("code", show_query (code cb));
                 ("redirect_uri", redirectUri f);
                 ("client_id", show (getenv "REVIEWBOARD_CLIENT_ID"%string));
                 ("client_secret", show (getenv "REVIEWBOARD_CLIENT_SECRET"%string))]%string].
Proof.
  destruct (main_begin parseInt URL_with_params getenv randomBytes w)
    as [[o|[f server]] w0] eqn:Hb.
  - left. unfold main. rewrite Hb. cbn [snd]. unfold main_begin in Hb.
    destruct (negb (truthy (getenv "REVIEWBOARD_URL"%string))
              || negb (truthy (getenv "REVIEWBOARD_CLIENT_ID"%string))
              || negb (truthy (getenv "REVIEWBOARD_CLIENT_SECRET"%string))).
    + injection Hb as _ <-.
      unfold missing_configuration, err, out, emit. cbn [fold_left trace].
      rewrite <- !app_assoc, posts_app.
      cbn [app filter is_post posts]. apply app_nil_r.
    + match type of Hb with
      | context [match URL_with_params ?a ?b with _ => _ end] =>
          destruct (URL_with_params a b) as [authUrl|]
      end.
      * unfold startCallbackServer in Hb. discriminate.
      * injection Hb as _ <-. cbn. rewrite posts_app. cbn. apply app_nil_r.
  - destruct (main_begin_await _ _ _ _ _ _ _ _ Hb)
      as [authUrl [_ [Hst [_ [_ [_ [_ Ht]]]]]]].
    destruct (main_begin_flow _ _ _ _ _ _ _ _ Hb) as [_ [F1 [F2 [F3 _]]]].
    assert (P0 : posts (trace w0) = posts (trace w)).
    { rewrite Ht, posts_app. cbn. apply app_nil_r. }
    pose proof (pump_frame evs (server, w0)) as [A _]. cbn in A.
    destruct (promise (fst (pump evs (server, w0)))) as [|cb|e] eqn:Hp.
    + left. unfold main. rewrite Hb.
      destruct (pump evs (server, w0)) as [sv w2]. cbn in Hp, A |- *.
      unfold main_callback. rewrite Hp. cbn. rewrite A. exact P0.
    + destruct (state_differs (session_state f) (state cb)) eqn:D.
      * left. unfold main. rewrite Hb.
        destruct (pump evs (server, w0)) as [sv w2]. cbn in Hp, A |- *.
        unfold main_callback. rewrite Hp, D. cbn.
        rewrite <- !app_assoc, posts_app. cbn. rewrite app_nil_r, A. exact P0.
      * right. exists f, server, w0, cb.
        assert (Hcb : state cb = QString (generateState randomBytes)).
        { rewrite <- Hst. destruct (state cb) as [|t|l]; cbn in D; try discriminate.
          apply negb_false_iff in D. apply String.eqb_eq in D. rewrite D. reflexivity. }
        split; [reflexivity|]. split; [exact Hp|]. split; [exact Hcb|].
        rewrite (main_after_matching_callback _ _ _ _ _ _ _ _ _ _ _ _ _ Hb Hp Hcb).
        match goal with
        | |- context [main_exchange CONFIG_FILE f r ?wx] =>
            destruct (main_exchange_cases CONFIG_FILE f r wx) as [E _]; rewrite E
        end.
        cbn. rewrite <- ?app_assoc, !posts_app. cbn. rewrite A, P0.
        unfold exchange_request. rewrite F1, F2, F3. reflexivity.
    + left. unfold main. rewrite Hb.
      destruct (pump evs (server, w0)) as [sv w2]. cbn in Hp, A |- *.
      unfold main_callback. rewrite Hp. cbn.
      rewrite <- !app_assoc, posts_app. cbn. rewrite app_nil_r, A. exact P0.
Qed.

(** When the token endpoint cannot be reached or answers with another
    status than 2xx, the flow reports
    [Failed to exchange code for token: <the transport's message>], ends
    with [process.exit(1)] and leaves the file alone. *)
Theorem failed_exchange_writes_nothing
        (parseInt : string -> Js.num)
        (URL_with_params : string -> list (string * string) -> option string)
        (CONFIG_FILE : string)
        (getenv : string -> Js.str) (randomBytes : list ascii)
        (evs : list ServerEvent) (r : HttpResult) (latency : Z)
        (w w0 : World) (f : Flow) (server : Server) (cb : Callback) :
  main_begin parseInt URL_with_params getenv randomBytes w = (Await (f, server), w0) ->
  promise (fst (pump evs (server, w0))) = Resolved cb ->
  state cb = QString (generateState randomBytes) ->
  TokenManager.transport_failure r = true ->
  exists (w' : World) (e : Error),
    main parseInt URL_with_params CONFIG_FILE getenv randomBytes evs r latency w
    = (Exited 1, w') /\
    axios_settle r = Throw e /\
    In (ConsoleDetail Stderr (nl +++ "[Error] OAuth setup failed:")
                      (Message ("Failed to exchange code for token: " +++ message e)))
       (trace w') /\
    disk w' = disk w /\
    writes (trace w') = writes (trace w).
Proof.
  intros Hb Hp Hst Hf.
  rewrite (main_after_matching_callback _ _ _ _ _ _ _ _ _ _ _ _ _ Hb Hp Hst).
  destruct (main_begin_await _ _ _ _ _ _ _ _ Hb)
    as [authUrl [_ [_ [_ [_ [Hd [_ Ht]]]]]]].
  destruct (pump_frame evs (server, w0)) as [_ [B [C _]]].
  destruct (pump evs (server, w0)) as [sv w2]. cbn in B, C |- *.
  destruct (axios_settle_failure r Hf) as [e He].
  unfold main_exchange, exchangeCodeForToken_resume, try_catch, bind, modify.
  rewrite He. cbn.
  eexists. exists e. split; [reflexivity|]. split; [reflexivity|]. cbn.
  split; [rewrite !in_app_iff; cbn; tauto|].
  split; [rewrite C; exact Hd|].
  rewrite <- ?app_assoc, !writes_app. cbn. rewrite ?app_nil_r, B, Ht, writes_app.
  cbn. apply app_nil_r.
Qed.

Lemma failed_exchange_writes_nothing_witness :
  exists w' : World,
    main parseInt_3000 plain_URL "/srv/oauth-config.json" setup_env setup_bytes
         [Bound; Incoming honest_callback] (HttpResponse 400 DataNull) 250 setup_world
    = (Exited 1, w') /\
    In (ConsoleDetail Stderr (nl +++ "[Error] OAuth setup failed:")
                      (Message "Failed to exchange code for token: Request failed with status code 400"))
       (trace w') /\
    disk w' = Absent.
Proof.
  destruct (failed_exchange_writes_nothing
              parseInt_3000 plain_URL "/srv/oauth-config.json" setup_env setup_bytes
              [Bound; Incoming honest_callback] (HttpResponse 400 DataNull) 250
              setup_world
              (snd (main_begin parseInt_3000 plain_URL setup_env setup_bytes setup_world))
              setup_flow setup_server
              {| code := QString "c0de"; state := QString (generateState setup_bytes) |})
    as [w' [e [H1 [H2 [H3 [H4 _]]]]]].
  - reflexivity.
  - reflexivity.
  - reflexivity.
  - reflexivity.
  - exists w'. split; [exact H1|]. split; [|exact H4].
    cbn in H2. injection H2 as <-. exact H3.
Defined.

Lemma deliver_quiet (ev : ServerEvent) (sv : Server) (w : World) :
  is_quiet ev = true ->
  promise (fst (deliver ev (sv, w))) = promise sv /\
  exists printed : list Event,
    trace (snd (deliver ev (sv, w))) = trace w ++ printed /\
    forallb is_console printed = true.
Proof.
  intros Hq. destruct ev as [| e | req]; [| discriminate |].
  - unfold deliver. destruct (status sv); cbn;
      (split; [reflexivity|]);
      first [ exists []; rewrite app_nil_r; split; reflexivity
            | eexists; split; reflexivity ].
  - assert (Hp : pathname req <> Some "/callback"%string).
    { cbn in Hq. destruct (pathname req) as [path|]; [|discriminate].
      intros H. injection H as ->. discriminate. }
    unfold deliver. destruct (status sv);
      rewrite ?(handler_off_callback req (sv, w) Hp); cbn;
      (split; [reflexivity|]); exists []; rewrite app_nil_r; split; reflexivity.
Qed.

Lemma pump_quiet (evs : list ServerEvent) (sv : Server) (w : World) :
  forallb is_quiet evs = true ->
  promise (fst (pump evs (sv, w))) = promise sv /\
  exists printed : list Event,
    trace (snd (pump evs (sv, w))) = trace w ++ printed /\
    forallb is_console printed = true.
Proof.
  revert sv w. induction evs as [|ev evs IH]; intros sv w Hq.
  - cbn. split; [reflexivity|]. exists []. rewrite app_nil_r. split; reflexivity.
  - cbn in Hq. apply andb_true_iff in Hq. destruct Hq as [Hq Hqs].
    destruct (pump_cases ev evs (sv, w)) as [E|E]; rewrite E.
    2:{ split; [reflexivity|]. exists []. rewrite app_nil_r. split; reflexivity. }
    destruct (deliver_quiet ev sv w Hq) as [P1 [t1 [T1 C1]]].
    destruct (deliver ev (sv, w)) as [sv1 w1]. cbn in P1, T1.
    destruct (IH sv1 w1 Hqs) as [P2 [t2 [T2 C2]]].
    split; [rewrite P2; exact P1|].
    exists (t1 ++ t2). split.
    + rewrite T2, T1, app_assoc. reflexivity.
    + rewrite forallb_app, C1, C2. reflexivity.
Qed.

(** The flow has no timeout.  As long as nothing but requests for other
    paths arrives, it stays suspended on the callback: it does not exit,
    sends nothing, answers nothing, writes nothing, and only the console
    has new lines. *)
Theorem flow_waits_for_the_callback_path
        (parseInt : string -> Js.num)
        (URL_with_params : string -> list (string * string) -> option string)
        (CONFIG_FILE : string)
        (getenv : string -> Js.str) (randomBytes : list ascii)
        (evs : list ServerEvent) (r : HttpResult) (latency : Z)
        (w w0 : World) (f : Flow) (server : Server) :
  main_begin parseInt URL_with_params getenv randomBytes w = (Await (f, server), w0) ->
  forallb is_quiet evs = true ->
  exists (w' : World) (printed : list Event),
    main parseInt URL_with_params CONFIG_FILE getenv randomBytes evs r latency w
    = (Waiting, w') /\
    trace w' = trace w0 ++ printed /\
    forallb is_console printed = true /\
    disk w' = disk w.
Proof.
  intros Hb Hq.
  destruct (main_begin_await _ _ _ _ _ _ _ _ Hb)
    as [authUrl [_ [_ [Hsv [_ [Hd _]]]]]].
  unfold main. rewrite Hb.
  destruct (pump_quiet evs server w0 Hq) as [P [printed [T C]]].
  destruct (pump_frame evs (server, w0)) as [_ [_ [D _]]].
  destruct (pump evs (server, w0)) as [sv w2]. cbn in P, T, D |- *.
  unfold main_callback. rewrite P, Hsv. cbn.
  exists w2, printed. split; [reflexivity|]. split; [exact T|]. split; [exact C|].
  rewrite D. exact Hd.
Qed.

Lemma flow_waits_for_the_callback_path_witness :
  exists w' : World,
    main parseInt_3000 plain_URL "/srv/oauth-config.json" setup_env setup_bytes
         [Bound; Incoming favicon_request; Incoming favicon_request]
         TokenManager.scenario_answer 250 setup_world
    = (Waiting, w') /\
    disk w' = Absent.
Proof.
  destruct (flow_waits_for_the_callback_path
              parseInt_3000 plain_URL "/srv/oauth-config.json" setup_env setup_bytes
              [Bound; Incoming favicon_request; Incoming favicon_request]
              TokenManager.scenario_answer 250 setup_world
              (snd (main_begin parseInt_3000 plain_URL setup_env setup_bytes setup_world))
              setup_flow setup_server)
    as [w' [printed [H1 [_ [_ H2]]]]].
  - reflexivity.
  - reflexivity.
  - exists w'. split; assumption.
Defined.

(** The two programs fit together: the record a completed setup leaves
    on disk is the one the token manager loads, and while the token it
    holds has more than five minutes to live the manager hands it out
    without a refresh. *)
Theorem manager_starts_from_the_written_record
        (parseInt : string -> Js.num)
        (URL_with_params : string -> list (string * string) -> option string)
        (CONFIG_FILE : string)
        (getenv : string -> Js.str) (randomBytes : list ascii)
        (evs : list ServerEvent) (status latency lifetime d l2 : Z) (td : TokenData)
        (r2 : HttpResult)
        (w w0 : World) (f : Flow) (server : Server) (cb : Callback) :
  main_begin parseInt URL_with_params getenv randomBytes w = (Await (f, server), w0) ->
  promise (fst (pump evs (server, w0))) = Resolved cb ->
  state cb = QString (generateState randomBytes) ->
  200 <= status < 300 ->
  disk_writable w = true ->
  td_expires_in td = Some lifetime ->
  0 <= d ->
  d + 5 * 60 * 1000 < lifetime * 1000 ->
  exists (w' w'' : World) (m : TokenManager.OAuth2TokenManager),
    main parseInt URL_with_params CONFIG_FILE getenv randomBytes evs
         (HttpResponse status (DataObject td)) latency w
    = (Completed, w') /\
    TokenManager.new_OAuth2TokenManager CONFIG_FILE w' = (Return m, w'') /\
    TokenManager.config m = record_of f td (clock w + latency) /\
    TokenManager.getValidAccessToken
      r2 l2 {| TokenManager.self := m; TokenManager.env := elapse d w'' |}
    = (Return (td_access_token td),
       {| TokenManager.self := m; TokenManager.env := elapse d w'' |}).
Proof.
  intros Hb Hp Hst Hs Hw Hin Hd0 Hd.
  rewrite (main_after_matching_callback _ _ _ _ _ _ _ _ _ _ _ _ _ Hb Hp Hst).
  destruct (main_begin_await _ _ _ _ _ _ _ _ Hb)
    as [authUrl [_ [_ [_ [Hc [_ [Hdw _]]]]]]].
  destruct (pump_frame evs (server, w0)) as [_ [_ [_ D]]].
  pose proof (pump_clock evs (server, w0)) as K.
  destruct (pump evs (server, w0)) as [sv w2]. cbn in D, K |- *.
  rewrite main_exchange_success; [|exact Hs|cbn; rewrite D, Hdw; exact Hw].
  unfold TokenManager.new_OAuth2TokenManager, TokenManager.loadConfig, bind, modify, get.
  cbn.
  do 3 eexists. split; [reflexivity|]. split; [reflexivity|]. cbn.
  rewrite K, Hc. split; [reflexivity|].
  unfold TokenManager.getValidAccessToken.
  rewrite begin_when_valid; [reflexivity|].
  unfold TokenManager.isExpired. cbn. rewrite Hin. cbn.
  apply Z.leb_gt. unfold TokenManager.expiryBuffer. lia.
Qed.

Lemma manager_starts_from_the_written_record_witness :
  exists (w' w'' : World) (m : TokenManager.OAuth2TokenManager),
    main parseInt_3000 plain_URL "/srv/oauth-config.json" setup_env setup_bytes
         [Bound; Incoming honest_callback] full_answer 250 setup_world
    = (Completed, w') /\
    TokenManager.new_OAuth2TokenManager "/srv/oauth-config.json" w' = (Return m, w'') /\
    TokenManager.getValidAccessToken
      TokenManager.scenario_answer 0
      {| TokenManager.self := m; TokenManager.env := elapse 60000 w'' |}
    = (Return (Some "AT1"%string),
       {| TokenManager.self := m; TokenManager.env := elapse 60000 w'' |}).
Proof.
  destruct (manager_starts_from_the_written_record
              parseInt_3000 plain_URL "/srv/oauth-config.json" setup_env setup_bytes
              [Bound; Incoming honest_callback] 200 250 3600 60000 0
              {| td_access_token := Some "AT1"%string;
                 td_refresh_token := Some "RT1"%string;
                 td_token_type := Some "Bearer"%string;
                 td_expires_in := Some 3600 |}
              TokenManager.scenario_answer
              setup_world
              (snd (main_begin parseInt_3000 plain_URL setup_env setup_bytes setup_world))
              setup_flow setup_server
              {| code := QString "c0de"; state := QString (generateState setup_bytes) |})
    as [w' [w'' [m [H1 [H2 [_ H3]]]]]].
  - reflexivity.
  - reflexivity.
  - reflexivity.
  - lia.
  - reflexivity.
  - reflexivity.
  - lia.
  - lia.
  - exists w', w'', m. split; [exact H1|]. split; [exact H2|exact H3].
Defined.

End SetupMore.

(** ** Jira registry: discovery, keys, entries, cached clients *)

Section JiraMore.

Import Jira.

Variable toLowerCase : string -> string.

Lemma map_get_set_same {V : Type} (k : string) (v : V) (m : JsMap V) :
  map_get k (map_set k v m) = Some v.
Proof.
  induction m as [|[k' v'] m IH]; cbn.
  - rewrite String.eqb_refl. reflexivity.
  - destruct (String.eqb_spec k' k) as [->|Hne]; cbn.
    + rewrite String.eqb_refl. reflexivity.
    + destruct (String.eqb_spec k' k); [contradiction|exact IH].
Qed.

Lemma map_get_set_other {V : Type} (k k' : string) (v : V) (m : JsMap V) :
  k' <> k -> map_get k (map_set k' v m) = map_get k m.
Proof.
  intros Hne. induction m as [|[k0 v0] m IH]; cbn.
  - destruct (String.eqb_spec k' k); [contradiction|reflexivity].
  - destruct (String.eqb_spec k0 k') as [->|H0]; cbn.
    + destruct (String.eqb_spec k' k); [contradiction|reflexivity].
    + destruct (String.eqb_spec k0 k); [reflexivity|exact IH].
Qed.

Lemma map_keys_set {V : Type} (k : string) (v : V) (m : JsMap V) :
  map_keys (map_set k v m) = if map_has k m then map_keys m else map_keys m ++ [k].
Proof.
  unfold map_has, map_keys. induction m as [|[k' v'] m IH]; cbn; [reflexivity|].
  destruct (String.eqb_spec k' k) as [->|Hne]; cbn; [reflexivity|].
  rewrite IH. destruct (map_get k m); reflexivity.
Qed.

Lemma map_has_keys {V : Type} (k : string) (m : JsMap V) :
  map_has k m = true <-> In k (map_keys m).
Proof.
  unfold map_has, map_keys. induction m as [|[k' v'] m IH]; cbn.
  - split; [discriminate|contradiction].
  - destruct (String.eqb_spec k' k) as [->|Hne].
    + split; [intros _; left; reflexivity | reflexivity].
    + rewrite IH. split; [intros H; right; exact H | intros [H|H]; [contradiction|exact H]].
Qed.

Lemma NoDup_snoc {A : Type} (l : list A) (x : A) :
  NoDup l -> ~ In x l -> NoDup (l ++ [x]).
Proof.
  intros N. induction N as [|a l Ha N IH]; intros Hx; cbn.
  - constructor; [intros []|constructor].
  - constructor.
    + rewrite in_app_iff. intros [H|[H|[]]]; [contradiction|].
      apply Hx. left. symmetry. exact H.
    + apply IH. intros H. apply Hx. right. exact H.
Qed.

Lemma lower_idempotent (c : ascii) : lower (lower c) = lower c.
Proof.
  destruct c as [[] [] [] [] [] [] [] []]; vm_compute; reflexivity.
Qed.

Lemma toLowerCase_ascii_idempotent (s : string) :
  toLowerCase_ascii (toLowerCase_ascii s) = toLowerCase_ascii s.
Proof.
  induction s as [|c s IH]; [reflexivity|]. cbn. rewrite lower_idempotent, IH. reflexivity.
Qed.

Lemma register_returns (env : Env) (name : string) (s : State) :
  fst (register toLowerCase env name s) = Return tt.
Proof.
  unfold register. destruct s as [j out].
  destruct (truthy (getenv env ("JIRA_INSTANCE_" +++ name +++ "_URL"))
            && truthy (getenv env ("JIRA_INSTANCE_" +++ name +++ "_EMAIL"))
            && truthy (getenv env ("JIRA_INSTANCE_" +++ name +++ "_TOKEN"))); reflexivity.
Qed.

Lemma registrations_run (env : Env) (names : list string) (m : M State unit) (s s1 : State) :
  m s = (Return tt, s1) ->
  fold_left (fun m name => m ;;; register toLowerCase env name) names m s
  = (Return tt, register_all toLowerCase env names s1).
Proof.
  revert m s1. induction names as [|n names IH]; intros m s1 Hm; [exact Hm|].
  cbn [fold_left]. unfold register_all. cbn [fold_left]. apply IH.
  unfold bind. rewrite Hm.
  pose proof (register_returns env n s1) as R.
  destruct (register toLowerCase env n s1) as [c s2]. cbn in R. subst c. reflexivity.
Qed.

Lemma new_JiraClient_registry (env : Env) :
  fst (new_JiraClient toLowerCase env)
  = fst (register_all toLowerCase env (instance_names env)
                      ({| clients := []; instances := [] |},
                       ["[Setup] Initializing Jira client manager"%string])).
Proof.
  unfold new_JiraClient.
  unfold bind at 1. unfold log at 1, modify. cbn [fst snd].
  unfold bind at 1.
  rewrite (registrations_run env (instance_names env) (ret tt) _ _ eq_refl).
  destruct (register_all toLowerCase env (instance_names env) _) as [j out].
  unfold bind, get, log, modify, ret. cbn.
  destruct (Nat.eqb (List.length (instances j)) 0); reflexivity.
Qed.

(** What one registration does to the object. *)
Lemma register_effect (env : Env) (name : string) (j : JiraClient) (out : list string) :
  fst (snd (register toLowerCase env name (j, out))) = j \/
  (exists u e t : string,
      getenv env ("JIRA_INSTANCE_" +++ name +++ "_URL") = Some u /\ u <> EmptyString /\
      getenv env ("JIRA_INSTANCE_" +++ name +++ "_EMAIL") = Some e /\ e <> EmptyString /\
      getenv env ("JIRA_INSTANCE_" +++ name +++ "_TOKEN") = Some t /\ t <> EmptyString /\
      fst (snd (register toLowerCase env name (j, out)))
      = {| clients := clients j;
           instances := map_set (toLowerCase name) {| url := u; email := e; token := t |}
                                (instances j) |}).
Proof.
  unfold register.
  destruct (getenv env ("JIRA_INSTANCE_" +++ name +++ "_URL")) as [u|]; [|left; reflexivity].
  destruct (getenv env ("JIRA_INSTANCE_" +++ name +++ "_EMAIL")) as [e|];
    [|left; cbn; rewrite andb_false_r; reflexivity].
  destruct (getenv env ("JIRA_INSTANCE_" +++ name +++ "_TOKEN")) as [t|];
    [|left; cbn; rewrite andb_false_r; reflexivity].
  cbn [truthy]. unfold truthy_string.
  destruct (String.eqb_spec u ""); [left; reflexivity|].
  destruct (String.eqb_spec e ""); [left; reflexivity|].
  destruct (String.eqb_spec t ""); [left; reflexivity|].
  right. exists u, e, t. cbn. repeat split; assumption.
Qed.

Lemma register_all_invariant (env : Env) (P : JiraClient -> Prop) :
  (forall (name : string) (j : JiraClient) (out : list string),
      P j -> P (fst (snd (register toLowerCase env name (j, out))))) ->
  forall (names : list string) (s : State), P (fst s) -> P (fst (register_all toLowerCase env names s)).
Proof.
  intros Hstep names. induction names as [|n names IH]; intros s Hs; [exact Hs|].
  unfold register_all. cbn [fold_left]. apply IH.
  destruct s as [j out]. apply Hstep. exact Hs.
Qed.

(** The registry the constructor builds has every key once and in lower
    case, and no client yet: clients are only built on demand.  That the
    keys are in lower case rests on lower-casing a lower-cased string
    changing nothing, which is all that is asked of [toLowerCase]. *)
Theorem registry_keys_are_lower_case_and_unique (env : Env) :
  (forall s : string, toLowerCase (toLowerCase s) = toLowerCase s) ->
  NoDup (map_keys (instances (fst (new_JiraClient toLowerCase env)))) /\
  Forall (fun k => toLowerCase k = k) (map_keys (instances (fst (new_JiraClient toLowerCase env)))) /\
  clients (fst (new_JiraClient toLowerCase env)) = [].
Proof.
  intros toLowerCase_idempotent.
  rewrite new_JiraClient_registry.
  apply (register_all_invariant env
           (fun j => NoDup (map_keys (instances j)) /\
                     Forall (fun k => toLowerCase k = k) (map_keys (instances j)) /\
                     clients j = [])).
  - intros name j out [N [L C]].
    destruct (register_effect env name j out) as [E | [u [e [t [_ [_ [_ [_ [_ [_ E]]]]]]]]]];
      rewrite E; [repeat split; assumption|].
    cbn [instances clients]. rewrite map_keys_set.
    destruct (map_has (toLowerCase name) (instances j)) eqn:H; [repeat split; assumption|].
    repeat split; [| |exact C].
    + apply NoDup_snoc; [exact N|].
      intros Hin. apply map_has_keys in Hin. congruence.
    + apply Forall_app. split; [exact L|]. constructor; [|constructor].
      apply toLowerCase_idempotent.
  - cbn. repeat split; constructor.
Qed.

(** Every entry of the registry comes from a complete triple of
    variables of one instance name: its key is that name in lower case,
    and its URL, e-mail and token are the three non-empty values. *)
Theorem registry_entries_are_complete_triples
        (env : Env) (k : string) (cfg : InstanceConfig) :
  map_get k (instances (fst (new_JiraClient toLowerCase env))) = Some cfg ->
  exists name : string,
    k = toLowerCase name /\
    getenv env ("JIRA_INSTANCE_" +++ name +++ "_URL") = Some (url cfg) /\
    getenv env ("JIRA_INSTANCE_" +++ name +++ "_EMAIL") = Some (email cfg) /\
    getenv env ("JIRA_INSTANCE_" +++ name +++ "_TOKEN") = Some (token cfg) /\
    url cfg <> EmptyString /\ email cfg <> EmptyString /\ token cfg <> EmptyString.
Proof.
  rewrite new_JiraClient_registry. revert k cfg.
  apply (register_all_invariant env
           (fun j => forall k cfg,
                map_get k (instances j) = Some cfg ->
                exists name : string,
                  k = toLowerCase name /\
                  getenv env ("JIRA_INSTANCE_" +++ name +++ "_URL") = Some (url cfg) /\
                  getenv env ("JIRA_INSTANCE_" +++ name +++ "_EMAIL") = Some (email cfg) /\
                  getenv env ("JIRA_INSTANCE_" +++ name +++ "_TOKEN") = Some (token cfg) /\
                  url cfg <> EmptyString /\ email cfg <> EmptyString /\
                  token cfg <> EmptyString)).
  - intros name j out IH k cfg.
    destruct (register_effect env name j out)
      as [E | [u [e [t [Hu [Nu [He [Ne [Ht [Nt E]]]]]]]]]]; rewrite E; [apply IH|].
    cbn [instances].
    destruct (String.eqb_spec (toLowerCase name) k) as [<-|Hne].
    + rewrite map_get_set_same. intros H. injection H as <-.
      exists name. cbn. repeat split; assumption.
    + rewrite map_get_set_other by exact Hne. apply IH.
  - cbn. intros k cfg H. discriminate.
Qed.

Lemma set_add_keeps (x y : string) (s : list string) : In x s -> In x (set_add y s).
Proof.
  intros H. unfold set_add. destruct (existsb (String.eqb y) s); [exact H|].
  apply in_app_iff. left. exact H.
Qed.

Lemma set_add_has (x : string) (s : list string) : In x (set_add x s).
Proof.
  unfold set_add. destruct (existsb (String.eqb x) s) eqn:E.
  - apply existsb_exists in E. destruct E as [y [Hy Hxy]].
    apply String.eqb_eq in Hxy. subst y. exact Hy.
  - apply in_app_iff. right. left. reflexivity.
Qed.

Lemma names_are_discovered (keys : list string) (acc : list string) (key name : string) :
  In name acc \/ (In key keys /\ match_instance_key key = Some name) ->
  In name (fold_left (fun names key =>
                        match match_instance_key key with
                        | Some name => set_add name names
                        | None => names
                        end) keys acc).
Proof.
  revert acc. induction keys as [|k keys IH]; intros acc H; cbn.
  - destruct H as [H|[[] _]]. exact H.
  - apply IH. destruct H as [H|[[->|Hin] Hm]].
    + left. destruct (match_instance_key k); [apply set_add_keeps|]; exact H.
    + left. rewrite Hm. apply set_add_has.
    + right. split; assumption.
Qed.

Lemma map_has_set {V : Type} (k k' : string) (v : V) (m : JsMap V) :
  map_has k m = true \/ k = k' -> map_has k (map_set k' v m) = true.
Proof.
  unfold map_has. intros [H| ->].
  - destruct (String.eqb_spec k' k) as [->|Hne].
    + rewrite map_get_set_same. reflexivity.
    + rewrite map_get_set_other by exact Hne. exact H.
  - rewrite map_get_set_same. reflexivity.
Qed.

(** Discovery misses nothing: when the environment has a variable whose
    name matches the pattern and the three variables of that instance name
    are non-empty, the instance is in the registry under its lower-case
    name. *)
Theorem complete_triple_is_registered
        (env : Env) (key name u e t : string) :
  In key (map fst env) ->
  match_instance_key key = Some name ->
  getenv env ("JIRA_INSTANCE_" +++ name +++ "_URL") = Some u -> u <> EmptyString ->
  getenv env ("JIRA_INSTANCE_" +++ name +++ "_EMAIL") = Some e -> e <> EmptyString ->
  getenv env ("JIRA_INSTANCE_" +++ name +++ "_TOKEN") = Some t -> t <> EmptyString ->
  map_has (toLowerCase name) (instances (fst (new_JiraClient toLowerCase env))) = true.
Proof.
  intros Hin Hm Hu Nu He Ne Ht Nt.
  rewrite new_JiraClient_registry.
  assert (Hn : In name (instance_names env)).
  { unfold instance_names. apply (names_are_discovered _ _ key). right. split; assumption. }
  generalize ({| clients := []; instances := [] |},
              ["[Setup] Initializing Jira client manager"%string]) as s.
  induction (instance_names env) as [|n names IH]; [destruct Hn|].
  intros [j out]. unfold register_all. cbn [fold_left].
  destruct Hn as [->|Hn].
  - apply (register_all_invariant env
             (fun j => map_has (toLowerCase name) (instances j) = true)).
    + intros name' j' out' H.
      destruct (register_effect env name' j' out') as [E | [? [? [? [_ [_ [_ [_ [_ [_ E]]]]]]]]]];
        rewrite E; [exact H|].
      cbn [instances]. apply map_has_set. left. exact H.
    + unfold register. rewrite Hu, He, Ht. cbn [truthy]. unfold truthy_string.
      destruct (String.eqb_spec u ""); [contradiction|].
      destruct (String.eqb_spec e ""); [contradiction|].
      destruct (String.eqb_spec t ""); [contradiction|].
      cbn. apply map_has_set. right. reflexivity.
  - apply (IH Hn).
Qed.

Lemma length_append (a b : string) :
  String.length (a +++ b) = (String.length a + String.length b)%nat.
Proof.
  induction a as [|c a IH]; [reflexivity|]. cbn. rewrite IH. reflexivity.
Qed.

Lemma substring_whole (s : string) : String.substring 0 (String.length s) s = s.
Proof.
  induction s as [|c s IH]; [reflexivity|]. cbn. rewrite IH. reflexivity.
Qed.

Lemma substring_take (a b : string) :
  String.substring 0 (String.length a) (a +++ b) = a.
Proof.
  induction a as [|c a IH]; cbn.
  - destruct b; reflexivity.
  - rewrite IH. reflexivity.
Qed.

Lemma substring_skip (a b : string) (k n : nat) :
  String.substring (String.length a + k) n (a +++ b) = String.substring k n b.
Proof.
  induction a as [|c a IH]; [reflexivity|]. cbn. exact IH.
Qed.

Lemma prefix_append (a b : string) : String.prefix a (a +++ b) = true.
Proof.
  induction a as [|c a IH]; cbn.
  - destruct b; reflexivity.
  - destruct (ascii_dec c c) as [_|H]; [exact IH|contradiction].
Qed.

Lemma strip_prefix_append (a b : string) : strip_prefix a (a +++ b) = Some b.
Proof.
  unfold strip_prefix. rewrite prefix_append, length_append.
  replace (String.length a + String.length b - String.length a)%nat
    with (String.length b) by lia.
  rewrite <- (Nat.add_0_r (String.length a)) at 1.
  rewrite substring_skip, substring_whole. reflexivity.
Qed.

Lemma strip_suffix_append (a x : string) : strip_suffix x (a +++ x) = Some a.
Proof.
  unfold strip_suffix. rewrite length_append.
  replace (String.length a + String.length x - String.length x)%nat
    with (String.length a) by lia.
  replace (Nat.leb (String.length x) (String.length a + String.length x)) with true
    by (symmetry; apply Nat.leb_le; lia).
  rewrite <- (Nat.add_0_r (String.length a)) at 1.
  rewrite substring_skip, substring_whole, String.eqb_refl, substring_take. reflexivity.
Qed.

(** A longer ending is not mistaken for a shorter one: the text left
    after cutting [k] characters off the front of the ending decides. *)
Lemma strip_suffix_other (a x y : string) (k : nat) :
  (String.length y = k + String.length x)%nat ->
  (String.substring k (String.length x) y =? x)%string = false ->
  strip_suffix x (a +++ y) = None.
Proof.
  intros Hl Hne. unfold strip_suffix. rewrite length_append, Hl.
  replace (String.length a + (k + String.length x) - String.length x)%nat
    with (String.length a + k)%nat by lia.
  rewrite substring_skip, Hne, andb_false_r. reflexivity.
Qed.

(** The pattern finds the instance name between the fixed prefix and
    any of the three endings, underscores in the name included, as long as
    the name is not empty and has no line break; a key without the prefix
    does not match. *)
Theorem instance_name_is_recovered_from_the_key (name key : string) :
  (name <> EmptyString ->
   single_line name = true ->
   match_instance_key ("JIRA_INSTANCE_" +++ name +++ "_URL") = Some name /\
   match_instance_key ("JIRA_INSTANCE_" +++ name +++ "_EMAIL") = Some name /\
   match_instance_key ("JIRA_INSTANCE_" +++ name +++ "_TOKEN") = Some name) /\
  (String.prefix "JIRA_INSTANCE_" key = false -> match_instance_key key = None) /\
  match_instance_key "JIRA_INSTANCE__URL" = None.
Proof.
  split; [|split; [|reflexivity]].
  - intros Hne Hsl.
    assert (E : (name =? "")%string = false).
    { destruct (String.eqb_spec name ""); [contradiction|reflexivity]. }
    unfold match_instance_key. rewrite !strip_prefix_append.
    rewrite (strip_suffix_append name "_URL").
    rewrite (strip_suffix_other name "_URL" "_EMAIL" 2) by reflexivity.
    rewrite (strip_suffix_append name "_EMAIL").
    rewrite (strip_suffix_other name "_URL" "_TOKEN" 2) by reflexivity.
    rewrite (strip_suffix_other name "_EMAIL" "_TOKEN" 0) by reflexivity.
    rewrite (strip_suffix_append name "_TOKEN").
    rewrite E, Hsl. repeat split.
  - intros H. unfold match_instance_key, strip_prefix. rewrite H. reflexivity.
Qed.

Lemma instance_name_is_recovered_from_the_key_witness :
  match_instance_key "JIRA_INSTANCE_ONTRACK_INTERNAL_EMAIL" = Some "ONTRACK_INTERNAL"%string.
Proof.
  destruct (instance_name_is_recovered_from_the_key "ONTRACK_INTERNAL" "PATH") as [H _].
  destruct H as [_ [H _]]; [discriminate | reflexivity | exact H].
Defined.

Lemma cached_client_is_returned (s : State) (other : string) (c : AxiosInstance) :
  map_has (toLowerCase other) (instances (fst s)) = true ->
  map_get (toLowerCase other) (clients (fst s)) = Some c ->
  getClient toLowerCase other s = (Return c, s).
Proof.
  intros Hi Hc. unfold getClient, bind, get. cbn. rewrite Hi. unfold map_has.
  rewrite Hc. cbn. rewrite Hc. reflexivity.
Qed.

(** A client is built on the first request for a registered instance and
    reused afterwards: the first [getClient] returns a client carrying the
    instance's e-mail and token, leaves the registry alone and remembers
    the client under the lower-case name; asking again, in any spelling,
    returns the same client and changes nothing. *)
Theorem client_is_built_once_and_reused
        (s : State) (instance other : string) (cfg : InstanceConfig) :
  map_get (toLowerCase instance) (instances (fst s)) = Some cfg ->
  map_get (toLowerCase instance) (clients (fst s)) = None ->
  toLowerCase other = toLowerCase instance ->
  exists (c : AxiosInstance) (s1 : State),
    getClient toLowerCase instance s = (Return c, s1) /\
    auth_username c = email cfg /\
    auth_password c = token cfg /\
    instances (fst s1) = instances (fst s) /\
    map_get (toLowerCase instance) (clients (fst s1)) = Some c /\
    getClient toLowerCase other s1 = (Return c, s1).
Proof.
  intros Hi Hc Ho. destruct s as [j out]. cbn [fst] in Hi, Hc.
  remember (getClient toLowerCase other) as again eqn:Hag.
  unfold getClient, bind, get. cbn. unfold map_has. rewrite Hi, Hc. cbn.
  rewrite map_get_set_same.
  do 2 eexists. split; [reflexivity|]. cbn [fst instances clients auth_username auth_password].
  split; [reflexivity|]. split; [reflexivity|]. split; [reflexivity|].
  split; [apply map_get_set_same|].
  subst again.
  apply cached_client_is_returned; rewrite Ho; cbn [fst instances clients].
  - unfold map_has. rewrite Hi. reflexivity.
  - apply map_get_set_same.
Qed.

End JiraMore.

Section JiraMoreExamples.

Import Jira.

Lemma registry_keys_are_lower_case_and_unique_witness :
  map_keys (instances (fst (new_JiraClient toLowerCase_ascii mixed_case_instances)))
  = ["amd"]%string /\
  NoDup (map_keys (instances (fst (new_JiraClient toLowerCase_ascii mixed_case_instances)))) /\
  Forall (fun k => toLowerCase_ascii k = k)
         (map_keys (instances (fst (new_JiraClient toLowerCase_ascii mixed_case_instances)))).
Proof.
  split; [reflexivity|].
  destruct (registry_keys_are_lower_case_and_unique
              toLowerCase_ascii mixed_case_instances toLowerCase_ascii_idempotent)
    as [H1 [H2 _]].
  split; assumption.
Defined.

Lemma registry_entries_are_complete_triples_witness :
  exists name : string,
    "amd"%string = toLowerCase_ascii name /\
    getenv mixed_case_instances ("JIRA_INSTANCE_" +++ name +++ "_URL")
    = Some "https://two.example.com"%string.
Proof.
  destruct (registry_entries_are_complete_triples
              toLowerCase_ascii mixed_case_instances "amd"
              {| url := "https://two.example.com"; email := "two@example.com"; token := "t2" |}
              eq_refl)
    as [name [H1 [H2 _]]].
  exists name. split; assumption.
Defined.

Lemma complete_triple_is_registered_witness :
  map_has "amd" (instances (fst (new_JiraClient toLowerCase_ascii mixed_case_instances))) = true.
Proof.
  apply (complete_triple_is_registered
           toLowerCase_ascii mixed_case_instances "JIRA_INSTANCE_Amd_URL" "Amd"
           "https://one.example.com" "one@example.com" "t1").
  - cbn. tauto.
  - reflexivity.
  - reflexivity.
  - discriminate.
  - reflexivity.
  - discriminate.
  - reflexivity.
  - discriminate.
Defined.

Lemma client_is_built_once_and_reused_witness :
  exists (c : AxiosInstance) (s1 : State),
    getClient toLowerCase_ascii "OnTrack" (new_JiraClient toLowerCase_ascii two_instances) = (Return c, s1) /\
    getClient toLowerCase_ascii "ontrack" s1 = (Return c, s1).
Proof.
  destruct (client_is_built_once_and_reused
              toLowerCase_ascii (new_JiraClient toLowerCase_ascii two_instances) "OnTrack" "ontrack"
              {| url := "https://ontrack-internal.amd.com"; email := "me@amd.com";
                 token := "t2" |}
              eq_refl eq_refl eq_refl)
    as [c [s1 [H1 [_ [_ [_ [_ H2]]]]]]].
  exists c, s1. split; assumption.
Defined.

End JiraMoreExamples.

(** ** Jira tools: what reaches the network, and how failures are told *)

Section JiraToolsFacts.

Import Jira JiraTools.

Variable toLowerCase : string -> string.
Variable Json : Type.
Variable stringify : Json -> string.
Variable stringify_pretty : Json -> string.
Variable json_truthy : Json -> bool.
Variable issues_length : Json -> option nat.
Variable issue_key : Json -> option Js.str.

Lemma this_getClient_unregistered (instance : Js.str) (s : Run) :
  match instance with
  | Some i => map_has (toLowerCase i) (instances (this s)) = false
  | None => True
  end ->
  exists c : Caught Json,
    this_getClient toLowerCase Json instance s = (inl c, s) /\
    caught_data Json c = None /\
    (forall i, instance = Some i ->
               caught_message Json c
               = unknown_instance_message i (map_keys (instances (this s)))).
Proof.
  destruct instance as [i|]; intros H; unfold this_getClient.
  - rewrite (getClient_unknown toLowerCase (this s, console s) i H).
    destruct s as [j out snt]. eexists. split; [reflexivity|]. split; [reflexivity|].
    intros i' E. injection E as <-. reflexivity.
  - eexists. split; [reflexivity|]. split; [reflexivity|]. intros i E. discriminate.
Qed.

Lemma getClient_singleton (env : Env) (t : Tools) :
  jiraClient (snd (getClient toLowerCase env t)) = Some (fst (getClient toLowerCase env t)) /\
  tool_sent (snd (getClient toLowerCase env t)) = tool_sent t.
Proof.
  unfold getClient. destruct (jiraClient t) as [j|] eqn:E.
  - cbn. split; [exact E|reflexivity].
  - destruct (new_JiraClient toLowerCase env) as [j lines]. cbn. split; reflexivity.
Qed.

Lemma getClient_object (env : Env) (t t' : Tools) :
  jiraClient t = jiraClient t' -> fst (getClient toLowerCase env t) = fst (getClient toLowerCase env t').
Proof.
  intros E. unfold getClient. rewrite <- E.
  destruct (jiraClient t); [reflexivity|].
  destruct (new_JiraClient toLowerCase env) as [j lines]. reflexivity.
Qed.

(** A tool call reaches the network only for a registered instance of a
    known tool.  When the arguments are missing, name no instance or name
    one that is not registered, or when the tool is unknown, the call
    sends nothing and comes back as an error result; the handler itself
    never fails. *)
Theorem tool_call_sends_only_to_registered_instances
        (env : Env) (name : string) (arguments : option Args)
        (first second : Reply Json) (t : Tools) :
  asks_registered toLowerCase arguments (fst (getClient toLowerCase env t)) = false \/
  ~ In name ["get_issue"; "search_issues"; "create_issue"]%string ->
  tool_sent (snd (call_tool toLowerCase Json stringify stringify_pretty json_truthy issues_length
                            issue_key env name arguments first second t))
  = tool_sent t /\
  isError (fst (call_tool toLowerCase Json stringify stringify_pretty json_truthy issues_length
                          issue_key env name arguments first second t))
  = true.
Proof.
  intros H. unfold call_tool.
  match goal with
  | |- context [getClient toLowerCase env ?t0] =>
      pose proof (getClient_singleton env t0) as [_ Hs];
        rewrite (getClient_object env t t0 eq_refl) in H;
        destruct (getClient toLowerCase env t0) as [j t1]
  end.
  cbn [fst snd] in H, Hs. cbn [tool_sent] in Hs.
  assert (U : forall args pre,
             asks_registered toLowerCase (Some args) j = false ->
             exists c : Caught Json,
               this_getClient toLowerCase Json (a_instance args)
                              (say pre {| this := j; console := tool_console t1;
                                          sent := tool_sent t1 |})
               = (inl c, say pre {| this := j; console := tool_console t1;
                                    sent := tool_sent t1 |})).
  { intros args pre Ha. cbn in Ha.
    destruct (this_getClient_unregistered
                (a_instance args)
                (say pre {| this := j; console := tool_console t1; sent := tool_sent t1 |}))
      as [c [Hc _]].
    - destruct (a_instance args); [exact Ha|exact I].
    - exists c. exact Hc. }
  destruct (name =? "get_issue")%string eqn:E1;
    [|destruct (name =? "search_issues")%string eqn:E2;
      [|destruct (name =? "create_issue")%string eqn:E3]].
  - destruct H as [H|H];
      [|exfalso; apply H; apply String.eqb_eq in E1; subst; cbn; tauto].
    destruct arguments as [args|]; [|cbn; split; [exact Hs|reflexivity]].
    unfold getIssue.
    match goal with
    | |- context [this_getClient toLowerCase Json _ (say ?pre _)] =>
        destruct (U args pre H) as [c Hc]
    end.
    rewrite Hc. cbn.
    split; [exact Hs|reflexivity].
  - destruct H as [H|H];
      [|exfalso; apply H; apply String.eqb_eq in E2; subst; cbn; tauto].
    destruct arguments as [args|]; [|cbn; split; [exact Hs|reflexivity]].
    unfold searchIssues.
    match goal with
    | |- context [this_getClient toLowerCase Json _ (say ?pre _)] =>
        destruct (U args pre H) as [c Hc]
    end.
    rewrite Hc. cbn.
    split; [exact Hs|reflexivity].
  - destruct H as [H|H];
      [|exfalso; apply H; apply String.eqb_eq in E3; subst; cbn; tauto].
    destruct arguments as [args|]; [|cbn; split; [exact Hs|reflexivity]].
    unfold createIssue.
    match goal with
    | |- context [this_getClient toLowerCase Json _ (say ?pre _)] =>
        destruct (U args pre H) as [c Hc]
    end.
    rewrite Hc. cbn.
    split; [exact Hs|reflexivity].
  - cbn. split; [exact Hs|reflexivity].
Qed.

Lemma append_empty (a : string) : a +++ EmptyString = a.
Proof.
  induction a as [|c a IH]; [reflexivity|]. cbn. rewrite IH. reflexivity.
Qed.

Lemma jira_getClient_registered (st : Jira.State) (i : string) :
  map_has (toLowerCase i) (instances (fst st)) = true ->
  exists (c : Jira.AxiosInstance) (st' : Jira.State),
    Jira.getClient toLowerCase i st = (Return c, st') /\
    instances (fst st') = instances (fst st) /\
    map_get (toLowerCase i) (clients (fst st')) = Some c.
Proof.
  intros Hi. destruct (map_get (toLowerCase i) (clients (fst st))) as [c|] eqn:Hc.
  - exists c, st. split; [|split; [reflexivity|exact Hc]].
    apply cached_client_is_returned; assumption.
  - destruct st as [j out]. cbn [fst] in Hi, Hc |- *.
    unfold Jira.getClient, bind, get. cbn. rewrite Hi. cbn. unfold map_has in *.
    rewrite Hc. destruct (map_get (toLowerCase i) (instances j)) as [cfg|]; [|discriminate].
    cbn. rewrite map_get_set_same.
    do 2 eexists. split; [reflexivity|]. cbn. split; [reflexivity|].
    apply map_get_set_same.
Qed.

Lemma this_getClient_registered (i : string) (s : Run) :
  map_has (toLowerCase i) (instances (this s)) = true ->
  exists (c : Jira.AxiosInstance) (s' : Run),
    this_getClient toLowerCase Json (Some i) s = (inr c, s') /\
    instances (this s') = instances (this s) /\
    sent s' = sent s /\
    map_get (toLowerCase i) (clients (this s')) = Some c.
Proof.
  intros Hi. unfold this_getClient.
  destruct (jira_getClient_registered (this s, console s) i Hi) as [c [[j out] [E [I C]]]].
  rewrite E. do 2 eexists. split; [reflexivity|]. cbn in *. repeat split; assumption.
Qed.

Lemma this_getClient_cached (i : string) (c : Jira.AxiosInstance) (s : Run) :
  map_has (toLowerCase i) (instances (this s)) = true ->
  map_get (toLowerCase i) (clients (this s)) = Some c ->
  this_getClient toLowerCase Json (Some i) s = (inr c, s).
Proof.
  intros Hi Hc. unfold this_getClient.
  rewrite (cached_client_is_returned toLowerCase (this s, console s) i c Hi Hc).
  destruct s. reflexivity.
Qed.

(** Every tool tells an unknown instance the same way: the error text of
    the registry, with the names that are registered, behind the prefix of
    the tool and the word [Error:]. *)
Theorem unknown_instance_is_told_by_every_tool
        (env : Env) (args : Args) (first second : Reply Json) (t : Tools) (i : string) :
  a_instance args = Some i ->
  map_has (toLowerCase i) (instances (fst (getClient toLowerCase env t))) = false ->
  text (fst (call_tool toLowerCase Json stringify stringify_pretty json_truthy issues_length issue_key
                       env "get_issue" (Some args) first second t))
  = "Error: Failed to fetch issue " +++ show (a_issue_key args) +++ ": " +++
    "Unknown Jira instance: " +++ i +++ ". Available instances: " +++
    String.concat ", " (map_keys (instances (fst (getClient toLowerCase env t)))) /\
  text (fst (call_tool toLowerCase Json stringify stringify_pretty json_truthy issues_length issue_key
                       env "search_issues" (Some args) first second t))
  = "Error: Failed to search issues: " +++
    "Unknown Jira instance: " +++ i +++ ". Available instances: " +++
    String.concat ", " (map_keys (instances (fst (getClient toLowerCase env t)))) /\
  text (fst (call_tool toLowerCase Json stringify stringify_pretty json_truthy issues_length issue_key
                       env "create_issue" (Some args) first second t))
  = "Error: Failed to create issue: " +++
    "Unknown Jira instance: " +++ i +++ ". Available instances: " +++
    String.concat ", " (map_keys (instances (fst (getClient toLowerCase env t)))).
Proof.
  intros Ha H.
  assert (G : forall t0 pre,
             jiraClient t0 = jiraClient t ->
             exists c : Caught Json,
               this_getClient toLowerCase Json (a_instance args)
                 (say pre {| this := fst (getClient toLowerCase env t0);
                             console := tool_console (snd (getClient toLowerCase env t0));
                             sent := tool_sent (snd (getClient toLowerCase env t0)) |})
               = (inl c, say pre {| this := fst (getClient toLowerCase env t0);
                                    console := tool_console (snd (getClient toLowerCase env t0));
                                    sent := tool_sent (snd (getClient toLowerCase env t0)) |}) /\
               caught_data Json c = None /\
               caught_message Json c
               = unknown_instance_message i (map_keys (instances (fst (getClient toLowerCase env t))))).
  { intros t0 pre E0.
    rewrite (getClient_object env t t0 (eq_sym E0)) in H |- *.
    destruct (this_getClient_unregistered
                (a_instance args)
                (say pre {| this := fst (getClient toLowerCase env t0);
                            console := tool_console (snd (getClient toLowerCase env t0));
                            sent := tool_sent (snd (getClient toLowerCase env t0)) |}))
      as [c [Hc [Hd Hm]]].
    - rewrite Ha. exact H.
    - exists c. split; [exact Hc|]. split; [exact Hd|]. apply Hm. exact Ha. }
  unfold call_tool.
  repeat split.
  - cbn [String.eqb Ascii.eqb Bool.eqb].
    match goal with
    | |- context [getClient toLowerCase env ?t0] =>
        pose proof (fun pre => G t0 pre eq_refl) as G0;
          destruct (getClient toLowerCase env t0) as [j t1]
    end.
    cbn [fst snd] in G0. unfold getIssue.
    match goal with
    | |- context [this_getClient toLowerCase Json _ (say ?pre _)] =>
        destruct (G0 pre) as [c [Hc [Hd Hm]]]
    end.
    rewrite Hc. cbn.
    unfold message_with_details, details. rewrite Hd, Hm, append_empty. reflexivity.
  - cbn [String.eqb Ascii.eqb Bool.eqb].
    match goal with
    | |- context [getClient toLowerCase env ?t0] =>
        pose proof (fun pre => G t0 pre eq_refl) as G0;
          destruct (getClient toLowerCase env t0) as [j t1]
    end.
    cbn [fst snd] in G0. unfold searchIssues.
    match goal with
    | |- context [this_getClient toLowerCase Json _ (say ?pre _)] =>
        destruct (G0 pre) as [c [Hc [Hd Hm]]]
    end.
    rewrite Hc. cbn.
    unfold message_with_details, details. rewrite Hd, Hm, append_empty. reflexivity.
  - cbn [String.eqb Ascii.eqb Bool.eqb].
    match goal with
    | |- context [getClient toLowerCase env ?t0] =>
        pose proof (fun pre => G t0 pre eq_refl) as G0;
          destruct (getClient toLowerCase env t0) as [j t1]
    end.
    cbn [fst snd] in G0. unfold createIssue.
    match goal with
    | |- context [this_getClient toLowerCase Json _ (say ?pre _)] =>
        destruct (G0 pre) as [c [Hc [Hd Hm]]]
    end.
    rewrite Hc. cbn.
    unfold message_with_details, details. rewrite Hd, Hm, append_empty. reflexivity.
Qed.

Lemma axios_reply_2xx (status : Z) (body : Json) :
  200 <= status < 300 -> axios_reply Json (Replied status body) = inr body.
Proof.
  intros [H1 H2]. unfold axios_reply.
  apply Z.leb_le in H1. apply Z.ltb_lt in H2. rewrite H1, H2. reflexivity.
Qed.

(** [createIssue] reads the new issue back, and a failure there is told
    as a failure to create: when the creating request succeeds and the
    reading request does not, two requests have been sent, the issue
    exists, and the tool answers
    [Error: Failed to create issue: Failed to fetch issue <key>: ...]. *)
Theorem created_issue_that_cannot_be_read_back_is_an_error
        (env : Env) (args : Args) (status : Z) (body : Json) (key : Js.str)
        (second : Reply Json) (c : Caught Json) (t : Tools) (i : string) :
  a_instance args = Some i ->
  map_has (toLowerCase i) (instances (fst (getClient toLowerCase env t))) = true ->
  200 <= status < 300 ->
  issue_key body = Some key ->
  axios_reply Json second = inl c ->
  exists (base : string) (data : IssueData),
    fst (call_tool toLowerCase Json stringify stringify_pretty json_truthy issues_length issue_key
                   env "create_issue" (Some args) (Replied status body) second t)
    = {| text := "Error: Failed to create issue: Failed to fetch issue " +++ show key +++
                 ": " +++ message_with_details Json stringify json_truthy c;
         isError := true |} /\
    tool_sent (snd (call_tool toLowerCase Json stringify stringify_pretty json_truthy issues_length
                              issue_key env "create_issue" (Some args)
                              (Replied status body) second t))
    = tool_sent t ++ [SentCreate base data;
                      SentGetIssue base ("/issue/" +++ show key) issue_fields].
Proof.
  intros Ha H Hs Hk Hc.
  unfold call_tool. cbn [String.eqb Ascii.eqb Bool.eqb].
  match goal with
  | |- context [getClient toLowerCase env ?t0] =>
      rewrite (getClient_object env t t0 eq_refl) in H;
        pose proof (getClient_singleton env t0) as [_ Hsent];
        destruct (getClient toLowerCase env t0) as [j t1]
  end.
  cbn [fst snd tool_sent] in H, Hsent.
  unfold createIssue. rewrite Ha.
  match goal with
  | |- context [this_getClient toLowerCase Json (Some i) ?s0] =>
      destruct (this_getClient_registered i s0) as [cl [s1 [E [I [S C]]]]]; [exact H|]
  end.
  rewrite E. cbn [show]. rewrite I. cbn [this say].
  unfold map_has in H.
  destruct (map_get (toLowerCase i) (instances j)) as [cfg|] eqn:Hcfg; [|discriminate].
  rewrite (axios_reply_2xx _ _ Hs), Hk.
  unfold getIssue.
  match goal with
  | |- context [this_getClient toLowerCase Json (Some i) ?s2] =>
      rewrite (this_getClient_cached i cl s2)
  end.
  - rewrite Hc. cbn. rewrite S. cbn. rewrite Hsent.
    do 2 eexists. split; [|rewrite <- app_assoc; reflexivity].
    rewrite append_empty. reflexivity.
  - cbn. rewrite I. cbn. unfold map_has. rewrite Hcfg. reflexivity.
  - cbn. exact C.
Qed.

End JiraToolsFacts.

Section JiraToolsExamples.

Import Jira JiraTools.

Lemma tool_call_sends_only_to_registered_instances_witness :
  tool_sent (snd (call_tool toLowerCase_ascii string text_itself text_itself text_truthy
                            text_issues text_key
                            two_instances "get_issue" (Some foo_args)
                            (Unreachable "x") (Unreachable "x") fresh_tools))
  = [] /\
  isError (fst (call_tool toLowerCase_ascii string text_itself text_itself text_truthy
                            text_issues text_key
                          two_instances "get_issue" (Some foo_args)
                          (Unreachable "x") (Unreachable "x") fresh_tools))
  = true.
Proof.
  apply (tool_call_sends_only_to_registered_instances
           toLowerCase_ascii string text_itself text_itself text_truthy text_issues text_key
           two_instances "get_issue" (Some foo_args)
           (Unreachable "x") (Unreachable "x") fresh_tools).
  left. reflexivity.
Defined.

Lemma unknown_instance_is_told_by_every_tool_witness :
  text (fst (call_tool toLowerCase_ascii string text_itself text_itself text_truthy
                            text_issues text_key
                       two_instances "search_issues" (Some foo_args)
                       (Unreachable "x") (Unreachable "x") fresh_tools))
  = "Error: Failed to search issues: Unknown Jira instance: foo. Available instances: amd, ontrack"%string.
Proof.
  destruct (unknown_instance_is_told_by_every_tool
              toLowerCase_ascii string text_itself text_itself text_truthy text_issues text_key
              two_instances foo_args (Unreachable "x") (Unreachable "x") fresh_tools "foo"%string
              eq_refl eq_refl)
    as [_ [H _]].
  exact H.
Defined.

Lemma created_issue_that_cannot_be_read_back_is_an_error_witness :
  text (fst (call_tool toLowerCase_ascii string text_itself text_itself text_truthy
                            text_issues text_key
                       two_instances "create_issue" (Some amd_args)
                       (Replied 201 "PRJ-7"%string) (Unreachable "socket hang up")
                       fresh_tools))
  = "Error: Failed to create issue: Failed to fetch issue PRJ-7: socket hang up"%string /\
  List.length
    (tool_sent (snd (call_tool toLowerCase_ascii string text_itself text_itself text_truthy
                               text_issues
                               text_key two_instances "create_issue" (Some amd_args)
                               (Replied 201 "PRJ-7"%string) (Unreachable "socket hang up")
                               fresh_tools)))
  = 2%nat.
Proof.
  destruct (created_issue_that_cannot_be_read_back_is_an_error
              toLowerCase_ascii string text_itself text_itself text_truthy text_issues text_key
              two_instances amd_args 201 "PRJ-7"%string (Some "PRJ-7"%string)
              (Unreachable "socket hang up") (plain string "socket hang up")
              fresh_tools "AMD"%string)
    as [base [data [H1 H2]]].
  - reflexivity.
  - reflexivity.
  - lia.
  - reflexivity.
  - reflexivity.
  - rewrite H1, H2. split; reflexivity.
Defined.

End JiraToolsExamples.
